(** * Event processing and synchronisation core of the AEM -> MLE forwarder

    Shallow embedding of [aem-mle-sync-service.js] (module [Service]) and of
    [adobe-io-runtime-action.js] (module [Action]), followed by the theorems
    about them.  JavaScript strings are modelled by their UTF-8 bytes
    ([string]), numbers that the code only compares or adds by [Z]. *)

From Stdlib Require Import ZArith List String Ascii Bool Lia.
From stdpp Require Import base gmap strings list.
Import ListNotations.

Local Open Scope string_scope.
Local Open Scope list_scope.
Local Open Scope Z_scope.

(* ===================================================================== *)
(** * JavaScript strings *)
(* ===================================================================== *)

Module Js.

(** [s.startsWith(p)] *)
Fixpoint startsWith (p s : string) : bool :=
  match p, s with
  | EmptyString, _ => true
  | String _ _, EmptyString => false
  | String a p', String b s' => if Ascii.eqb a b then startsWith p' s' else false
  end.

(** [s.includes(p)] *)
Fixpoint includes (p s : string) : bool :=
  startsWith p s ||
  match s with
  | EmptyString => false
  | String _ s' => includes p s'
  end.

(** One character of [toLowerCase].  Only the ASCII letters are moved: the
    code compares the lowered string with ASCII constants that contain no
    [k], and no other character lowers to one of their letters. *)
Definition lower_ascii (c : ascii) : ascii :=
  let n := N_of_ascii c in
  if ((65 <=? n) && (n <=? 90))%N then ascii_of_N (n + 32) else c.

(** [s.toLowerCase()] *)
Fixpoint toLowerCase (s : string) : string :=
  match s with
  | EmptyString => EmptyString
  | String c s' => String (lower_ascii c) (toLowerCase s')
  end.

(** [s.split(sep)] for a one-character separator: never empty. *)
Fixpoint split (sep : ascii) (s : string) : list string :=
  match s with
  | EmptyString => [EmptyString]
  | String c s' =>
      if Ascii.eqb c sep then EmptyString :: split sep s'
      else match split sep s' with
           | [] => [String c EmptyString]
           | seg :: segs => String c seg :: segs
           end
  end.

(** [arr.pop()] on the result of a split: its last element. *)
Definition pop (l : list string) : string := List.last l EmptyString.

(** [s.replace(/\.[^/.]+$/, '')]: the match, if any, starts at the last dot,
    which must be followed by at least one character and by no slash. *)
Fixpoint no_slash (s : string) : bool :=
  match s with
  | EmptyString => true
  | String c s' => negb (Ascii.eqb c "/") && no_slash s'
  end.

Definition strip_extension (s : string) : string :=
  match List.rev (split "." s) with
  | ext :: seg :: segs =>
      if negb (String.eqb ext "") && no_slash ext
      then String.concat "." (List.rev (seg :: segs))
      else s
  | _ => s
  end.

(** The body of an HTTP response, as far as the code reads it: the token
    endpoint answers [{access_token, expires_in}], the assets API
    [{id, assetId, status, message}]. *)
Record ResponseData : Type := mkData {
  access_token : string;
  expires_in : Z;
  r_id : option string;
  r_assetId : option string;
  r_status : option string;
  r_message : option string }.

Record Response : Type := mkResponse {
  status : Z;
  data : ResponseData }.

(** What a network call is settled with: the failure to get a response
    (connection refused, time-out, ...) or a response with a status. *)
Inductive HttpOutcome : Type :=
| NoResponse (message : string)
| Responded (r : Response).

(** Thrown values.  [RequestError] is the error of a rejected axios call: it
    carries [error.response], absent when no response arrived.  Every other
    error has no [response] property. *)
Inductive Exn : Type :=
| TypeError
| RangeError
| Error (message : string)
| RequestError (message : string) (response : option Response).

Definition response_of (e : Exn) : option Response :=
  match e with
  | RequestError _ r => r
  | _ => None
  end.

Inductive Result (A : Type) : Type :=
| Ok (a : A)
| Throw (e : Exn).
Arguments Ok {A} a.
Arguments Throw {A} e.

(** [response.ok] of fetch, and the default [validateStatus] of axios. *)
Definition is_2xx (st : Z) : bool := (200 <=? st) && (st <? 300).

End Js.

(* ===================================================================== *)
(** * Node's [crypto] and [Buffer]: SHA-256, HMAC, hex, timingSafeEqual *)
(* ===================================================================== *)

Module Crypto.

(** The service calls Node's [crypto] and [Buffer]; they are written out
    here after FIPS 180-4 (SHA-256) and RFC 2104 (HMAC), and after Node's
    hexadecimal codec.  Bytes are integers in [0, 256); 32-bit words are
    integers in [0, 2^32). *)
Definition bytes_of_string (s : string) : list Z :=
  List.map (fun c => Z.of_N (N_of_ascii c)) (list_ascii_of_string s).

Definition hexval (c : ascii) : option Z :=
  let n := Z.of_N (N_of_ascii c) in
  if (48 <=? n) && (n <=? 57) then Some (n - 48)
  else if (97 <=? n) && (n <=? 102) then Some (n - 87)
  else if (65 <=? n) && (n <=? 70) then Some (n - 55)
  else None.

Definition hexdigit (d : Z) : ascii :=
  ascii_of_N (Z.to_N (if d <? 10 then d + 48 else d + 87)).

(** [Buffer.from(s, 'hex')]: decoding stops at the first pair that is not two
    hexadecimal digits, and a trailing single character is dropped. *)
Fixpoint buffer_from_hex (s : string) : list Z :=
  match s with
  | String c1 (String c2 rest) =>
      match hexval c1, hexval c2 with
      | Some hi, Some lo => (16 * hi + lo) :: buffer_from_hex rest
      | _, _ => []
      end
  | _ => []
  end.

(** [buf.toString('hex')] / [digest('hex')]: lower-case hexadecimal. *)
Fixpoint to_hex (bs : list Z) : string :=
  match bs with
  | [] => EmptyString
  | b :: bs' => String (hexdigit (b / 16)) (String (hexdigit (b mod 16)) (to_hex bs'))
  end.

Definition w32 (x : Z) : Z := x mod 2 ^ 32.
Definition add32 (x y : Z) : Z := w32 (x + y).
Definition rotr (n x : Z) : Z := Z.lor (Z.shiftr x n) (w32 (Z.shiftl x (32 - n))).
Definition not32 (x : Z) : Z := 2 ^ 32 - 1 - x.

Definition Ch (x y z : Z) : Z := Z.lxor (Z.land x y) (Z.land (not32 x) z).
Definition Maj (x y z : Z) : Z := Z.lxor (Z.lxor (Z.land x y) (Z.land x z)) (Z.land y z).
Definition bsig0 (x : Z) : Z := Z.lxor (Z.lxor (rotr 2 x) (rotr 13 x)) (rotr 22 x).
Definition bsig1 (x : Z) : Z := Z.lxor (Z.lxor (rotr 6 x) (rotr 11 x)) (rotr 25 x).
Definition ssig0 (x : Z) : Z := Z.lxor (Z.lxor (rotr 7 x) (rotr 18 x)) (Z.shiftr x 3).
Definition ssig1 (x : Z) : Z := Z.lxor (Z.lxor (rotr 17 x) (rotr 19 x)) (Z.shiftr x 10).

(** Big-endian packing of bytes into words, and back. *)
Fixpoint words_of_bytes (bs : list Z) : list Z :=
  match bs with
  | b0 :: b1 :: b2 :: b3 :: rest =>
      (((b0 * 256 + b1) * 256 + b2) * 256 + b3) :: words_of_bytes rest
  | _ => []
  end.

Definition bytes_of_word (x : Z) : list Z :=
  [ (x / 16777216) mod 256; (x / 65536) mod 256; (x / 256) mod 256; x mod 256 ].

(** The round constants and the initial hash value of FIPS 180-4. *)
Definition round_constants : list Z :=
  words_of_bytes (buffer_from_hex
    ("428a2f9871374491b5c0fbcfe9b5dba53956c25b59f111f1923f82a4ab1c5ed5" ++
     "d807aa9812835b01243185be550c7dc372be5d7480deb1fe9bdc06a7c19bf174" ++
     "e49b69c1efbe47860fc19dc6240ca1cc2de92c6f4a7484aa5cb0a9dc76f988da" ++
     "983e5152a831c66db00327c8bf597fc7c6e00bf3d5a7914706ca635114292967" ++
     "27b70a852e1b21384d2c6dfc53380d13650a7354766a0abb81c2c92e92722c85" ++
     "a2bfe8a1a81a664bc24b8b70c76c51a3d192e819d6990624f40e3585106aa070" ++
     "19a4c1161e376c082748774c34b0bcb5391c0cb34ed8aa4a5b9cca4f682e6ff3" ++
     "748f82ee78a5636f84c878148cc7020890befffaa4506cebbef9a3f7c67178f2")).

Record HashState : Type := mkHash {
  ha : Z; hb : Z; hc : Z; hd : Z; he : Z; hf : Z; hg : Z; hh : Z }.

Definition initial_hash : HashState :=
  mkHash 1779033703 3144134277 1013904242 2773480762
         1359893119 2600822924 528734635 1541459225.

(** Message schedule, most recent word first: [sched] holds W(t-1), W(t-2), ... *)
Fixpoint extend_schedule (n : nat) (sched : list Z) : list Z :=
  match n with
  | O => sched
  | S n' =>
      let wt := add32 (add32 (add32 (ssig1 (nth 1 sched 0)) (nth 6 sched 0))
                             (ssig0 (nth 14 sched 0))) (nth 15 sched 0) in
      extend_schedule n' (wt :: sched)
  end.

Definition message_schedule (block : list Z) : list Z :=
  List.rev (extend_schedule 48 (List.rev (words_of_bytes block))).

Definition round (s : HashState) (kw : Z * Z) : HashState :=
  let t1 := add32 (add32 (add32 (add32 (hh s) (bsig1 (he s))) (Ch (he s) (hf s) (hg s)))
                         (fst kw)) (snd kw) in
  let t2 := add32 (bsig0 (ha s)) (Maj (ha s) (hb s) (hc s)) in
  mkHash (add32 t1 t2) (ha s) (hb s) (hc s) (add32 (hd s) t1) (he s) (hf s) (hg s).

Definition compress (h : HashState) (block : list Z) : HashState :=
  let s := List.fold_left round (List.combine round_constants (message_schedule block)) h in
  mkHash (add32 (ha h) (ha s)) (add32 (hb h) (hb s)) (add32 (hc h) (hc s))
         (add32 (hd h) (hd s)) (add32 (he h) (he s)) (add32 (hf h) (hf s))
         (add32 (hg h) (hg s)) (add32 (hh h) (hh s)).

Fixpoint blocks (fuel : nat) (bs : list Z) : list (list Z) :=
  match fuel, bs with
  | O, _ | _, [] => []
  | S fuel', _ => List.firstn 64 bs :: blocks fuel' (List.skipn 64 bs)
  end.

Definition pad (msg : list Z) : list Z :=
  let len := Z.of_nat (List.length msg) in
  let bits := 8 * len in
  msg ++ [128] ++ List.repeat 0 (Z.to_nat ((55 - len) mod 64))
      ++ bytes_of_word (bits / 2 ^ 32) ++ bytes_of_word bits.

Definition digest_bytes (h : HashState) : list Z :=
  bytes_of_word (ha h) ++ bytes_of_word (hb h) ++ bytes_of_word (hc h) ++
  bytes_of_word (hd h) ++ bytes_of_word (he h) ++ bytes_of_word (hf h) ++
  bytes_of_word (hg h) ++ bytes_of_word (hh h).

Definition sha256 (msg : list Z) : list Z :=
  let padded := pad msg in
  digest_bytes (List.fold_left compress (blocks (List.length padded) padded) initial_hash).

(** HMAC (RFC 2104) with SHA-256: [createHmac('sha256', key).update(msg).digest()] *)
Definition hmac_key_block (key : list Z) : list Z :=
  let k := if (64 <? Z.of_nat (List.length key)) then sha256 key else key in
  k ++ List.repeat 0 (64 - List.length k)%nat.

Definition hmac_sha256 (key msg : list Z) : list Z :=
  let kb := hmac_key_block key in
  sha256 (List.map (Z.lxor 92) kb ++ sha256 (List.map (Z.lxor 54) kb ++ msg)).

(** [crypto.timingSafeEqual(a, b)]: throws when the byte lengths differ. *)
Definition timingSafeEqual (a b : list Z) : Js.Result bool :=
  if Nat.eqb (List.length a) (List.length b)
  then Js.Ok (bool_decide (a = b))
  else Js.Throw Js.RangeError.

End Crypto.

(* ===================================================================== *)
(** * Metadata values and the metadata transformer *)
(* ===================================================================== *)

Module Metadata.
Import Js.

(** A metadata value is a string, a number or an array of those
    ([mapping<string, string | string[] | number>]).  Of a number the code
    only uses whether it is zero and whether it equals another one. *)
Inductive Scalar : Type :=
| SStr (s : string)
| SNum (n : Z).

Inductive MetaValue : Type :=
| MScalar (x : Scalar)
| MArr (xs : list Scalar).

#[export] Instance Scalar_eq_dec : EqDecision Scalar.
Proof. solve_decision. Defined.

#[export] Instance MetaValue_eq_dec : EqDecision MetaValue.
Proof. solve_decision. Defined.

Definition MStr (s : string) : MetaValue := MScalar (SStr s).
Definition MNum (n : Z) : MetaValue := MScalar (SNum n).

(** The metadata object; a key that is absent reads as [undefined] ([None]). *)
Abbreviation Metadata := (gmap string MetaValue).

(** JavaScript truthiness: the empty string and 0 are falsy, every array
    (also the empty one) is truthy, [undefined] is falsy. *)
Definition truthy (v : MetaValue) : bool :=
  match v with
  | MScalar (SStr s) => negb (String.eqb s "")
  | MScalar (SNum n) => negb (n =? 0)
  | MArr _ => true
  end.

Definition truthy_opt (v : option MetaValue) : bool :=
  match v with
  | Some x => truthy x
  | None => false
  end.

(** [a || b] *)
Definition js_or (a b : option MetaValue) : option MetaValue :=
  if truthy_opt a then a else b.

Definition js_or_str (a b : option string) : option string :=
  match a with
  | Some s => if String.eqb s "" then b else a
  | None => b
  end.

(** [value.toLowerCase()]: only strings have the method. *)
Definition value_toLowerCase (v : MetaValue) : Result string :=
  match v with
  | MScalar (SStr s) => Ok (toLowerCase s)
  | _ => Throw TypeError
  end.

(** [value && (value.toLowerCase() === 'approved' ||
               value.toLowerCase() === 'published')], as a condition. *)
Definition approval_test (value : option MetaValue) : Result bool :=
  match value with
  | None => Ok false
  | Some v =>
      if truthy v then
        match value_toLowerCase v with
        | Ok s => Ok (String.eqb s "approved" || String.eqb s "published")
        | Throw e => Throw e
        end
      else Ok false
  end.

(** [Array.isArray(v) ? v : [v]] *)
Definition as_array (v : MetaValue) : list Scalar :=
  match v with
  | MArr xs => xs
  | MScalar x => [x]
  end.

(** [if (metadata[key]) { acc.push(...as_array(metadata[key])) }] *)
Definition push_field (metadata : Metadata) (key : string) (acc : list Scalar) : list Scalar :=
  match metadata !! key with
  | Some v => if truthy v then acc ++ as_array v else acc
  | None => acc
  end.

(** [new Set(l)] keeps the first occurrence of each value, in insertion
    order; [[...set]] lists them in that order. *)
Fixpoint Set_add_all (set : list Scalar) (l : list Scalar) : list Scalar :=
  match l with
  | [] => set
  | x :: l' => Set_add_all (if bool_decide (x ∈ set) then set else set ++ [x]) l'
  end.

Definition spread_Set (l : list Scalar) : list Scalar := Set_add_all [] l.

Definition extractTags (metadata : Metadata) : list Scalar :=
  let tags := [] in
  let tags := push_field metadata "cq:tags" tags in
  let tags := push_field metadata "dam:tags" tags in
  spread_Set tags.

Definition extractCategories (metadata : Metadata) : list Scalar :=
  let categories := [] in
  let categories := push_field metadata "dc:subject" categories in
  let categories := push_field metadata "dam:category" categories in
  spread_Set categories.

Definition extractKeywords (metadata : Metadata) : list Scalar :=
  let keywords := [] in
  let keywords := push_field metadata "dc:keywords" keywords in
  spread_Set keywords.

(** The value of [mimeType]: a metadata value, or a member that the lookup
    [mimeTypes[extension]] inherits from [Object.prototype]. *)
Inductive Mime : Type :=
| MimeVal (v : MetaValue)
| MimeInherited (name : string).

Definition getMediaType (mimeType : option Mime) : Result string :=
  match mimeType with
  | None => Ok "unknown"
  | Some (MimeInherited _) => Throw TypeError
  | Some (MimeVal v) =>
      if negb (truthy v) then Ok "unknown"
      else match v with
           | MScalar (SStr s) =>
               if startsWith "image/" s then Ok "image"
               else if startsWith "video/" s then Ok "video"
               else if startsWith "audio/" s then Ok "audio"
               else if includes "pdf" s then Ok "document"
               else if includes "text/" s then Ok "text"
               else Ok "other"
           | _ => Throw TypeError
           end
  end.

Definition mimeTypes : list (string * string) :=
  [ ("jpg", "image/jpeg"); ("jpeg", "image/jpeg"); ("png", "image/png");
    ("gif", "image/gif"); ("svg", "image/svg+xml"); ("mp4", "video/mp4");
    ("mov", "video/quicktime"); ("pdf", "application/pdf"); ("txt", "text/plain") ].

Fixpoint own_property (table : list (string * string)) (key : string) : option string :=
  match table with
  | [] => None
  | (k, v) :: rest => if String.eqb k key then Some v else own_property rest key
  end.

(** [mimeTypes[extension] || 'application/octet-stream']: [mimeTypes] is an
    object literal, so a key it does not own is looked up in
    [Object.prototype]; of its members only these two have a lower-case name. *)
Definition mimeTypes_get (extension : string) : Mime :=
  match own_property mimeTypes extension with
  | Some m => MimeVal (MStr m)
  | None =>
      if String.eqb extension "constructor" || String.eqb extension "__proto__"
      then MimeInherited extension
      else MimeVal (MStr "application/octet-stream")
  end.

(** [assetPath] is [undefined] ([None]) when the event carries no path. *)
Definition getMimeTypeFromPath (assetPath : option string) : Result Mime :=
  match assetPath with
  | None => Throw TypeError
  | Some p => Ok (mimeTypes_get (toLowerCase (pop (split "." p))))
  end.

Definition approvalFields3 : list string :=
  [ "dam:status"; "dam:approvalStatus"; "cq:workflowStatus" ].

(** The [for ... of] loop shared by [getApprovalStatus] and the service's
    [isAssetApproved]: it returns at the first field that passes the test. *)
Fixpoint first_approved (metadata : Metadata) (fields : list string) : Result bool :=
  match fields with
  | [] => Ok false
  | field :: rest =>
      match approval_test (metadata !! field) with
      | Ok true => Ok true
      | Ok false => first_approved metadata rest
      | Throw e => Throw e
      end
  end.

Definition getApprovalStatus (metadata : Metadata) : Result string :=
  match first_approved metadata approvalFields3 with
  | Ok true => Ok "approved"
  | Ok false => Ok "pending"
  | Throw e => Throw e
  end.

Definition standardFields : list string :=
  [ "jcr:uuid"; "jcr:created"; "jcr:lastModified"; "jcr:title";
    "dc:title"; "dc:description"; "dc:format"; "dc:rights"; "dc:creator";
    "dc:subject"; "dc:keywords";
    "dam:size"; "dam:status"; "dam:brand"; "dam:campaign"; "dam:productType";
    "dam:usage"; "dam:altText";
    "tiff:ImageWidth"; "tiff:ImageLength"; "tiff:ColorSpace"; "tiff:XResolution";
    "tiff:Orientation";
    "exif:PixelXDimension"; "exif:PixelYDimension";
    "cq:tags"; "cq:workflowStatus";
    "xmpRights:UsageTerms" ].

Definition is_custom_key (key : string) : bool :=
  negb (bool_decide (key ∈ standardFields))
  && negb (startsWith "jcr:" key) && negb (startsWith "rep:" key).

(** [object[key] = value] on an object created by [{}].  The key
    [__proto__] is the accessor that the object inherits from
    [Object.prototype]: its setter replaces the prototype when the value is
    an array and does nothing for a string or a number, and in neither case
    does the object get a property of that name.  Every other key becomes a
    property of the object itself. *)
Definition assign (object : Metadata) (key : string) (value : MetaValue) : Metadata :=
  if String.eqb key "__proto__" then object else <[key := value]> object.

(** [Object.keys(metadata).forEach(key => { if (...) customFields[key] =
    metadata[key] })], starting from [customFields = {}]. *)
Definition extractCustomMetadata (metadata : Metadata) : Metadata :=
  map_fold (fun key value customFields =>
              if is_custom_key key then assign customFields key value else customFields)
           ∅ metadata.

Definition extractFileNameFromPath (assetPath : option string) : Result string :=
  match assetPath with
  | None => Throw TypeError
  | Some p => Ok (pop (split "/" p))
  end.

Definition extractAssetIdFromPath (assetPath : option string) : Result string :=
  match assetPath with
  | None => Throw TypeError
  | Some p => Ok (strip_extension (pop (split "/" p)))
  end.

(** A value interpolated in a template string. *)
Definition interpolate (s : option string) : string :=
  match s with
  | Some x => x
  | None => "undefined"
  end.

(** [metadata['dc:format'] || getMimeTypeFromPath(assetPath)] *)
Definition mimeType_of (metadata : Metadata) (assetPath : option string) : Result Mime :=
  match metadata !! "dc:format" with
  | Some v => if truthy v then Ok (MimeVal v) else getMimeTypeFromPath assetPath
  | None => getMimeTypeFromPath assetPath
  end.

(** [metadata['jcr:uuid'] || extractAssetIdFromPath(assetPath)] *)
Definition assetId_of (metadata : Metadata) (assetPath : option string) : Result MetaValue :=
  match metadata !! "jcr:uuid" with
  | Some v =>
      if truthy v then Ok v
      else match extractAssetIdFromPath assetPath with
           | Ok s => Ok (MStr s)
           | Throw e => Throw e
           end
  | None =>
      match extractAssetIdFromPath assetPath with
      | Ok s => Ok (MStr s)
      | Throw e => Throw e
      end
  end.

(** The transformer's output.  The action's variant has no [publicUrl],
    [apiVersion] and [customMetadata] fields ([None]). *)
Record NormalizedMetadata : Type := mkNormalized {
  assetId : MetaValue;
  assetPath : option string;
  assetUrl : string;
  publicUrl : option string;
  mediaType : string;
  mimeType : Mime;
  fileSize : option MetaValue;
  fileName : string;
  width : option MetaValue;
  height : option MetaValue;
  title : option MetaValue;
  description : option MetaValue;
  altText : option MetaValue;
  tags : list Scalar;
  categories : list Scalar;
  keywords : list Scalar;
  brand : option MetaValue;
  campaign : option MetaValue;
  productType : option MetaValue;
  usage : option MetaValue;
  approvalStatus : string;
  publishStatus : string;
  workflowStatus : option MetaValue;
  createdDate : option MetaValue;
  modifiedDate : option MetaValue;
  publishedDate : Z;
  colorSpace : option MetaValue;
  resolution : option MetaValue;
  orientation : option MetaValue;
  copyright : option MetaValue;
  license : option MetaValue;
  creator : option MetaValue;
  eventType : option string;
  sourceSystem : string;
  apiVersion : option string;
  customMetadata : option Metadata }.

End Metadata.

(* ===================================================================== *)
(** * Effects: the token cache, the clock and the network *)
(* ===================================================================== *)

Module Effects.
Import Js Metadata.

(** The fields of [TokenManager]; [None] is [null]. *)
Record TokenManager : Type := mkTokenManager {
  accessToken : option string;
  tokenExpiry : option Z }.

(** Outbound HTTP requests.  The assets endpoint
    [{base}/{version}/assets[/{assetId}]] is kept as its parts. *)
Inductive Request : Type :=
| TokenRequest
| AssetsPost (bearer : string) (body : NormalizedMetadata)
| AssetsPut (id : MetaValue) (bearer : string) (body : NormalizedMetadata)
| AssetsDelete (id : MetaValue) (bearer : string).

(** The mutable world: the process-wide token cache, the requests issued so
    far (oldest first) and the number of clock readings taken. *)
Record World : Type := mkWorld {
  tokenManager : TokenManager;
  outbound : list Request;
  clockReads : nat }.

(** The environment decides what the [k]-th outbound request comes back with
    and what the [k]-th reading of the clock ([Date.now()], [new Date()]) is. *)
Record Env : Type := mkEnv {
  respond : nat -> Request -> HttpOutcome;
  clock : nat -> Z }.

(** Computations that read the environment, update the world and either
    return or throw. *)
Definition M (A : Type) : Type := Env -> World -> Result A * World.

#[export] Instance M_ret : MRet M := fun A a _ w => (Ok a, w).

#[export] Instance M_bind : MBind M := fun A B f m env w =>
  match m env w with
  | (Ok a, w') => f a env w'
  | (Throw e, w') => (Throw e, w')
  end.

Definition throw {A : Type} (e : Exn) : M A := fun _ w => (Throw e, w).

Definition lift {A : Type} (r : Result A) : M A := fun _ w => (r, w).

(** [try { body } catch (error) { handler }] *)
Definition try_catch {A : Type} (body : M A) (handler : Exn -> M A) : M A :=
  fun env w =>
    match body env w with
    | (Throw e, w') => handler e env w'
    | r => r
    end.

Definition tick (w : World) : World :=
  mkWorld (tokenManager w) (outbound w) (S (clockReads w)).

Definition issue (r : Request) (w : World) : World :=
  mkWorld (tokenManager w) (outbound w ++ [r]) (clockReads w).

(** [Date.now()] and the time of [new Date()], in milliseconds. *)
Definition date_now : M Z := fun env w => (Ok (clock env (clockReads w)), tick w).

(** A request together with the wait for its outcome.  The environment
    settles every request, with a response or with the failure to get one
    (a refused or reset connection, a time-out of the client or of the
    operating system).  Of the calls in the two files only the service's
    three assets-API calls set a time-out themselves; a peer that never
    answers the token request or one of the action's [fetch] calls leaves the
    caller pending, and such a run, which never returns, has no value in [M]:
    the theorems speak about the runs in which the requests are settled. *)
Definition http (r : Request) : M HttpOutcome :=
  fun env w => (Ok (respond env (List.length (outbound w)) r), issue r w).

(** What [await axios.post(...)] continues with: axios rejects when no
    response arrived and when the status is not 2xx. *)
Definition axios_settle (o : HttpOutcome) : M Response :=
  match o with
  | NoResponse msg => throw (RequestError msg None)
  | Responded r =>
      if is_2xx (status r) then mret r
      else throw (RequestError "Request failed" (Some r))
  end.

Definition axios (r : Request) : M Response := o ← http r; axios_settle o.

(** What [await fetch(...)] continues with: fetch rejects only when no
    response arrived, with an error that has no [response] property. *)
Definition fetch (r : Request) : M Response :=
  o ← http r;
  match o with
  | NoResponse msg => throw (Error msg)
  | Responded resp => mret resp
  end.

Definition set_accessToken (t : string) : M unit :=
  fun _ w => (Ok tt, mkWorld (mkTokenManager (Some t) (tokenExpiry (tokenManager w)))
                             (outbound w) (clockReads w)).

Definition set_tokenExpiry (e : Z) : M unit :=
  fun _ w => (Ok tt, mkWorld (mkTokenManager (accessToken (tokenManager w)) (Some e))
                             (outbound w) (clockReads w)).

(** What the synchronisation clients return.  An absent field is [None]. *)
Inductive ErrorInfo : Type :=
| ErrorDetails (assetId : MetaValue) (cause : Exn) (status : option Z)
| ErrorMessage (cause : Exn).

Record SyncResult : Type := mkSync {
  success : bool;
  mleAssetId : option MetaValue;
  sr_status : option string;
  sr_message : option string;
  responseData : option ResponseData;
  error : option ErrorInfo;
  retryable : option bool }.

(** An entry of [result.errors]. *)
Record ErrorEntry : Type := mkErrorEntry {
  system : string;
  ee_error : option ErrorInfo;
  ee_retryable : option bool }.

Inductive Status : Type :=
| Processing
| Completed
| Failed
| Errored.

(** The [result] object of [processAssetEvent] / [processSynchronization]. *)
Record SyncReport : Type := mkReport {
  mle : option SyncResult;
  rp_status : Status;
  errors : list ErrorEntry;
  rp_assetId : MetaValue }.

(** Both files contain the same [isRetryableError]. *)
Definition isRetryableError (error : Exn) : bool :=
  match response_of error with
  | None => true
  | Some r => (500 <=? status r) || (status r =? 429)
  end.

(** [result.mle = mleResult; result.status = ...; if (!mleResult.success)
    result.errors.push(...)], the same statements in both files. *)
Definition record_result (assetId : MetaValue) (mleResult : SyncResult) : SyncReport :=
  mkReport (Some mleResult)
           (if success mleResult then Completed else Failed)
           (if success mleResult then []
            else [mkErrorEntry "MLE" (error mleResult) (retryable mleResult)])
           assetId.

(** The [catch] branch of the same functions. *)
Definition record_exception (assetId : MetaValue) (e : Exn) : SyncReport :=
  mkReport None Errored [mkErrorEntry "MLE" (Some (ErrorMessage e)) (Some true)] assetId.

End Effects.

(* ===================================================================== *)
(** * The standalone service, [aem-mle-sync-service.js] *)
(* ===================================================================== *)

Module Service.
Import Js Metadata Effects.

(** [CONFIG], as far as the core reads it; an unset variable is [None]. *)
Record Config : Type := mkConfig {
  aemWebhookSecret : option string;
  mleApiUrl : string;
  mleApiVersion : string;
  aemAuthorUrl : option string;
  aemPublishUrl : option string }.

Definition verifyWebhookSignature (payload signature secret : string) : Result bool :=
  let expectedSignature :=
    Crypto.to_hex (Crypto.hmac_sha256 (Crypto.bytes_of_string secret)
                                      (Crypto.bytes_of_string payload)) in
  Crypto.timingSafeEqual (Crypto.buffer_from_hex signature)
                         (Crypto.buffer_from_hex expectedSignature).

(** ** TokenManager *)

(** [getAccessToken] runs up to its [await] when it is called, and the rest
    when the token request settles. *)
Inductive Started : Type :=
| Returned (token : string)
| Awaiting (k : nat).

Definition post_token (w : World) : Started * World :=
  (Awaiting (List.length (outbound w)), issue TokenRequest w).

Definition getAccessToken_start (env : Env) (w : World) : Started * World :=
  match accessToken (tokenManager w), tokenExpiry (tokenManager w) with
  | Some t, Some e =>
      if negb (String.eqb t "") && negb (e =? 0) then
        if clock env (clockReads w) <? e then (Returned t, tick w)
        else post_token (tick w)
      else post_token w
  | _, _ => post_token w
  end.

Definition getAccessToken_resume (o : HttpOutcome) : M string :=
  try_catch
    (response ← axios_settle o;
     set_accessToken (access_token (data response));;
     now ← date_now;
     set_tokenExpiry (now + expires_in (data response) * 1000 - 60000);;
     mret (access_token (data response)))
    (fun _ => throw (Error "Authentication failed")).

Definition getAccessToken : M string :=
  fun env w =>
    match getAccessToken_start env w with
    | (Returned t, w') => (Ok t, w')
    | (Awaiting k, w') => getAccessToken_resume (respond env k TokenRequest) env w'
    end.

Section WithConfig.
Variable CONFIG : Config.

(** ** MetadataTransformer *)

Definition constructAssetUrl (assetPath : option string) : string :=
  (interpolate (aemAuthorUrl CONFIG) ++ interpolate assetPath)%string.

Definition constructPublicUrl (assetPath : option string) : string :=
  (interpolate (aemPublishUrl CONFIG) ++ interpolate assetPath)%string.

(** The fields are evaluated in the order of the object literal; those that
    can throw or read the clock are bound in that order. *)
Definition transformForMLE (aemMetadata : Metadata) (assetPath eventType : option string)
  : M NormalizedMetadata :=
  let assetUrl := constructAssetUrl assetPath in
  mimeType ← lift (mimeType_of aemMetadata assetPath);
  assetId ← lift (assetId_of aemMetadata assetPath);
  mediaType ← lift (getMediaType (Some mimeType));
  fileName ← lift (extractFileNameFromPath assetPath);
  approvalStatus ← lift (getApprovalStatus aemMetadata);
  publishedDate ← date_now;
  mret {|
    assetId := assetId;
    assetPath := assetPath;
    assetUrl := assetUrl;
    publicUrl := Some (constructPublicUrl assetPath);
    mediaType := mediaType;
    mimeType := mimeType;
    fileSize := aemMetadata !! "dam:size";
    fileName := fileName;
    width := js_or (aemMetadata !! "tiff:ImageWidth") (aemMetadata !! "exif:PixelXDimension");
    height := js_or (aemMetadata !! "tiff:ImageLength") (aemMetadata !! "exif:PixelYDimension");
    title := js_or (aemMetadata !! "dc:title") (aemMetadata !! "jcr:title");
    description := aemMetadata !! "dc:description";
    altText := js_or (aemMetadata !! "dam:altText") (aemMetadata !! "dc:title");
    tags := extractTags aemMetadata;
    categories := extractCategories aemMetadata;
    keywords := extractKeywords aemMetadata;
    brand := aemMetadata !! "dam:brand";
    campaign := aemMetadata !! "dam:campaign";
    productType := aemMetadata !! "dam:productType";
    usage := js_or (aemMetadata !! "dam:usage") (Some (MStr "web"));
    approvalStatus := approvalStatus;
    publishStatus := "published";
    workflowStatus := aemMetadata !! "cq:workflowStatus";
    createdDate := js_or (aemMetadata !! "jcr:created") (aemMetadata !! "dam:created");
    modifiedDate := js_or (aemMetadata !! "jcr:lastModified") (aemMetadata !! "dam:lastModified");
    publishedDate := publishedDate;
    colorSpace := aemMetadata !! "tiff:ColorSpace";
    resolution := aemMetadata !! "tiff:XResolution";
    orientation := aemMetadata !! "tiff:Orientation";
    copyright := aemMetadata !! "dc:rights";
    license := aemMetadata !! "xmpRights:UsageTerms";
    creator := aemMetadata !! "dc:creator";
    eventType := eventType;
    sourceSystem := "AEM";
    apiVersion := Some (mleApiVersion CONFIG);
    customMetadata := Some (extractCustomMetadata aemMetadata)
  |}.

(** ** MLEClient *)

Definition sendAssetMetadata (transformedData : NormalizedMetadata) : M SyncResult :=
  try_catch
    (token ← getAccessToken;
     response ← axios (AssetsPost token transformedData);
     mret {| success := true;
             mleAssetId := MStr <$> js_or_str (r_id (data response)) (r_assetId (data response));
             sr_status := r_status (data response);
             sr_message := r_message (data response);
             responseData := Some (data response);
             error := None;
             retryable := None |})
    (fun error =>
       mret {| success := false;
               mleAssetId := None; sr_status := None; sr_message := None;
               responseData := None;
               error := Some (ErrorDetails (assetId transformedData) error
                                           (status <$> response_of error));
               retryable := Some (isRetryableError error) |}).

Definition updateAssetMetadata (assetId : MetaValue) (transformedData : NormalizedMetadata)
  : M SyncResult :=
  try_catch
    (token ← getAccessToken;
     response ← axios (AssetsPut assetId token transformedData);
     mret {| success := true;
             mleAssetId := match r_id (data response) with
                           | Some i => if String.eqb i "" then Some assetId else Some (MStr i)
                           | None => Some assetId
                           end;
             sr_status := r_status (data response);
             sr_message := r_message (data response);
             responseData := Some (data response);
             error := None;
             retryable := None |})
    (fun error =>
       mret {| success := false;
               mleAssetId := None; sr_status := None; sr_message := None;
               responseData := None;
               error := Some (ErrorDetails assetId error (status <$> response_of error));
               retryable := Some (isRetryableError error) |}).

Definition deleteAsset (assetId : MetaValue) : M SyncResult :=
  try_catch
    (token ← getAccessToken;
     response ← axios (AssetsDelete assetId token);
     mret {| success := true;
             mleAssetId := None; sr_status := None;
             sr_message := Some "Asset deleted successfully";
             responseData := None;
             error := None;
             retryable := None |})
    (fun error =>
       mret {| success := false;
               mleAssetId := None; sr_status := None; sr_message := None;
               responseData := None;
               error := Some (ErrorDetails assetId error (status <$> response_of error));
               retryable := None |}).

(** ** EventProcessor *)

(** The object handed to [processAssetEvent]: the parsed request body, of
    which the code reads these four properties. *)
Record EventData : Type := mkEvent {
  event_type : option string;
  ev_assetPath : option string;
  ev_metadata : option Metadata;
  ev_eventType : option string }.

Inductive EventResult : Type :=
| Skipped
| Report (result : SyncReport).

Definition approvalFields : list string :=
  [ "dam:status"; "dam:approvalStatus"; "cq:workflowStatus";
    "jcr:content/metadata/dam:status" ].

(** Reading a property of [undefined] throws. *)
Definition isAssetApproved (metadata : option Metadata) : Result bool :=
  match metadata with
  | None => Throw TypeError
  | Some m => first_approved m approvalFields
  end.

Definition processableEvents : list string :=
  [ "com.adobe.aem.assets.metadata.updated";
    "com.adobe.aem.workflow.completed";
    "com.adobe.aem.assets.created";
    "com.adobe.aem.assets.updated";
    "com.adobe.aem.assets.deleted";
    "com.adobe.aem.assets.removed" ].

Definition shouldProcessEvent (eventType : string) : bool :=
  List.existsb (fun event => includes (pop (split "." event)) eventType) processableEvents.

(** [eventType.includes(...)] on an event without [eventType] throws. *)
Definition the_string (s : option string) : Result string :=
  match s with
  | Some x => Ok x
  | None => Throw TypeError
  end.

Definition processAssetEvent (eventData : EventData) : M EventResult :=
  let assetPath := ev_assetPath eventData in
  let eventType := ev_eventType eventData in
  approved ← lift (isAssetApproved (ev_metadata eventData));
  if negb approved then mret Skipped
  else
    match ev_metadata eventData with
    | None => throw TypeError
    | Some metadata =>
        assetId ← lift (assetId_of metadata assetPath);
        result ← try_catch
          (mleData ← transformForMLE metadata assetPath eventType;
           et ← lift (the_string eventType);
           mleResult ←
             (if includes "created" et || includes "published" et
              then sendAssetMetadata mleData
              else if includes "updated" et || includes "modified" et
              then updateAssetMetadata (Metadata.assetId mleData) mleData
              else if includes "deleted" et || includes "removed" et
              then deleteAsset (Metadata.assetId mleData)
              else sendAssetMetadata mleData);
           mret (record_result assetId mleResult))
          (fun error => mret (record_exception assetId error));
        mret (Report result)
    end.

(** ** The webhook endpoint *)

(** A request: the signature header, the text [JSON.stringify(req.body)]
    and the parsed body. *)
Record WebhookRequest : Type := mkRequest {
  signatureHeader : option string;
  bodyJson : string;
  body : EventData }.

Inductive Reply : Type :=
| Reply401
| ReplyIgnored
| ReplyProcessed (timestamp : Z) (result : EventResult)
| Reply500 (timestamp : Z).

Definition non_empty (s : option string) : option string :=
  match s with
  | Some x => if String.eqb x "" then None else Some x
  | None => None
  end.

(** The signature gate: [true] when processing may go on. *)
Definition signature_gate (req : WebhookRequest) : Result bool :=
  match non_empty (aemWebhookSecret CONFIG) with
  | None => Ok true
  | Some secret =>
      match non_empty (signatureHeader req) with
      | None => Ok false
      | Some signature => verifyWebhookSignature (bodyJson req) signature secret
      end
  end.

Definition webhook (req : WebhookRequest) : M Reply :=
  try_catch
    (pass ← lift (signature_gate req);
     if negb pass then mret Reply401
     else
       let eventData := body req in
       match non_empty (event_type eventData) with
       | None => mret ReplyIgnored
       | Some et =>
           if negb (shouldProcessEvent et) then mret ReplyIgnored
           else
             result ← processAssetEvent eventData;
             timestamp ← date_now;
             mret (ReplyProcessed timestamp result)
       end)
    (fun _ => timestamp ← date_now; mret (Reply500 timestamp)).

End WithConfig.

End Service.

(* ===================================================================== *)
(** * The action's logger *)
(* ===================================================================== *)

Module Logging.

(** The value of [currentLevel]: a number, or a member that the lookup
    [levels[level]] inherits from [Object.prototype] (a function or an
    object; compared with a number it converts to NaN). *)
Inductive Level : Type :=
| LevelNum (n : Z)
| LevelInherited (name : string).

Definition levels : list (string * Z) :=
  [ ("debug", 0); ("info", 1); ("warn", 2); ("error", 3) ].

(** The property names of [Object.prototype]. *)
Definition object_prototype_names : list string :=
  [ "constructor"; "__defineGetter__"; "__defineSetter__"; "hasOwnProperty";
    "__lookupGetter__"; "__lookupSetter__"; "isPrototypeOf"; "propertyIsEnumerable";
    "toString"; "valueOf"; "__proto__"; "toLocaleString" ].

Fixpoint own_level (table : list (string * Z)) (key : string) : option Z :=
  match table with
  | [] => None
  | (k, v) :: rest => if String.eqb k key then Some v else own_level rest key
  end.

(** [levels[level]]; [None] is [undefined]. *)
Definition levels_get (level : string) : option Level :=
  match own_level levels level with
  | Some n => Some (LevelNum n)
  | None => if bool_decide (level ∈ object_prototype_names)
            then Some (LevelInherited level) else None
  end.

(** [levels[level] || 1] *)
Definition currentLevel_of (level : string) : Level :=
  match levels_get level with
  | Some (LevelNum n) => if n =? 0 then LevelNum 1 else LevelNum n
  | Some (LevelInherited name) => LevelInherited name
  | None => LevelNum 1
  end.

(** [currentLevel <= n] *)
Definition level_le (l : Level) (n : Z) : bool :=
  match l with
  | LevelNum z => z <=? n
  | LevelInherited _ => false
  end.

(** For each method of the logger, whether a call writes to the console. *)
Record Logger : Type := mkLogger {
  writes_debug : bool;
  writes_info : bool;
  writes_warn : bool;
  writes_error : bool }.

Definition createLogger (level : string) : Logger :=
  let currentLevel := currentLevel_of level in
  mkLogger (level_le currentLevel 0) (level_le currentLevel 1)
           (level_le currentLevel 2) (level_le currentLevel 3).

End Logging.

(* ===================================================================== *)
(** * The serverless action, [adobe-io-runtime-action.js] *)
(* ===================================================================== *)

Module Action.
Import Js Metadata Effects.

Record Payload : Type := mkPayload {
  path : option string;
  pl_assetPath : option string;
  pl_metadata : option Metadata;
  properties : option Metadata }.

Record EventEnvelope : Type := mkEnvelope {
  env_timestamp : option string;
  payload : option Payload }.

(** The invocation parameters that the action reads. *)
Record Params : Type := mkParams {
  MLE_API_URL : option string;
  MLE_API_VERSION : option string;
  OAUTH_CLIENT_ID : option string;
  OAUTH_CLIENT_SECRET : option string;
  OAUTH_TOKEN_URL : option string;
  p_type : option string;
  p_data : option EventEnvelope;
  LOG_LEVEL : option string }.

(** What [main] is called with.  The platform passes the parameter object;
    a direct call can also pass nothing ([undefined]) or [null]. *)
Inductive Argument : Type :=
| Undefined
| Null
| Object (params : Params).

Definition non_empty (s : option string) : option string :=
  match s with
  | Some x => if String.eqb x "" then None else Some x
  | None => None
  end.

Definition is_set (s : option string) : bool :=
  match s with
  | Some x => negb (String.eqb x "")
  | None => false
  end.

(** [None] when the parameters are valid, else the error message. *)
Definition validateParams (params : Params) : option string :=
  if negb (is_set (MLE_API_URL params)) then Some "Missing required parameter: MLE_API_URL"
  else if negb (is_set (OAUTH_CLIENT_ID params))
  then Some "Missing required parameter: OAUTH_CLIENT_ID"
  else if negb (is_set (OAUTH_CLIENT_SECRET params))
  then Some "Missing required parameter: OAUTH_CLIENT_SECRET"
  else if negb (is_set (OAUTH_TOKEN_URL params))
  then Some "Missing required parameter: OAUTH_TOKEN_URL"
  else match p_data params with
       | None => Some "Missing event payload data"
       | Some d => match payload d with
                   | None => Some "Missing event payload data"
                   | Some _ => None
                   end
       end.

Inductive Timestamp : Type :=
| Given (s : string)
| Clock (t : Z).

Record EventData : Type := mkEvent {
  ev_assetPath : option string;
  ev_metadata : Metadata;
  ev_eventType : option string;
  ev_timestamp : Timestamp }.

(** [payload.metadata || payload.properties || {}]: an object is truthy. *)
Definition metadata_of (p : Payload) : Metadata :=
  match pl_metadata p with
  | Some m => m
  | None => match properties p with
            | Some m => m
            | None => ∅
            end
  end.

Definition extractEventData (params : Params) : M EventData :=
  match p_data params with
  | None => throw TypeError
  | Some d =>
      match payload d with
      | None => throw TypeError
      | Some p =>
          timestamp ← match non_empty (env_timestamp d) with
                      | Some s => mret (Given s)
                      | None => t ← date_now; mret (Clock t)
                      end;
          mret {| ev_assetPath := js_or_str (path p) (pl_assetPath p);
                  ev_metadata := metadata_of p;
                  ev_eventType := p_type params;
                  ev_timestamp := timestamp |}
      end
  end.

Definition approvalFields : list string :=
  [ "dam:status"; "dam:approvalStatus"; "cq:workflowStatus";
    "jcr:content/metadata/dam:status" ].

(** [array.some(callback)] for a callback that may throw. *)
Fixpoint array_some {A : Type} (callback : A -> Result bool) (l : list A) : Result bool :=
  match l with
  | [] => Ok false
  | x :: rest =>
      match callback x with
      | Ok true => Ok true
      | Ok false => array_some callback rest
      | Throw e => Throw e
      end
  end.

Definition isAssetApproved (metadata : Metadata) : Result bool :=
  array_some (fun field => approval_test (metadata !! field)) approvalFields.

Definition getAccessToken (params : Params) : M string :=
  try_catch
    (response ← fetch TokenRequest;
     if negb (is_2xx (status response)) then throw (Error "OAuth request failed")
     else mret (access_token (data response)))
    (fun _ => throw (Error "Failed to obtain access token")).

Definition constructAssetUrl (assetPath : option string) : string :=
  ("https://your-aem-instance.com" ++ interpolate assetPath)%string.

Definition transformForMLE (metadata : Metadata) (assetPath eventType : option string)
  : M NormalizedMetadata :=
  mimeType ← lift (mimeType_of metadata assetPath);
  assetId ← lift (assetId_of metadata assetPath);
  mediaType ← lift (getMediaType (Some mimeType));
  fileName ← lift (extractFileNameFromPath assetPath);
  approvalStatus ← lift (getApprovalStatus metadata);
  publishedDate ← date_now;
  mret {|
    assetId := assetId;
    assetPath := assetPath;
    assetUrl := constructAssetUrl assetPath;
    publicUrl := None;
    mediaType := mediaType;
    mimeType := mimeType;
    fileSize := metadata !! "dam:size";
    fileName := fileName;
    width := js_or (metadata !! "tiff:ImageWidth") (metadata !! "exif:PixelXDimension");
    height := js_or (metadata !! "tiff:ImageLength") (metadata !! "exif:PixelYDimension");
    title := js_or (metadata !! "dc:title") (metadata !! "jcr:title");
    description := metadata !! "dc:description";
    altText := js_or (metadata !! "dam:altText") (metadata !! "dc:title");
    tags := extractTags metadata;
    categories := extractCategories metadata;
    keywords := extractKeywords metadata;
    brand := metadata !! "dam:brand";
    campaign := metadata !! "dam:campaign";
    productType := metadata !! "dam:productType";
    usage := js_or (metadata !! "dam:usage") (Some (MStr "web"));
    approvalStatus := approvalStatus;
    publishStatus := "published";
    workflowStatus := metadata !! "cq:workflowStatus";
    createdDate := js_or (metadata !! "jcr:created") (metadata !! "dam:created");
    modifiedDate := js_or (metadata !! "jcr:lastModified") (metadata !! "dam:lastModified");
    publishedDate := publishedDate;
    colorSpace := metadata !! "tiff:ColorSpace";
    resolution := metadata !! "tiff:XResolution";
    orientation := metadata !! "tiff:Orientation";
    copyright := metadata !! "dc:rights";
    license := metadata !! "xmpRights:UsageTerms";
    creator := metadata !! "dc:creator";
    eventType := eventType;
    sourceSystem := "AEM";
    apiVersion := None;
    customMetadata := None
  |}.

(** [if (!response.ok) throw new Error(...)] *)
Definition require_ok (response : Response) (message : string) : M unit :=
  if negb (is_2xx (status response)) then throw (Error message) else mret tt.

Definition sendToMLE (data : NormalizedMetadata) (params : Params) : M SyncResult :=
  try_catch
    (token ← getAccessToken params;
     response ← fetch (AssetsPost token data);
     require_ok response "MLE API request failed";;
     let result := Js.data response in
     mret {| success := true;
             mleAssetId := MStr <$> js_or_str (r_id result) (r_assetId result);
             sr_status := r_status result;
             sr_message := r_message result;
             responseData := Some result;
             error := None;
             retryable := None |})
    (fun error =>
       mret {| success := false;
               mleAssetId := None; sr_status := None; sr_message := None;
               responseData := None;
               error := Some (ErrorMessage error);
               retryable := Some (isRetryableError error) |}).

Definition updateMLE (assetId : MetaValue) (data : NormalizedMetadata) (params : Params)
  : M SyncResult :=
  try_catch
    (token ← getAccessToken params;
     response ← fetch (AssetsPut assetId token data);
     require_ok response "MLE API update failed";;
     let result := Js.data response in
     mret {| success := true;
             mleAssetId := match r_id result with
                           | Some i => if String.eqb i "" then Some assetId else Some (MStr i)
                           | None => Some assetId
                           end;
             sr_status := r_status result;
             sr_message := r_message result;
             responseData := Some result;
             error := None;
             retryable := None |})
    (fun error =>
       mret {| success := false;
               mleAssetId := None; sr_status := None; sr_message := None;
               responseData := None;
               error := Some (ErrorMessage error);
               retryable := Some (isRetryableError error) |}).

Definition deleteFromMLE (assetId : MetaValue) (params : Params) : M SyncResult :=
  try_catch
    (token ← getAccessToken params;
     response ← fetch (AssetsDelete assetId token);
     require_ok response "MLE API delete failed";;
     mret {| success := true;
             mleAssetId := None; sr_status := None;
             sr_message := Some "Asset deleted successfully";
             responseData := None;
             error := None;
             retryable := None |})
    (fun error =>
       mret {| success := false;
               mleAssetId := None; sr_status := None; sr_message := None;
               responseData := None;
               error := Some (ErrorMessage error);
               retryable := None |}).

Definition the_string (s : option string) : Result string :=
  match s with
  | Some x => Ok x
  | None => Throw TypeError
  end.

Definition processSynchronization (eventData : EventData) (params : Params) : M SyncReport :=
  assetId ← lift (assetId_of (ev_metadata eventData) (ev_assetPath eventData));
  try_catch
    (mleData ← transformForMLE (ev_metadata eventData) (ev_assetPath eventData)
                               (ev_eventType eventData);
     et ← lift (the_string (ev_eventType eventData));
     mleResult ←
       (if includes "created" et || includes "published" et
        then sendToMLE mleData params
        else if includes "updated" et || includes "modified" et
        then updateMLE (Metadata.assetId mleData) mleData params
        else if includes "deleted" et || includes "removed" et
        then deleteFromMLE (Metadata.assetId mleData) params
        else sendToMLE mleData params);
     mret (record_result assetId mleResult))
    (fun error => mret (record_exception assetId error)).

Inductive ErrorCause : Type :=
| Invalid (message : string)
| Exception (e : Exn).

Inductive ActionResponse : Type :=
| SuccessResponse (status message : string) (timestamp : Z) (data : option SyncReport)
| ErrorResponse (statusCode : Z) (error : ErrorCause) (timestamp : Z).

Definition createSuccessResponse (status message : string) (data : option SyncReport)
  : M ActionResponse :=
  timestamp ← date_now; mret (SuccessResponse status message timestamp data).

Definition createErrorResponse (statusCode : Z) (error : ErrorCause) : M ActionResponse :=
  timestamp ← date_now; mret (ErrorResponse statusCode error timestamp).

(** [createLogger(params.LOG_LEVEL || 'info')] stands before the [try]:
    reading [LOG_LEVEL] of [undefined] or [null] throws a TypeError that
    nothing in [main] catches.  The logger writes to the console only, which
    is not part of [World]. *)
Definition main (params : Argument) : M ActionResponse :=
  match params with
  | Undefined | Null => throw TypeError
  | Object params =>
      let logger := Logging.createLogger (default "info" (non_empty (LOG_LEVEL params))) in
      try_catch
        (match validateParams params with
         | Some message => createErrorResponse 400 (Invalid message)
         | None =>
             eventData ← extractEventData params;
             approved ← lift (isAssetApproved (ev_metadata eventData));
             if negb approved
             then createSuccessResponse "skipped" "Asset not approved for publication" None
             else
               syncResults ← processSynchronization eventData params;
               createSuccessResponse "completed" "Metadata synchronized successfully"
                                     (Some syncResults)
         end)
        (fun error => createErrorResponse 500 (Exception error))
  end.

End Action.

(* ===================================================================== *)
(** * Several calls of the service's [getAccessToken] on one event loop *)
(* ===================================================================== *)

Module Concurrent.
Import Js Metadata Effects.

(** A call either still awaits its token request or has settled. *)
Inductive Task : Type :=
| Pending (k : nat)
| Settled (r : Result string).

Record Loop : Type := mkLoop {
  world : World;
  tasks : list Task }.

(** The event loop runs one piece of code at a time: a new call up to its
    [await], or the continuation of the [i]-th call once the request it
    awaits has settled. *)
Inductive Event : Type :=
| Call
| Settle (i : nat).

Definition step (env : Env) (l : Loop) (ev : Event) : Loop :=
  match ev with
  | Call =>
      match Service.getAccessToken_start env (world l) with
      | (Service.Returned t, w') => mkLoop w' (tasks l ++ [Settled (Ok t)])
      | (Service.Awaiting k, w') => mkLoop w' (tasks l ++ [Pending k])
      end
  | Settle i =>
      match tasks l !! i with
      | Some (Pending k) =>
          match Service.getAccessToken_resume (respond env k TokenRequest) env (world l) with
          | (r, w') => mkLoop w' (<[i := Settled r]> (tasks l))
          end
      | _ => l
      end
  end.

Definition run (env : Env) (l : Loop) (evs : list Event) : Loop :=
  List.fold_left (step env) evs l.

Definition is_token_request (r : Request) : bool :=
  match r with
  | TokenRequest => true
  | _ => false
  end.

(** The number of OAuth requests issued so far. *)
Definition token_requests (w : World) : nat :=
  List.length (List.filter is_token_request (outbound w)).

Definition is_pending (t : Task) : bool :=
  match t with
  | Pending _ => true
  | Settled _ => false
  end.

(** The number of token requests in flight. *)
Definition in_flight (l : Loop) : nat :=
  List.length (List.filter is_pending (tasks l)).

(** The cached token can be returned at time [now]: the condition of the
    first [if] of [getAccessToken]. *)
Definition fresh (tm : TokenManager) (now : Z) : Prop :=
  exists t e, accessToken tm = Some t /\ t <> "" /\
              tokenExpiry tm = Some e /\ e <> 0 /\ now < e.

End Concurrent.

(* ===================================================================== *)
(** * Statements taken from the specification *)
(* ===================================================================== *)

Module Spec.
Import Js Metadata Effects.

(** The three operations of the synchronisation client. *)
Inductive Operation : Type :=
| Create
| Update
| Remove.

(** Dispatch selection as the specification words it: "created" or
    "published" selects create; otherwise "updated" or "modified" selects
    update; otherwise "deleted" or "removed" selects remove; anything else
    defaults to create. *)
Definition spec_operation (eventType : string) : Operation :=
  if includes "created" eventType || includes "published" eventType then Create
  else if includes "updated" eventType || includes "modified" eventType then Update
  else if includes "deleted" eventType || includes "removed" eventType then Remove
  else Create.

(** The operation that an assets-API request performs, by its HTTP verb. *)
Definition api_operation (r : Request) : option Operation :=
  match r with
  | TokenRequest => None
  | AssetsPost _ _ => Some Create
  | AssetsPut _ _ _ => Some Update
  | AssetsDelete _ _ => Some Remove
  end.

Definition service_perform (op : Operation) (d : NormalizedMetadata) : M SyncResult :=
  match op with
  | Create => Service.sendAssetMetadata d
  | Update => Service.updateAssetMetadata (assetId d) d
  | Remove => Service.deleteAsset (assetId d)
  end.

Definition action_perform (params : Action.Params) (op : Operation) (d : NormalizedMetadata)
  : M SyncResult :=
  match op with
  | Create => Action.sendToMLE d params
  | Update => Action.updateMLE (assetId d) d params
  | Remove => Action.deleteFromMLE (assetId d) params
  end.

(** Retry classification as the specification words it: retryable when
    there is no response at all, or the status is at least 500 or exactly 429. *)
Definition spec_retryable (response : option Response) : bool :=
  match response with
  | None => true
  | Some r => (500 <=? status r) || (status r =? 429)
  end.

(** "Exactly one outbound OAuth request when called [n] times concurrently". *)
Definition single_flight (env : Env) (w : World) (n : nat) : Prop :=
  Concurrent.token_requests
    (Concurrent.world (Concurrent.run env (Concurrent.mkLoop w [])
                                      (List.repeat Concurrent.Call n)))
  = (Concurrent.token_requests w + 1)%nat.

Definition is_string (v : MetaValue) : bool :=
  match v with
  | MScalar (SStr _) => true
  | _ => false
  end.

(** "Every metadata map in which one of the approval status fields holds a
    truthy non-string value makes the approval check throw". *)
Definition throws_on_any_non_string_status : Prop :=
  forall (m : Metadata) (field : string) (v : MetaValue),
    field ∈ Service.approvalFields ->
    m !! field = Some v -> truthy v = true -> is_string v = false ->
    exists e, Service.isAssetApproved (Some m) = Throw e.

(** A status field that does not speak for approval: absent, falsy, or a
    string that is neither "approved" nor "published" in any letter case. *)
Definition not_approving (value : option MetaValue) : Prop :=
  match value with
  | None => True
  | Some v =>
      truthy v = false \/
      exists s, v = MStr s /\ toLowerCase s <> "approved" /\ toLowerCase s <> "published"
  end.

(** A byte of a buffer. *)
Definition is_byte (b : Z) : Prop := 0 <= b < 256.

(** The token request fails: no response, or a status that is not 2xx. *)
Definition request_fails (o : HttpOutcome) : Prop :=
  match o with
  | NoResponse _ => True
  | Responded r => is_2xx (status r) = false
  end.

(** Between [w] and [w'] only requests that satisfy [P] were issued. *)
Definition sends (P : Request -> Prop) (w w' : World) : Prop :=
  exists extra, outbound w' = outbound w ++ extra /\ Forall P extra.

(** A computation that only issues requests satisfying [P]. *)
Definition only_sends {A : Type} (P : Request -> Prop) (m : M A) : Prop :=
  forall env w, sends P w (snd (m env w)).

(** The requests that dispatching [op] may issue: the token request and the
    assets-API request of that operation. *)
Definition serves (op : Operation) (r : Request) : Prop :=
  api_operation r = None \/ api_operation r = Some op.

End Spec.

(* ===================================================================== *)
(** * Sample inputs *)
(* ===================================================================== *)

Module Samples.
Import Js Metadata Effects.

Definition token_data : ResponseData := mkData "tok" 3600 None None None None.
Definition asset_data : ResponseData := mkData "" 0 (Some "m1") None (Some "ok") None.

(** Every request is answered 200. *)
Definition env_ok : Env :=
  mkEnv (fun _ r => match r with
                    | TokenRequest => Responded (mkResponse 200 token_data)
                    | _ => Responded (mkResponse 200 asset_data)
                    end)
        (fun k => 1000000 + Z.of_nat k).

(** The token endpoint answers 200, the assets API [code]. *)
Definition env_api (code : Z) : Env :=
  mkEnv (fun _ r => match r with
                    | TokenRequest => Responded (mkResponse 200 token_data)
                    | _ => Responded (mkResponse code asset_data)
                    end)
        (fun k => 1000000 + Z.of_nat k).

(** Nothing answers. *)
Definition env_down : Env :=
  mkEnv (fun _ _ => NoResponse "connect ECONNREFUSED") (fun k => 1000000 + Z.of_nat k).

(** The token endpoint answers 401. *)
Definition env_unauthorized : Env :=
  mkEnv (fun _ _ => Responded (mkResponse 401 token_data)) (fun k => 1000000 + Z.of_nat k).

Definition world_empty : World := mkWorld (mkTokenManager None None) [] 0.

(** A token cached until time 2000000. *)
Definition world_cached : World := mkWorld (mkTokenManager (Some "old") (Some 2000000)) [] 0.

(** A token that expired at time 500. *)
Definition world_expired : World := mkWorld (mkTokenManager (Some "old") (Some 500)) [] 0.

Definition config_open : Service.Config :=
  Service.mkConfig None "https://mle/api" "v1" (Some "https://author") (Some "https://publish").

Definition config_signed : Service.Config :=
  Service.mkConfig (Some "s3cret") "https://mle/api" "v1" (Some "https://author")
                   (Some "https://publish").

Definition metadata_approved : Metadata :=
  <["dam:status" := MStr "approved"]>
    (<["dc:title" := MStr "T"]> (<["jcr:uuid" := MStr "u1"]> ∅)).

Definition metadata_draft : Metadata :=
  <["dam:status" := MStr "draft"]>
    (<["dc:title" := MStr "T"]> (<["jcr:uuid" := MStr "u1"]> ∅)).

(** The status is a number, which the inbound metadata type permits. *)
Definition metadata_numeric_status : Metadata :=
  <["dam:status" := MNum 42]> (<["jcr:uuid" := MStr "u1"]> ∅).

(** A draft whose second status field is an array. *)
Definition metadata_array_status : Metadata :=
  <["dam:status" := MStr "draft"]> (<["dam:approvalStatus" := MArr [SStr "approved"]]> ∅).

(** Approved by the first field; the second one holds a number. *)
Definition metadata_approved_then_number : Metadata :=
  <["dam:status" := MStr "approved"]> (<["dam:approvalStatus" := MNum 5]> ∅).

Definition event_of (event_type : string) (m : Metadata) : Service.EventData :=
  Service.mkEvent (Some event_type) (Some "/content/dam/p.jpg") (Some m) (Some event_type).

Definition request_of (event_type : string) (m : Metadata) : Service.WebhookRequest :=
  Service.mkRequest None "{}" (event_of event_type m).

Definition params_of (event_type : string) (m : Metadata) : Action.Params :=
  Action.mkParams (Some "https://mle/api") None (Some "id") (Some "secret")
                  (Some "https://ims/token") (Some event_type)
                  (Some (Action.mkEnvelope (Some "2024-01-01T00:00:00Z")
                           (Some (Action.mkPayload (Some "/content/dam/p.jpg") None
                                                   (Some m) None))))
                  None.

Definition action_event_of (event_type : string) (m : Metadata) : Action.EventData :=
  Action.mkEvent (Some "/content/dam/p.jpg") m (Some event_type) (Action.Given "2024-01-01").

(** Three calls made before any token response arrives. *)
Definition three_calls : Concurrent.Loop :=
  Concurrent.run env_ok (Concurrent.mkLoop world_empty []) (List.repeat Concurrent.Call 3).

End Samples.

(* ===================================================================== *)
(** * Notions used by the further properties *)
(* ===================================================================== *)

Module Props.
Import Js Metadata Effects.

(** The character [c] does not occur in [s]. *)
Fixpoint lacks (c : ascii) (s : string) : bool :=
  match s with
  | EmptyString => true
  | String x s' => negb (Ascii.eqb x c) && lacks c s'
  end.

(** The words that [shouldProcessEvent] looks for: the last segments of the
    listed event names. *)
Definition filter_words : list string :=
  [ "updated"; "completed"; "created"; "deleted"; "removed" ].

(** The clock never runs backwards. *)
Definition monotone (env : Env) : Prop :=
  forall i j : nat, (i <= j)%nat -> clock env i <= clock env j.

(** The number of calls in a schedule. *)
Definition calls (evs : list Concurrent.Event) : nat :=
  List.length (List.filter (fun ev => match ev with
                                      | Concurrent.Call => true
                                      | Concurrent.Settle _ => false
                                      end) evs).

(** The metadata fields that the transformer reads but that are not in its
    list of standard fields. *)
Definition read_but_custom : list string :=
  [ "dam:tags"; "dam:category"; "dam:approvalStatus"; "dam:created"; "dam:lastModified" ].

(** The values that a truthy field contributes to a merged list. *)
Definition field_values (m : Metadata) (key : string) : list Scalar :=
  match m !! key with
  | Some v => if truthy v then as_array v else []
  | None => []
  end.

(** The action's output for the service's: the same record without the
    fields that only the service fills, and with the action's fixed URL. *)
Definition as_action_output (d : NormalizedMetadata) : NormalizedMetadata :=
  {| assetId := assetId d; assetPath := assetPath d;
     assetUrl := Action.constructAssetUrl (assetPath d);
     publicUrl := None;
     mediaType := mediaType d; mimeType := mimeType d; fileSize := fileSize d;
     fileName := fileName d; width := width d; height := height d;
     title := title d; description := description d; altText := altText d;
     tags := tags d; categories := categories d; keywords := keywords d;
     brand := brand d; campaign := campaign d; productType := productType d;
     usage := usage d; approvalStatus := approvalStatus d;
     publishStatus := publishStatus d; workflowStatus := workflowStatus d;
     createdDate := createdDate d; modifiedDate := modifiedDate d;
     publishedDate := publishedDate d; colorSpace := colorSpace d;
     resolution := resolution d; orientation := orientation d;
     copyright := copyright d; license := license d; creator := creator d;
     eventType := eventType d; sourceSystem := sourceSystem d;
     apiVersion := None; customMetadata := None |}.

(** The three shapes of a synchronisation report. *)
Definition report_shape (rp : SyncReport) : Prop :=
  (rp_status rp = Completed /\ errors rp = []
   /\ exists r, mle rp = Some r /\ success r = true)
  \/ (rp_status rp = Failed
      /\ exists r, mle rp = Some r /\ success r = false
                   /\ errors rp = [mkErrorEntry "MLE" (error r) (retryable r)])
  \/ (rp_status rp = Errored /\ mle rp = None
      /\ exists e, errors rp = [mkErrorEntry "MLE" (Some (ErrorMessage e)) (Some true)]).


(** A transformer output to send. *)
Definition sample_output : NormalizedMetadata :=
  {| assetId := MStr "u1"; assetPath := Some "/content/dam/p.jpg";
     assetUrl := "https://author/content/dam/p.jpg";
     publicUrl := Some "https://publish/content/dam/p.jpg";
     mediaType := "image"; mimeType := MimeVal (MStr "image/jpeg"); fileSize := None;
     fileName := "p.jpg"; width := None; height := None;
     title := Some (MStr "T"); description := None; altText := Some (MStr "T");
     tags := []; categories := []; keywords := [];
     brand := None; campaign := None; productType := None;
     usage := Some (MStr "web"); approvalStatus := "approved";
     publishStatus := "published"; workflowStatus := None;
     createdDate := None; modifiedDate := None;
     publishedDate := 1000000; colorSpace := None;
     resolution := None; orientation := None;
     copyright := None; license := None; creator := None;
     eventType := Some "com.adobe.aem.assets.updated"; sourceSystem := "AEM";
     apiVersion := Some "v1"; customMetadata := Some ∅ |}.

End Props.

(* ===================================================================== *)
(** * Running computations *)
(* ===================================================================== *)

Import Js Metadata Effects Spec.

Lemma run_bind {A B : Type} (m : M A) (f : A -> M B) (env : Env) (w : World) :
  (m ≫= f) env w =
  match m env w with
  | (Ok a, w') => f a env w'
  | (Throw e, w') => (Throw e, w')
  end.
Proof. reflexivity. Qed.

Lemma run_ret {A : Type} (a : A) (env : Env) (w : World) :
  (mret a : M A) env w = (Ok a, w).
Proof. reflexivity. Qed.

Lemma run_try_catch {A : Type} (body : M A) (handler : Exn -> M A) (env : Env) (w : World) :
  try_catch body handler env w =
  match body env w with
  | (Throw e, w') => handler e env w'
  | (Ok a, w') => (Ok a, w')
  end.
Proof. unfold try_catch. destruct (body env w) as [[a | e] w']; reflexivity. Qed.

Lemma run_lift {A : Type} (r : Result A) (env : Env) (w : World) :
  lift r env w = (r, w).
Proof. reflexivity. Qed.

Ltac run := rewrite ?run_try_catch, ?run_bind, ?run_lift, ?run_ret.

(* ===================================================================== *)
(** * Signature verification *)
(* ===================================================================== *)

Lemma hexval_hexdigit (d : Z) : 0 <= d < 16 -> Crypto.hexval (Crypto.hexdigit d) = Some d.
Proof.
  intros Hd.
  assert (Hcases : d = 0 \/ d = 1 \/ d = 2 \/ d = 3 \/ d = 4 \/ d = 5 \/ d = 6 \/ d = 7 \/
                   d = 8 \/ d = 9 \/ d = 10 \/ d = 11 \/ d = 12 \/ d = 13 \/ d = 14 \/ d = 15)
    by lia.
  repeat (destruct Hcases as [-> | Hcases]; [reflexivity |]).
  subst d. reflexivity.
Qed.

(** Decoding the hexadecimal text of a buffer gives the buffer back. *)
Lemma buffer_from_hex_to_hex (bs : list Z) :
  Forall is_byte bs -> Crypto.buffer_from_hex (Crypto.to_hex bs) = bs.
Proof.
  induction 1 as [| b bs Hb _ IH]; [reflexivity |].
  unfold is_byte in Hb. cbn [Crypto.to_hex Crypto.buffer_from_hex].
  rewrite !hexval_hexdigit.
  - rewrite IH. f_equal. rewrite (Z.div_mod b 16) at 3 by lia. lia.
  - apply Z.mod_pos_bound. lia.
  - split; [apply Z.div_pos; lia | apply Z.div_lt_upper_bound; lia].
Qed.

Lemma bytes_of_word_bytes (x : Z) : Forall is_byte (Crypto.bytes_of_word x).
Proof.
  unfold Crypto.bytes_of_word, is_byte.
  repeat constructor; apply Z.mod_pos_bound; lia.
Qed.

Lemma digest_bytes_bytes (h : Crypto.HashState) : Forall is_byte (Crypto.digest_bytes h).
Proof.
  unfold Crypto.digest_bytes. rewrite !Forall_app. repeat split; apply bytes_of_word_bytes.
Qed.

Lemma digest_bytes_length (h : Crypto.HashState) :
  List.length (Crypto.digest_bytes h) = 32%nat.
Proof. reflexivity. Qed.

Lemma hmac_sha256_length (key msg : list Z) :
  List.length (Crypto.hmac_sha256 key msg) = 32%nat.
Proof. unfold Crypto.hmac_sha256, Crypto.sha256. apply digest_bytes_length. Qed.

Lemma hmac_sha256_bytes (key msg : list Z) : Forall is_byte (Crypto.hmac_sha256 key msg).
Proof. unfold Crypto.hmac_sha256, Crypto.sha256. apply digest_bytes_bytes. Qed.

(** SHA-256 and HMAC as written above give the published test vectors
    (FIPS 180-4, one and two blocks; RFC 4231, test cases 2 and 6). *)
Example sha256_abc :
  Crypto.to_hex (Crypto.sha256 (Crypto.bytes_of_string "abc"))
  = "ba7816bf8f01cfea414140de5dae2223b00361a396177a9cb410ff61f20015ad".
Proof. vm_compute. reflexivity. Qed.

Example sha256_two_blocks :
  Crypto.to_hex (Crypto.sha256 (Crypto.bytes_of_string
                   "abcdbcdecdefdefgefghfghighijhijkijkljklmklmnlmnomnopnopq"))
  = "248d6a61d20638b8e5c026930c3e6039a33ce45964ff2167f6ecedd419db06c1".
Proof. vm_compute. reflexivity. Qed.

Example hmac_sha256_rfc4231_case6 :
  Crypto.to_hex (Crypto.hmac_sha256 (List.repeat 170 131)
                   (Crypto.bytes_of_string
                      "Test Using Larger Than Block-Size Key - Hash Key First"))
  = "60e431591ee0b67f0d8a26aacbf5b77f8e0bc6213728c5140546040f0ee37f54".
Proof. vm_compute. reflexivity. Qed.

Example hmac_sha256_rfc4231_case2 :
  Crypto.to_hex (Crypto.hmac_sha256 (Crypto.bytes_of_string "Jefe")
                   (Crypto.bytes_of_string "what do ya want for nothing?"))
  = "5bdcc146bf60754e6a042426089575c75a003f089d2739839dec58b964ec3843".
Proof. vm_compute. reflexivity. Qed.

(** What [verifyWebhookSignature] does on every input: it throws unless the
    header decodes to exactly 32 bytes, and else compares the bytes. *)
Lemma verifyWebhookSignature_cases (payload signature secret : string) :
  Service.verifyWebhookSignature payload signature secret =
  if Nat.eqb (List.length (Crypto.buffer_from_hex signature)) 32
  then Ok (bool_decide (Crypto.buffer_from_hex signature =
                        Crypto.hmac_sha256 (Crypto.bytes_of_string secret)
                                           (Crypto.bytes_of_string payload)))
  else Throw RangeError.
Proof.
  unfold Service.verifyWebhookSignature, Crypto.timingSafeEqual.
  rewrite buffer_from_hex_to_hex by apply hmac_sha256_bytes.
  rewrite hmac_sha256_length. reflexivity.
Qed.

(** Valid signatures are accepted: the hexadecimal HMAC of the payload
    under the secret verifies. *)
Lemma verifyWebhookSignature_valid (payload secret : string) :
  Service.verifyWebhookSignature payload
    (Crypto.to_hex (Crypto.hmac_sha256 (Crypto.bytes_of_string secret)
                                       (Crypto.bytes_of_string payload))) secret
  = Ok true.
Proof.
  rewrite verifyWebhookSignature_cases.
  rewrite buffer_from_hex_to_hex by apply hmac_sha256_bytes.
  rewrite hmac_sha256_length. cbn. rewrite bool_decide_eq_true_2; reflexivity.
Qed.

(** A header that differs from the valid one in one bit (the first [b],
    0x62, became [B], 0x42) is still accepted: hexadecimal digits are read
    without regard to case. *)
Example verifyWebhookSignature_case_flip :
  Service.verifyWebhookSignature "what do ya want for nothing?"
    "5Bdcc146bf60754e6a042426089575c75a003f089d2739839dec58b964ec3843" "Jefe"
  = Ok true.
Proof. vm_compute. reflexivity. Qed.

(** C4: a signature header that does not decode to 32 bytes (wrong length,
    or a character that is not a hexadecimal digit) makes
    [verifyWebhookSignature] throw a RangeError instead of returning false,
    and the webhook then answers 500 instead of 401. *)
Theorem verifyWebhookSignature_malformed_throws
    (cfg : Service.Config) (req : Service.WebhookRequest) (env : Env) (w : World)
    (secret signature : string) :
  Service.non_empty (Service.aemWebhookSecret cfg) = Some secret ->
  Service.non_empty (Service.signatureHeader req) = Some signature ->
  List.length (Crypto.buffer_from_hex signature) <> 32%nat ->
  Service.verifyWebhookSignature (Service.bodyJson req) signature secret = Throw RangeError
  /\ Service.webhook cfg req env w = (Ok (Service.Reply500 (clock env (clockReads w))), tick w).
Proof.
  intros Hsecret Hsig Hlen.
  assert (Hthrow : Service.verifyWebhookSignature (Service.bodyJson req) signature secret
                   = Throw RangeError).
  { rewrite verifyWebhookSignature_cases.
    destruct (Nat.eqb_spec (List.length (Crypto.buffer_from_hex signature)) 32);
      [contradiction | reflexivity]. }
  split; [exact Hthrow |].
  unfold Service.webhook. run.
  unfold Service.signature_gate. rewrite Hsecret, Hsig, Hthrow. reflexivity.
Qed.

Lemma verifyWebhookSignature_malformed_throws_witness :
  Service.verifyWebhookSignature "{}" "your-signature" "s3cret" = Throw RangeError
  /\ Service.webhook Samples.config_signed
       (Service.mkRequest (Some "your-signature") "{}"
          (Samples.event_of "com.adobe.aem.assets.updated" Samples.metadata_approved))
       Samples.env_ok Samples.world_empty
     = (Ok (Service.Reply500 1000000), tick Samples.world_empty).
Proof.
  apply (verifyWebhookSignature_malformed_throws Samples.config_signed
           (Service.mkRequest (Some "your-signature") "{}"
              (Samples.event_of "com.adobe.aem.assets.updated" Samples.metadata_approved))
           Samples.env_ok Samples.world_empty "s3cret" "your-signature").
  - reflexivity.
  - reflexivity.
  - vm_compute. lia.
Defined.

(* ===================================================================== *)
(** * Event filter *)
(* ===================================================================== *)

(** The filter compares only the last dot-separated segment of each listed
    event name, as a substring of the inbound event type. *)
Lemma shouldProcessEvent_substrings (eventType : string) :
  Service.shouldProcessEvent eventType =
  includes "updated" eventType || includes "completed" eventType
  || includes "created" eventType || includes "deleted" eventType
  || includes "removed" eventType.
Proof.
  unfold Service.shouldProcessEvent, Service.processableEvents. cbn.
  destruct (includes "updated" eventType), (includes "completed" eventType),
    (includes "created" eventType), (includes "deleted" eventType),
    (includes "removed" eventType); reflexivity.
Qed.

(** An event that passes the signature gate and whose type is missing, empty
    or contains none of the five substrings is ignored; nothing is read,
    sent or stored on the way. *)
Lemma webhook_ignores_unmatched (cfg : Service.Config) (req : Service.WebhookRequest)
    (env : Env) (w : World) :
  Service.signature_gate cfg req = Ok true ->
  match Service.non_empty (Service.event_type (Service.body req)) with
  | None => True
  | Some et => Service.shouldProcessEvent et = false
  end ->
  Service.webhook cfg req env w = (Ok Service.ReplyIgnored, w).
Proof.
  intros Hgate Het. unfold Service.webhook. run. rewrite Hgate.
  cbn -[Service.shouldProcessEvent].
  destruct (Service.non_empty (Service.event_type (Service.body req))) as [et |];
    [| reflexivity].
  rewrite Het. reflexivity.
Qed.

Example shouldProcessEvent_page_updated :
  Service.shouldProcessEvent "com.adobe.aem.page.updated" = true.
Proof. reflexivity. Qed.

(** C1: an event of type [com.adobe.aem.page.updated] is never answered with
    [ignored]: its type contains "updated", so the filter lets it through to
    [processAssetEvent], and the reply is 401, 500 or [processed]. *)
Theorem webhook_page_updated_not_ignored
    (cfg : Service.Config) (signature : option string) (json : string)
    (assetPath : option string) (metadata : option Metadata) (eventType : option string)
    (env : Env) (w : World) :
  fst (Service.webhook cfg
         (Service.mkRequest signature json
            (Service.mkEvent (Some "com.adobe.aem.page.updated") assetPath metadata eventType))
         env w)
  <> Ok Service.ReplyIgnored.
Proof.
  unfold Service.webhook. rewrite run_try_catch, run_bind, run_lift.
  destruct (Service.signature_gate _ _) as [[|] | e]; cbn -[Service.processAssetEvent].
  - rewrite run_bind.
    destruct (Service.processAssetEvent _ _ _ _) as [[r | e] w']; cbn; discriminate.
  - discriminate.
  - discriminate.
Qed.

(* ===================================================================== *)
(** * Retry classification *)
(* ===================================================================== *)

Lemma isRetryableError_spec (error : Exn) :
  isRetryableError error = spec_retryable (response_of error).
Proof. reflexivity. Qed.

Lemma isRetryableError_true_iff (error : Exn) :
  isRetryableError error = true <->
  response_of error = None \/
  exists r, response_of error = Some r /\ (500 <= status r \/ status r = 429).
Proof.
  unfold isRetryableError. destruct (response_of error) as [r |].
  - rewrite orb_true_iff, Z.leb_le, Z.eqb_eq. split.
    + intros H. right. exists r. split; [reflexivity | exact H].
    + intros [H | (r' & Hr & H)]; [discriminate | congruence].
  - split; [intros _; left; reflexivity | reflexivity].
Qed.

(** The service's create and update operations do classify a failure. *)
Lemma sendAssetMetadata_failure (d : NormalizedMetadata) (env : Env) (w : World) :
  exists r w', Service.sendAssetMetadata d env w = (Ok r, w') /\
    (success r = false ->
     exists e, error r = Some (ErrorDetails (assetId d) e (status <$> response_of e)) /\
               retryable r = Some (spec_retryable (response_of e))).
Proof.
  unfold Service.sendAssetMetadata. rewrite run_try_catch, run_bind.
  destruct (Service.getAccessToken env w) as [[token | e] w1].
  - rewrite run_bind. destruct (axios _ env w1) as [[resp | e] w2]; cbn.
    + eexists _, _. split; [reflexivity | cbn; discriminate].
    + eexists _, _. split; [reflexivity | cbn; eauto].
  - cbn. eexists _, _. split; [reflexivity | cbn; eauto].
Qed.

Lemma updateAssetMetadata_failure (id : MetaValue) (d : NormalizedMetadata)
    (env : Env) (w : World) :
  exists r w', Service.updateAssetMetadata id d env w = (Ok r, w') /\
    (success r = false ->
     exists e, error r = Some (ErrorDetails id e (status <$> response_of e)) /\
               retryable r = Some (spec_retryable (response_of e))).
Proof.
  unfold Service.updateAssetMetadata. rewrite run_try_catch, run_bind.
  destruct (Service.getAccessToken env w) as [[token | e] w1].
  - rewrite run_bind. destruct (axios _ env w1) as [[resp | e] w2]; cbn.
    + eexists _, _. split; [reflexivity | cbn; discriminate].
    + eexists _, _. split; [reflexivity | cbn; eauto].
  - cbn. eexists _, _. split; [reflexivity | cbn; eauto].
Qed.

(** The action's token helper only throws errors without a response. *)
Lemma action_getAccessToken_throws (params : Action.Params) (env : Env) (w : World)
    (e : Exn) (w' : World) :
  Action.getAccessToken params env w = (Throw e, w') -> response_of e = None.
Proof.
  unfold Action.getAccessToken. rewrite run_try_catch.
  destruct (@mbind M _ _ _ _ _ env w) as [[t | e0] w1]; cbn;
    intros H; inversion H; subst; reflexivity.
Qed.

Lemma fetch_throws (r : Request) (env : Env) (w : World) (e : Exn) (w' : World) :
  fetch r env w = (Throw e, w') -> response_of e = None.
Proof.
  unfold fetch. rewrite run_bind. cbn.
  destruct (respond env _ r); cbn; intros H; inversion H; subst; reflexivity.
Qed.

(** In the action every failure of create is classified retryable, also a
    404: the error thrown for a response that is not ok has no [response]. *)
Lemma action_sendToMLE_failure_retryable (d : NormalizedMetadata) (params : Action.Params)
    (env : Env) (w : World) :
  exists r w', Action.sendToMLE d params env w = (Ok r, w') /\
    (success r = false -> retryable r = Some true).
Proof.
  unfold Action.sendToMLE. rewrite run_try_catch, run_bind.
  destruct (Action.getAccessToken params env w) as [[token | e] w1] eqn:Htok.
  - rewrite run_bind. destruct (fetch _ env w1) as [[resp | e] w2] eqn:Hfetch.
    + rewrite run_bind. unfold Action.require_ok.
      destruct (negb (is_2xx (status resp))); cbn.
      * eexists _, _. split; [reflexivity | reflexivity].
      * eexists _, _. split; [reflexivity | cbn; discriminate].
    + eexists _, _. split; [reflexivity |]. cbn. intros _.
      unfold isRetryableError. rewrite (fetch_throws _ _ _ _ _ Hfetch). reflexivity.
  - eexists _, _. split; [reflexivity |]. cbn. intros _.
    unfold isRetryableError. rewrite (action_getAccessToken_throws _ _ _ _ _ Htok). reflexivity.
Qed.

(** C2: the remove operation returns no [retryable] field at all, whatever
    the failure: [deleteAsset] in the service and [deleteFromMLE] in the action
    build [{ success: false, error }] only. *)
Theorem deleteAsset_result_has_no_retryable (id : MetaValue) (params : Action.Params)
    (env : Env) (w : World) :
  (exists r w', Service.deleteAsset id env w = (Ok r, w') /\ retryable r = None) /\
  (exists r w', Action.deleteFromMLE id params env w = (Ok r, w') /\ retryable r = None).
Proof.
  split.
  - unfold Service.deleteAsset. rewrite run_try_catch, run_bind.
    destruct (Service.getAccessToken env w) as [[token | e] w1].
    + rewrite run_bind. destruct (axios _ env w1) as [[resp | e] w2]; cbn; eauto.
    + cbn. eauto.
  - unfold Action.deleteFromMLE. rewrite run_try_catch, run_bind.
    destruct (Action.getAccessToken params env w) as [[token | e] w1].
    + rewrite run_bind. destruct (fetch _ env w1) as [[resp | e] w2].
      * rewrite run_bind. unfold Action.require_ok.
        destruct (negb (is_2xx (status resp))); cbn; eauto.
      * cbn. eauto.
    + cbn. eauto.
Qed.

(** The failing input of C2: the API answers 503 to a delete. *)
Example deleteAsset_503 :
  let env := mkEnv (fun _ r => match r with
                               | TokenRequest =>
                                   Responded (mkResponse 200 (mkData "tok" 3600 None None None None))
                               | _ => Responded (mkResponse 503 (mkData "" 0 None None None None))
                               end) (fun _ => 1000) in
  let r := fst (Service.deleteAsset (MStr "u1") env (mkWorld (mkTokenManager None None) [] 0)) in
  (success <$> (match r with Ok x => Some x | Throw _ => None end),
   retryable <$> (match r with Ok x => Some x | Throw _ => None end))
  = (Some false, Some None)
  /\ spec_retryable (Some (mkResponse 503 (mkData "" 0 None None None None))) = true.
Proof. split; reflexivity. Qed.

(* ===================================================================== *)
(** * Tags, categories, keywords *)
(* ===================================================================== *)

Lemma Set_add_all_NoDup (l set : list Scalar) : NoDup set -> NoDup (Set_add_all set l).
Proof.
  revert set. induction l as [| x l IH]; intros set Hset; cbn; [exact Hset |].
  apply IH. case_bool_decide as Hin; [exact Hset |].
  apply NoDup_app. split; [exact Hset |]. split.
  - intros y Hy Hy'. apply list_elem_of_singleton in Hy'. subst y. contradiction.
  - apply NoDup_singleton.
Qed.

Lemma Set_add_all_elem_of (l set : list Scalar) (x : Scalar) :
  x ∈ Set_add_all set l <-> x ∈ set \/ x ∈ l.
Proof.
  revert set. induction l as [| y l IH]; intros set; cbn.
  - split; [auto | intros [H | H]; [exact H | inversion H]].
  - rewrite IH. case_bool_decide as Hin.
    + rewrite elem_of_cons. split; [tauto |].
      intros [H | [-> | H]]; auto.
    + rewrite elem_of_app, list_elem_of_singleton, elem_of_cons. tauto.
Qed.

(** [[...new Set(l)]] has no duplicates and the same elements as [l]. *)
Lemma spread_Set_NoDup (l : list Scalar) : NoDup (spread_Set l).
Proof. apply Set_add_all_NoDup, NoDup_nil_2. Qed.

Lemma spread_Set_elem_of (l : list Scalar) (x : Scalar) : x ∈ spread_Set l <-> x ∈ l.
Proof.
  unfold spread_Set. rewrite Set_add_all_elem_of. split; [| auto].
  intros [H | H]; [inversion H | exact H].
Qed.

(** What a successful run of the service's transformer returns in the
    fields that the theorems below look at. *)
Lemma service_transformForMLE_ok (cfg : Service.Config) (m : Metadata)
    (assetPath eventType : option string) (env : Env) (w : World)
    (d : NormalizedMetadata) (w' : World) :
  Service.transformForMLE cfg m assetPath eventType env w = (Ok d, w') ->
  w' = tick w /\ assetId_of m assetPath = Ok (assetId d) /\
  tags d = extractTags m /\ categories d = extractCategories m /\
  keywords d = extractKeywords m.
Proof.
  unfold Service.transformForMLE. rewrite run_bind, run_lift.
  destruct (mimeType_of m assetPath) as [mime | e]; [| discriminate].
  rewrite run_bind, run_lift.
  destruct (assetId_of m assetPath) as [aid | e]; [| discriminate].
  rewrite run_bind, run_lift.
  destruct (getMediaType (Some mime)) as [media | e]; [| discriminate].
  rewrite run_bind, run_lift.
  destruct (extractFileNameFromPath assetPath) as [file | e]; [| discriminate].
  rewrite run_bind, run_lift.
  destruct (getApprovalStatus m) as [approval | e]; [| discriminate].
  rewrite run_bind. cbn. intros H. inversion H; subst. cbn. auto.
Qed.

Lemma action_transformForMLE_ok (m : Metadata)
    (assetPath eventType : option string) (env : Env) (w : World)
    (d : NormalizedMetadata) (w' : World) :
  Action.transformForMLE m assetPath eventType env w = (Ok d, w') ->
  w' = tick w /\ assetId_of m assetPath = Ok (assetId d) /\
  tags d = extractTags m /\ categories d = extractCategories m /\
  keywords d = extractKeywords m.
Proof.
  unfold Action.transformForMLE. rewrite run_bind, run_lift.
  destruct (mimeType_of m assetPath) as [mime | e]; [| discriminate].
  rewrite run_bind, run_lift.
  destruct (assetId_of m assetPath) as [aid | e]; [| discriminate].
  rewrite run_bind, run_lift.
  destruct (getMediaType (Some mime)) as [media | e]; [| discriminate].
  rewrite run_bind, run_lift.
  destruct (extractFileNameFromPath assetPath) as [file | e]; [| discriminate].
  rewrite run_bind, run_lift.
  destruct (getApprovalStatus m) as [approval | e]; [| discriminate].
  rewrite run_bind. cbn. intros H. inversion H; subst. cbn. auto.
Qed.

(** C9: for every metadata map the tags, categories and keywords lists are
    free of duplicates, as extracted and as they stand in the output of
    either transformer, whatever the source fields hold. *)
Theorem extracted_lists_have_no_duplicates (cfg : Service.Config) (m : Metadata)
    (assetPath eventType : option string) (env : Env) (w : World) :
  (NoDup (extractTags m) /\ NoDup (extractCategories m) /\ NoDup (extractKeywords m)) /\
  match fst (Service.transformForMLE cfg m assetPath eventType env w) with
  | Ok d => NoDup (tags d) /\ NoDup (categories d) /\ NoDup (keywords d)
  | Throw _ => True
  end /\
  match fst (Action.transformForMLE m assetPath eventType env w) with
  | Ok d => NoDup (tags d) /\ NoDup (categories d) /\ NoDup (keywords d)
  | Throw _ => True
  end.
Proof.
  assert (Hlists : NoDup (extractTags m) /\ NoDup (extractCategories m)
                   /\ NoDup (extractKeywords m)).
  { repeat split; apply spread_Set_NoDup. }
  split; [exact Hlists |]. split.
  - destruct (Service.transformForMLE cfg m assetPath eventType env w) as [[d | e] w'] eqn:Hrun;
      [| exact I].
    cbn [fst]. apply service_transformForMLE_ok in Hrun as (_ & _ & -> & -> & ->). exact Hlists.
  - destruct (Action.transformForMLE m assetPath eventType env w) as [[d | e] w'] eqn:Hrun;
      [| exact I].
    cbn [fst]. apply action_transformForMLE_ok in Hrun as (_ & _ & -> & -> & ->). exact Hlists.
Qed.

(** Overlapping legacy and current fields, scalar and array: one copy each. *)
Example extractTags_overlap :
  extractTags (<["cq:tags" := MArr [SStr "a"; SStr "b"; SStr "a"]]>
                 (<["dam:tags" := MStr "b"]> ∅))
  = [SStr "a"; SStr "b"].
Proof. vm_compute. reflexivity. Qed.

(* ===================================================================== *)
(** * The approval gate *)
(* ===================================================================== *)

Lemma approval_test_false_iff (value : option MetaValue) :
  approval_test value = Ok false <-> not_approving value.
Proof.
  destruct value as [[[s | n] | xs] |]; cbn.
  - destruct (String.eqb_spec s "") as [-> | Hs]; cbn.
    + split; [intros _; left; reflexivity | reflexivity].
    + destruct (String.eqb_spec (toLowerCase s) "approved") as [Ha | Ha];
        destruct (String.eqb_spec (toLowerCase s) "published") as [Hp | Hp]; cbn;
        split; intros H; try discriminate; try reflexivity.
      * destruct H as [H | (s' & Hs' & H1 & H2)]; [discriminate |].
        inversion Hs'; subst s'. contradiction.
      * destruct H as [H | (s' & Hs' & H1 & H2)]; [discriminate |].
        inversion Hs'; subst s'. contradiction.
      * destruct H as [H | (s' & Hs' & H1 & H2)]; [discriminate |].
        inversion Hs'; subst s'. contradiction.
      * right. exists s. auto.
  - destruct (Z.eqb_spec n 0) as [-> | Hn]; cbn.
    + split; [intros _; left; reflexivity | reflexivity].
    + split; [discriminate |].
      intros [H | (s & Hs & _)]; discriminate.
  - split; [discriminate |]. intros [H | (s & Hs & _)]; discriminate.
  - split; [intros _; exact I | reflexivity].
Qed.

Lemma approval_test_throws (v : MetaValue) :
  truthy v = true -> is_string v = false -> approval_test (Some v) = Throw TypeError.
Proof.
  intros Ht Hs. cbn. rewrite Ht. destruct v as [[s | n] | xs]; [discriminate | |]; reflexivity.
Qed.

(** The loop stops with a TypeError at the first field that holds a truthy
    non-string, provided no earlier field speaks for approval. *)
Lemma first_approved_throws (m : Metadata) (before after : list string)
    (field : string) (v : MetaValue) :
  (forall f, f ∈ before -> not_approving (m !! f)) ->
  m !! field = Some v -> truthy v = true -> is_string v = false ->
  first_approved m (before ++ field :: after) = Throw TypeError.
Proof.
  intros Hbefore Hv Ht Hs. induction before as [| f before IH]; cbn.
  - rewrite Hv, approval_test_throws by assumption. reflexivity.
  - assert (Hf : approval_test (m !! f) = Ok false).
    { apply approval_test_false_iff, Hbefore. left. }
    rewrite Hf. apply IH. intros g Hg. apply Hbefore. right. exact Hg.
Qed.

Lemma first_approved_false_iff (m : Metadata) (fields : list string) :
  first_approved m fields = Ok false <-> forall f, f ∈ fields -> not_approving (m !! f).
Proof.
  induction fields as [| f fields IH]; cbn.
  - split; [intros _ g Hg; inversion Hg | reflexivity].
  - destruct (approval_test (m !! f)) as [[|] | e] eqn:Hf.
    + split; [discriminate |]. intros H.
      assert (Hn : approval_test (m !! f) = Ok false)
        by (apply approval_test_false_iff, H; left).
      congruence.
    + rewrite IH. split.
      * intros H g Hg. apply elem_of_cons in Hg as [-> | Hg];
          [apply approval_test_false_iff; exact Hf | apply H; exact Hg].
      * intros H g Hg. apply H. right. exact Hg.
    + split; [discriminate |]. intros H.
      assert (Hn : approval_test (m !! f) = Ok false)
        by (apply approval_test_false_iff, H; left).
      congruence.
Qed.

(** The action's [some] and the service's loop are the same function. *)
Lemma action_isAssetApproved_loop (m : Metadata) :
  Action.isAssetApproved m = first_approved m Service.approvalFields.
Proof. reflexivity. Qed.

(** Once the approval gate has let the metadata through, the transformer's
    own status derivation, which reads the first three fields, cannot throw. *)
Lemma getApprovalStatus_after_approval (m : Metadata) :
  first_approved m Service.approvalFields = Ok true ->
  exists s, getApprovalStatus m = Ok s.
Proof.
  unfold getApprovalStatus, Service.approvalFields, approvalFields3. cbn.
  destruct (approval_test (m !! "dam:status")) as [[|] | e1]; eauto; try discriminate.
  destruct (approval_test (m !! "dam:approvalStatus")) as [[|] | e2]; eauto; try discriminate.
  destruct (approval_test (m !! "cq:workflowStatus")) as [[|] | e3]; eauto; discriminate.
Qed.

(** An event whose metadata are not approved is skipped: no clock reading,
    no request, no change of the token cache. *)
Lemma processAssetEvent_skips (cfg : Service.Config) (ev : Service.EventData)
    (env : Env) (w : World) :
  Service.isAssetApproved (Service.ev_metadata ev) = Ok false ->
  Service.processAssetEvent cfg ev env w = (Ok Service.Skipped, w).
Proof.
  intros H. unfold Service.processAssetEvent. rewrite run_bind, run_lift, H. reflexivity.
Qed.

(** The part of C6 that holds: when every status field is absent, falsy or
    a string other than "approved" / "published", the event is skipped. *)
Lemma processAssetEvent_skips_unapproved (cfg : Service.Config) (ev : Service.EventData)
    (m : Metadata) (env : Env) (w : World) :
  Service.ev_metadata ev = Some m ->
  (forall f, f ∈ Service.approvalFields -> not_approving (m !! f)) ->
  Service.processAssetEvent cfg ev env w = (Ok Service.Skipped, w).
Proof.
  intros Hm H. apply processAssetEvent_skips. rewrite Hm. cbn [Service.isAssetApproved].
  apply first_approved_false_iff. exact H.
Qed.

Example processAssetEvent_draft_skipped :
  fst (Service.processAssetEvent
         (Service.mkConfig None "https://mle/api" "v1" None None)
         (Service.mkEvent (Some "com.adobe.aem.assets.updated") (Some "/content/dam/p.jpg")
            (Some (<["dam:status" := MStr "draft"]> ∅)) (Some "com.adobe.aem.assets.updated"))
         (mkEnv (fun _ _ => NoResponse "down") (fun _ => 0))
         (mkWorld (mkTokenManager None None) [] 0))
  = Ok Service.Skipped.
Proof. vm_compute. reflexivity. Qed.

(** A body of the documented shape [{ event_type, data: { payload } }] has
    no [metadata] property of its own: [processAssetEvent] reads
    [undefined], the approval check throws and the webhook answers 500. *)
Example webhook_documented_body_500 :
  Service.webhook Samples.config_open
    (Service.mkRequest None "{}"
       (Service.mkEvent (Some "com.adobe.aem.assets.updated") None None None))
    Samples.env_ok Samples.world_empty
  = (Ok (Service.Reply500 1000000), tick Samples.world_empty).
Proof. vm_compute. reflexivity. Qed.

(** When the approval check throws, the webhook answers 500. *)
Lemma webhook_approval_exception (cfg : Service.Config) (req : Service.WebhookRequest)
    (env : Env) (w : World) (et : string) (e : Exn) :
  Service.signature_gate cfg req = Ok true ->
  Service.non_empty (Service.event_type (Service.body req)) = Some et ->
  Service.shouldProcessEvent et = true ->
  Service.isAssetApproved (Service.ev_metadata (Service.body req)) = Throw e ->
  Service.webhook cfg req env w = (Ok (Service.Reply500 (clock env (clockReads w))), tick w).
Proof.
  intros Hgate Het Hshould Happ. unfold Service.webhook.
  rewrite run_try_catch, run_bind, run_lift, Hgate.
  cbn -[Service.shouldProcessEvent Service.processAssetEvent].
  rewrite Het, Hshould. cbn -[Service.processAssetEvent].
  rewrite run_bind. unfold Service.processAssetEvent at 1.
  rewrite run_bind, run_lift, Happ. reflexivity.
Qed.

(** ... and the action answers with status code 500, having sent nothing. *)
Lemma main_approval_exception (params : Action.Params) (d : Action.EventEnvelope)
    (p : Action.Payload) (env : Env) (w : World) (e : Exn) :
  Action.validateParams params = None ->
  Action.p_data params = Some d -> Action.payload d = Some p ->
  Action.isAssetApproved (Action.metadata_of p) = Throw e ->
  exists ts w', Action.main (Action.Object params) env w
                = (Ok (Action.ErrorResponse 500 (Action.Exception e) ts), w')
                /\ outbound w' = outbound w.
Proof.
  intros Hvalid Hd Hp Happ. unfold Action.main. cbv zeta. rewrite run_try_catch, Hvalid.
  rewrite run_bind. unfold Action.extractEventData. rewrite Hd, Hp, run_bind.
  destruct (Action.non_empty (Action.env_timestamp d)) as [s |].
  - rewrite run_ret, run_ret, run_bind, run_lift. cbn [Action.ev_metadata].
    rewrite Happ. eexists _, _. split; reflexivity.
  - rewrite run_bind. cbn -[Action.isAssetApproved]. rewrite Happ.
    eexists _, _. split; reflexivity.
Qed.

(** As worded the statement fails: a field that says "approved" ends the
    check before the number in a later field is looked at. *)
Lemma approved_status_hides_later_non_string : ~ throws_on_any_non_string_status.
Proof.
  intros H.
  destruct (H (<["dam:status" := MStr "approved"]> (<["dam:approvalStatus" := MNum 5]> ∅))
              "dam:approvalStatus" (MNum 5)) as [e He].
  - unfold Service.approvalFields. set_solver.
  - reflexivity.
  - reflexivity.
  - reflexivity.
  - vm_compute in He. discriminate.
Qed.

(** The loop returns [true] at the first field that holds "approved" or
    "published", provided no earlier field stops it. *)
Lemma first_approved_returns (m : Metadata) (before after : list string)
    (field s : string) :
  (forall f, f ∈ before -> not_approving (m !! f)) ->
  m !! field = Some (MStr s) ->
  toLowerCase s = "approved" \/ toLowerCase s = "published" ->
  first_approved m (before ++ field :: after) = Ok true.
Proof.
  intros Hbefore Hv Hs. induction before as [| f before IH]; cbn.
  - rewrite Hv. cbn.
    assert (Hne : String.eqb s "" = false).
    { destruct s; [destruct Hs as [Hs | Hs]; discriminate | reflexivity]. }
    rewrite Hne. cbn [negb].
    destruct Hs as [-> | ->]; reflexivity.
  - assert (Hf : approval_test (m !! f) = Ok false).
    { apply approval_test_false_iff, Hbefore. left. }
    rewrite Hf. apply IH. intros g Hg. apply Hbefore. right. exact Hg.
Qed.

(** C10 (amended): split the list of approval status fields at a field such
    that every field before it is absent, falsy or a string other than
    "approved" / "published".  When that field holds a truthy non-string
    value, the approval check of both variants throws a TypeError, and the
    request ends on the 500 path: neither skipped nor completed.  When that
    field holds "approved" or "published" (in any letter case), the check
    returns approved without reading a later field: the verdict is the same
    for every metadata map that agrees on the fields up to this one, whatever
    the later fields hold. *)
Theorem approval_check_throws_at_first_non_string
    (m : Metadata) (before after : list string) (field : string) :
  Service.approvalFields = before ++ field :: after ->
  (forall f, f ∈ before -> not_approving (m !! f)) ->
  (forall v,
     m !! field = Some v -> truthy v = true -> is_string v = false ->
     Service.isAssetApproved (Some m) = Throw TypeError
     /\ Action.isAssetApproved m = Throw TypeError
     /\ (forall cfg req env w et,
           Service.signature_gate cfg req = Ok true ->
           Service.non_empty (Service.event_type (Service.body req)) = Some et ->
           Service.shouldProcessEvent et = true ->
           Service.ev_metadata (Service.body req) = Some m ->
           Service.webhook cfg req env w
           = (Ok (Service.Reply500 (clock env (clockReads w))), tick w))
     /\ (forall params d p env w,
           Action.validateParams params = None ->
           Action.p_data params = Some d -> Action.payload d = Some p ->
           Action.metadata_of p = m ->
           exists ts w', Action.main (Action.Object params) env w
                         = (Ok (Action.ErrorResponse 500 (Action.Exception TypeError) ts), w')
                         /\ outbound w' = outbound w))
  /\ (forall s,
        m !! field = Some (MStr s) ->
        toLowerCase s = "approved" \/ toLowerCase s = "published" ->
        forall later : Metadata,
          (forall f, f ∈ before ++ [field] -> later !! f = m !! f) ->
          Service.isAssetApproved (Some later) = Ok true
          /\ Action.isAssetApproved later = Ok true).
Proof.
  intros Hfields Hbefore. split.
  - intros v Hv Ht Hs.
    assert (Hloop : first_approved m Service.approvalFields = Throw TypeError).
    { rewrite Hfields. eapply first_approved_throws; eassumption. }
    split; [exact Hloop |]. split; [rewrite action_isAssetApproved_loop; exact Hloop |]. split.
    + intros cfg req env w et Hgate Het Hshould Hm.
      eapply webhook_approval_exception; try eassumption. rewrite Hm. exact Hloop.
    + intros params d p env w Hvalid Hd Hp Hm.
      eapply main_approval_exception; try eassumption.
      rewrite Hm, action_isAssetApproved_loop. exact Hloop.
  - intros s Hv Hs later Hsame.
    assert (Hloop : first_approved later Service.approvalFields = Ok true).
    { rewrite Hfields. apply (first_approved_returns later before after field s).
      - intros f Hf. rewrite Hsame by (apply elem_of_app; left; exact Hf).
        apply Hbefore. exact Hf.
      - rewrite Hsame by (apply elem_of_app; right; left). exact Hv.
      - exact Hs. }
    split; [exact Hloop | rewrite action_isAssetApproved_loop; exact Hloop].
Qed.

Lemma approval_check_throws_at_first_non_string_witness :
  (Service.isAssetApproved (Some Samples.metadata_array_status) = Throw TypeError
   /\ Action.isAssetApproved Samples.metadata_array_status = Throw TypeError
   /\ Service.webhook Samples.config_open
        (Samples.request_of "com.adobe.aem.assets.updated" Samples.metadata_array_status)
        Samples.env_ok Samples.world_empty
      = (Ok (Service.Reply500 1000000), tick Samples.world_empty)
   /\ exists ts w',
        Action.main (Action.Object (Samples.params_of "com.adobe.aem.assets.updated"
                                                      Samples.metadata_array_status))
                    Samples.env_ok Samples.world_empty
        = (Ok (Action.ErrorResponse 500 (Action.Exception TypeError) ts), w')
        /\ outbound w' = outbound Samples.world_empty)
  /\ (Service.isAssetApproved (Some Samples.metadata_approved_then_number) = Ok true
      /\ Action.isAssetApproved Samples.metadata_approved_then_number = Ok true).
Proof.
  split.
  - destruct (approval_check_throws_at_first_non_string Samples.metadata_array_status
                ["dam:status"] ["cq:workflowStatus"; "jcr:content/metadata/dam:status"]
                "dam:approvalStatus") as [Hthrows _].
    + reflexivity.
    + intros f Hf. apply list_elem_of_singleton in Hf. subst f.
      right. exists "draft". repeat split; discriminate.
    + destruct (Hthrows (MArr [SStr "approved"]))
        as (Hservice & Haction & Hwebhook & Hmain); [reflexivity .. |].
      split; [exact Hservice |]. split; [exact Haction |]. split.
      * apply (Hwebhook Samples.config_open
                 (Samples.request_of "com.adobe.aem.assets.updated"
                                     Samples.metadata_array_status)
                 Samples.env_ok Samples.world_empty "com.adobe.aem.assets.updated");
          reflexivity.
      * eapply Hmain; reflexivity.
  - destruct (approval_check_throws_at_first_non_string Samples.metadata_approved
                [] ["dam:approvalStatus"; "cq:workflowStatus";
                    "jcr:content/metadata/dam:status"]
                "dam:status") as [_ Hreturns].
    + reflexivity.
    + intros f Hf. inversion Hf.
    + apply (Hreturns "approved").
      * reflexivity.
      * left. reflexivity.
      * intros f Hf. apply list_elem_of_singleton in Hf. subst f. reflexivity.
Defined.

(** C6: the metadata [{ 'dam:status': 42 }] have no status field equal to
    "approved" or "published", yet [processAssetEvent] does not return
    [skipped]: the approval check throws a TypeError and the webhook answers
    500. *)
Theorem processAssetEvent_numeric_status_throws
    (cfg : Service.Config) (event_type assetPath eventType : option string)
    (env : Env) (w : World) :
  (forall f s, f ∈ Service.approvalFields ->
               Samples.metadata_numeric_status !! f = Some (MStr s) ->
               toLowerCase s <> "approved" /\ toLowerCase s <> "published")
  /\ Service.processAssetEvent cfg
       (Service.mkEvent event_type assetPath (Some Samples.metadata_numeric_status) eventType)
       env w
     = (Throw TypeError, w)
  /\ Service.webhook Samples.config_open
       (Samples.request_of "com.adobe.aem.assets.updated" Samples.metadata_numeric_status)
       env w
     = (Ok (Service.Reply500 (clock env (clockReads w))), tick w).
Proof.
  split; [| split].
  - intros f s Hf Hs. unfold Service.approvalFields in Hf.
    repeat (apply elem_of_cons in Hf as [-> | Hf]; [vm_compute in Hs; discriminate |]).
    inversion Hf.
  - unfold Service.processAssetEvent. rewrite run_bind, run_lift. reflexivity.
  - apply (webhook_approval_exception _ _ _ _ "com.adobe.aem.assets.updated" TypeError);
      reflexivity.
Qed.

(* ===================================================================== *)
(** * The token manager *)
(* ===================================================================== *)

(** With a fresh token the call returns at once; one clock reading. *)
Lemma getAccessToken_start_fresh (env : Env) (w : World) (t : string) :
  accessToken (tokenManager w) = Some t ->
  Concurrent.fresh (tokenManager w) (clock env (clockReads w)) ->
  Service.getAccessToken_start env w = (Service.Returned t, tick w).
Proof.
  intros Ht (t' & e & Ht' & Hne & He & He0 & Hnow).
  unfold Service.getAccessToken_start. rewrite Ht', He.
  assert (t' = t) by congruence. subst t'.
  destruct (String.eqb_spec t "") as [-> | _]; [contradiction |].
  destruct (Z.eqb_spec e 0) as [-> | _]; [contradiction |]. cbn.
  destruct (Z.ltb_spec (clock env (clockReads w)) e); [reflexivity | lia].
Qed.

(** Without a fresh token the call posts a token request and suspends; the
    cache is left alone and at most the clock has been read. *)
Lemma getAccessToken_start_stale (env : Env) (w : World) :
  ~ Concurrent.fresh (tokenManager w) (clock env (clockReads w)) ->
  exists w1, Service.getAccessToken_start env w
             = (Service.Awaiting (List.length (outbound w)), issue TokenRequest w1)
             /\ (w1 = w \/ w1 = tick w).
Proof.
  intros Hstale. unfold Service.getAccessToken_start, Service.post_token.
  destruct (accessToken (tokenManager w)) as [t |] eqn:Ht; [| eauto].
  destruct (tokenExpiry (tokenManager w)) as [e |] eqn:He; [| eauto].
  destruct (String.eqb_spec t "") as [-> | Hne]; cbn; [eauto |].
  destruct (Z.eqb_spec e 0) as [-> | He0]; cbn; [eauto |].
  destruct (Z.ltb_spec (clock env (clockReads w)) e) as [Hlt | Hge]; [| eauto].
  exfalso. apply Hstale. exists t, e. auto.
Qed.

(** The continuation after a failed token request. *)
Lemma getAccessToken_resume_failure (o : HttpOutcome) (env : Env) (w : World) :
  request_fails o ->
  Service.getAccessToken_resume o env w = (Throw (Error "Authentication failed"), w).
Proof.
  intros Hfail. unfold Service.getAccessToken_resume. rewrite run_try_catch, run_bind.
  destruct o as [msg | r]; cbn in *; [reflexivity |]. rewrite Hfail. reflexivity.
Qed.

(** The continuation after a successful token request. *)
Lemma getAccessToken_resume_success (r : Response) (env : Env) (w : World) :
  is_2xx (status r) = true ->
  Service.getAccessToken_resume (Responded r) env w
  = (Ok (access_token (data r)),
     mkWorld (mkTokenManager (Some (access_token (data r)))
                (Some (clock env (clockReads w) + expires_in (data r) * 1000 - 60000)))
             (outbound w) (S (clockReads w))).
Proof.
  intros Hok. unfold Service.getAccessToken_resume. rewrite run_try_catch, run_bind.
  cbn. rewrite Hok. reflexivity.
Qed.

(** C5: while a token is cached and the time is before its stored expiry,
    [getAccessToken] returns it and sends nothing; once that expiry has passed
    it posts one token request and, when that succeeds, caches the new token
    with expiry [now + expires_in * 1000 - 60000], [now] being the clock
    reading taken when the response is stored. *)
Theorem getAccessToken_cache_and_refresh (env : Env) (w : World) (t : string) (e : Z) :
  accessToken (tokenManager w) = Some t -> t <> "" ->
  tokenExpiry (tokenManager w) = Some e ->
  0 <= clock env (clockReads w) ->
  (clock env (clockReads w) < e ->
   Service.getAccessToken env w = (Ok t, tick w)
   /\ outbound (tick w) = outbound w /\ tokenManager (tick w) = tokenManager w)
  /\
  (e <= clock env (clockReads w) ->
   forall r, respond env (List.length (outbound w)) TokenRequest = Responded r ->
             is_2xx (status r) = true ->
   exists w' k,
     Service.getAccessToken env w = (Ok (access_token (data r)), w')
     /\ outbound w' = outbound w ++ [TokenRequest]
     /\ clockReads w' = S k
     /\ tokenManager w'
        = mkTokenManager (Some (access_token (data r)))
                         (Some (clock env k + expires_in (data r) * 1000 - 60000))).
Proof.
  intros Ht Hne He Hnow. split.
  - intros Hlt. split; [| split; reflexivity].
    unfold Service.getAccessToken.
    rewrite (getAccessToken_start_fresh env w t Ht); [reflexivity |].
    exists t, e. repeat split; try assumption. lia.
  - intros Hge r Hr Hok. unfold Service.getAccessToken.
    destruct (getAccessToken_start_stale env w) as (w1 & -> & Hw1).
    { intros (t' & e' & _ & _ & He' & _ & Hlt). rewrite He in He'. inversion He'. lia. }
    rewrite Hr.
    rewrite getAccessToken_resume_success by exact Hok.
    destruct Hw1 as [-> | ->]; eexists _, _; repeat split.
Qed.

Lemma getAccessToken_cache_and_refresh_witness :
  (Service.getAccessToken Samples.env_ok Samples.world_cached
   = (Ok "old", tick Samples.world_cached)
   /\ outbound (tick Samples.world_cached) = outbound Samples.world_cached
   /\ tokenManager (tick Samples.world_cached) = tokenManager Samples.world_cached)
  /\
  exists w' k,
    Service.getAccessToken Samples.env_ok Samples.world_expired = (Ok "tok", w')
    /\ outbound w' = [TokenRequest]
    /\ clockReads w' = S k
    /\ tokenManager w'
       = mkTokenManager (Some "tok") (Some (clock Samples.env_ok k + 3600 * 1000 - 60000)).
Proof.
  split.
  - apply (getAccessToken_cache_and_refresh Samples.env_ok Samples.world_cached
             "old" 2000000); try reflexivity; try discriminate; cbn; lia.
  - apply (getAccessToken_cache_and_refresh Samples.env_ok Samples.world_expired "old" 500)
      with (r := mkResponse 200 Samples.token_data);
      try reflexivity; try discriminate; cbn; lia.
Defined.

(** C8: when the token request fails (no response, or a status that is not
    2xx), [getAccessToken] throws "Authentication failed" and the cached token
    and expiry are exactly what they were before the call. *)
Theorem getAccessToken_failure_keeps_cache (env : Env) (w : World) :
  ~ Concurrent.fresh (tokenManager w) (clock env (clockReads w)) ->
  request_fails (respond env (List.length (outbound w)) TokenRequest) ->
  exists w', Service.getAccessToken env w = (Throw (Error "Authentication failed"), w')
             /\ tokenManager w' = tokenManager w
             /\ outbound w' = outbound w ++ [TokenRequest].
Proof.
  intros Hstale Hfail. unfold Service.getAccessToken.
  destruct (getAccessToken_start_stale env w Hstale) as (w1 & -> & Hw1).
  rewrite getAccessToken_resume_failure by exact Hfail.
  eexists. split; [reflexivity |]. destruct Hw1 as [-> | ->]; cbn; auto.
Qed.

Lemma getAccessToken_failure_keeps_cache_witness :
  (exists w', Service.getAccessToken Samples.env_down Samples.world_expired
              = (Throw (Error "Authentication failed"), w')
              /\ tokenManager w' = tokenManager Samples.world_expired
              /\ outbound w' = outbound Samples.world_expired ++ [TokenRequest])
  /\
  (exists w', Service.getAccessToken Samples.env_unauthorized Samples.world_empty
              = (Throw (Error "Authentication failed"), w')
              /\ tokenManager w' = tokenManager Samples.world_empty
              /\ outbound w' = outbound Samples.world_empty ++ [TokenRequest]).
Proof.
  split.
  - apply (getAccessToken_failure_keeps_cache Samples.env_down Samples.world_expired).
    + intros (t & e & _ & _ & He & _ & Hlt). cbn in He, Hlt. inversion He. lia.
    + exact I.
  - apply (getAccessToken_failure_keeps_cache Samples.env_unauthorized Samples.world_empty).
    + intros (t & e & Ht & _). discriminate.
    + reflexivity.
Defined.

(* ===================================================================== *)
(** * Concurrent callers of the token manager *)
(* ===================================================================== *)

(** A call that finds no fresh token adds one token request and one pending
    task, and leaves the cache as it was. *)
Lemma step_call_stale (env : Env) (l : Concurrent.Loop) :
  ~ Concurrent.fresh (tokenManager (Concurrent.world l))
                     (clock env (clockReads (Concurrent.world l))) ->
  let l' := Concurrent.step env l Concurrent.Call in
  tokenManager (Concurrent.world l') = tokenManager (Concurrent.world l)
  /\ outbound (Concurrent.world l') = outbound (Concurrent.world l) ++ [TokenRequest]
  /\ Concurrent.tasks l'
     = Concurrent.tasks l ++ [Concurrent.Pending (List.length (outbound (Concurrent.world l)))].
Proof.
  intros Hstale. cbn.
  destruct (getAccessToken_start_stale env (Concurrent.world l) Hstale) as (w1 & -> & Hw1).
  destruct Hw1 as [-> | ->]; cbn; auto.
Qed.

Lemma run_calls_stale (env : Env) (n : nat) (l : Concurrent.Loop) :
  (forall k, ~ Concurrent.fresh (tokenManager (Concurrent.world l)) (clock env k)) ->
  let l' := Concurrent.run env l (List.repeat Concurrent.Call n) in
  tokenManager (Concurrent.world l') = tokenManager (Concurrent.world l)
  /\ outbound (Concurrent.world l')
     = outbound (Concurrent.world l) ++ List.repeat TokenRequest n
  /\ Concurrent.tasks l'
     = Concurrent.tasks l
       ++ List.map Concurrent.Pending (List.seq (List.length (outbound (Concurrent.world l))) n).
Proof.
  revert l. induction n as [| n IH]; intros l Hstale; cbn -[Concurrent.step].
  - rewrite !app_nil_r. auto.
  - destruct (step_call_stale env l (Hstale _)) as (Htm & Hout & Htasks).
    destruct (IH (Concurrent.step env l Concurrent.Call)) as (Htm' & Hout' & Htasks').
    { intros k. rewrite Htm. apply Hstale. }
    fold (Concurrent.run env (Concurrent.step env l Concurrent.Call)
            (List.repeat Concurrent.Call n)).
    rewrite Htm', Hout', Htasks', Htm, Hout, Htasks.
    rewrite length_app, Nat.add_1_r, <- !app_assoc. auto.
Qed.

Lemma token_requests_app (w : World) (extra : list Request) (w' : World) :
  outbound w' = outbound w ++ extra ->
  Concurrent.token_requests w'
  = (Concurrent.token_requests w
     + List.length (List.filter Concurrent.is_token_request extra))%nat.
Proof.
  intros H. unfold Concurrent.token_requests. rewrite H, List.filter_app, length_app.
  reflexivity.
Qed.

Lemma filter_repeat_token (n : nat) :
  List.filter Concurrent.is_token_request (List.repeat TokenRequest n)
  = List.repeat TokenRequest n.
Proof. induction n as [| n IH]; cbn; [reflexivity | rewrite IH; reflexivity]. Qed.

Lemma filter_pending_map (ks : list nat) :
  List.filter Concurrent.is_pending (List.map Concurrent.Pending ks)
  = List.map Concurrent.Pending ks.
Proof. induction ks as [| k ks IH]; cbn; [reflexivity | rewrite IH; reflexivity]. Qed.

(** As worded the statement fails already for two callers: with an empty
    cache two token requests are issued, not one. *)
Lemma two_callers_two_token_requests :
  ~ single_flight Samples.env_ok Samples.world_empty 2.
Proof. unfold single_flight. vm_compute. discriminate. Qed.

(** C3 (amended): [n] calls of [getAccessToken] made while no fresh token is
    cached, before any token response arrives, issue [n] token requests, one
    per caller; each caller awaits its own request, so [n] are in flight. *)
Theorem concurrent_callers_each_request (env : Env) (w : World) (n : nat) :
  (forall k, ~ Concurrent.fresh (tokenManager w) (clock env k)) ->
  let l := Concurrent.run env (Concurrent.mkLoop w []) (List.repeat Concurrent.Call n) in
  Concurrent.token_requests (Concurrent.world l) = (Concurrent.token_requests w + n)%nat
  /\ Concurrent.tasks l
     = List.map Concurrent.Pending (List.seq (List.length (outbound w)) n)
  /\ Concurrent.in_flight l = n.
Proof.
  intros Hstale l.
  destruct (run_calls_stale env n (Concurrent.mkLoop w []) Hstale) as (_ & Hout & Htasks).
  fold l in Hout, Htasks. cbn in Hout, Htasks. split; [| split].
  - rewrite (token_requests_app _ _ _ Hout), filter_repeat_token, repeat_length. reflexivity.
  - exact Htasks.
  - unfold Concurrent.in_flight. rewrite Htasks, filter_pending_map, length_map, length_seq.
    reflexivity.
Qed.

Lemma concurrent_callers_each_request_witness :
  Concurrent.token_requests (Concurrent.world Samples.three_calls) = 3%nat
  /\ Concurrent.tasks Samples.three_calls
     = [Concurrent.Pending 0; Concurrent.Pending 1; Concurrent.Pending 2]
  /\ Concurrent.in_flight Samples.three_calls = 3%nat.
Proof.
  apply (concurrent_callers_each_request Samples.env_ok Samples.world_empty 3).
  intros k (t & e & Ht & _). discriminate.
Defined.

(** Once the first response has been stored, a later call is served from
    the cache: the requests are only saved for calls that start after it. *)
Example call_after_settle_uses_cache :
  let l := Concurrent.run Samples.env_ok (Concurrent.mkLoop Samples.world_empty [])
             [Concurrent.Call; Concurrent.Settle 0; Concurrent.Call] in
  Concurrent.token_requests (Concurrent.world l) = 1%nat
  /\ Concurrent.tasks l = [Concurrent.Settled (Ok "tok"); Concurrent.Settled (Ok "tok")].
Proof. vm_compute. split; reflexivity. Qed.

(* ===================================================================== *)
(** * Which requests a computation issues *)
(* ===================================================================== *)

Section OnlySends.
Variable P : Request -> Prop.

Lemma sends_same (w w' : World) : outbound w' = outbound w -> sends P w w'.
Proof. intros H. exists []. rewrite H, app_nil_r. auto. Qed.

Lemma sends_trans (w1 w2 w3 : World) : sends P w1 w2 -> sends P w2 w3 -> sends P w1 w3.
Proof.
  intros (x & Hx & HPx) (y & Hy & HPy). exists (x ++ y).
  rewrite Hy, Hx, app_assoc. split; [reflexivity | apply Forall_app; auto].
Qed.

Lemma only_sends_ret {A : Type} (a : A) : only_sends P (mret a : M A).
Proof. intros env w. apply sends_same. reflexivity. Qed.

Lemma only_sends_lift {A : Type} (r : Result A) : only_sends P (lift r).
Proof. intros env w. apply sends_same. reflexivity. Qed.

Lemma only_sends_throw {A : Type} (e : Exn) : only_sends P (throw e : M A).
Proof. intros env w. apply sends_same. reflexivity. Qed.

Lemma only_sends_date_now : only_sends P date_now.
Proof. intros env w. apply sends_same. reflexivity. Qed.

Lemma only_sends_set_accessToken (t : string) : only_sends P (set_accessToken t).
Proof. intros env w. apply sends_same. reflexivity. Qed.

Lemma only_sends_set_tokenExpiry (e : Z) : only_sends P (set_tokenExpiry e).
Proof. intros env w. apply sends_same. reflexivity. Qed.

Lemma only_sends_bind {A B : Type} (m : M A) (f : A -> M B) :
  only_sends P m -> (forall a, only_sends P (f a)) -> only_sends P (m ≫= f).
Proof.
  intros Hm Hf env w. rewrite run_bind. specialize (Hm env w).
  destruct (m env w) as [[a | e] w1]; cbn in Hm; [| exact Hm].
  eapply sends_trans; [exact Hm | apply Hf].
Qed.

Lemma only_sends_try_catch {A : Type} (body : M A) (handler : Exn -> M A) :
  only_sends P body -> (forall e, only_sends P (handler e)) ->
  only_sends P (try_catch body handler).
Proof.
  intros Hm Hh env w. rewrite run_try_catch. specialize (Hm env w).
  destruct (body env w) as [[a | e] w1]; cbn in Hm; [exact Hm |].
  eapply sends_trans; [exact Hm | apply Hh].
Qed.

Lemma only_sends_http (r : Request) : P r -> only_sends P (http r).
Proof. intros Hr env w. exists [r]. split; [reflexivity | auto]. Qed.

Lemma only_sends_axios_settle (o : HttpOutcome) : only_sends P (axios_settle o).
Proof.
  destruct o as [msg | r]; cbn; [apply only_sends_throw |].
  destruct (is_2xx (status r)); [apply only_sends_ret | apply only_sends_throw].
Qed.

Lemma only_sends_axios (r : Request) : P r -> only_sends P (axios r).
Proof.
  intros Hr. apply only_sends_bind; [apply only_sends_http; exact Hr |].
  apply only_sends_axios_settle.
Qed.

Lemma only_sends_fetch (r : Request) : P r -> only_sends P (fetch r).
Proof.
  intros Hr. apply only_sends_bind; [apply only_sends_http; exact Hr |].
  intros [msg | resp]; [apply only_sends_throw | apply only_sends_ret].
Qed.

Hypothesis token_allowed : P TokenRequest.

Lemma only_sends_getAccessToken_resume (o : HttpOutcome) :
  only_sends P (Service.getAccessToken_resume o).
Proof.
  apply only_sends_try_catch; [| intros e; apply only_sends_throw].
  apply only_sends_bind; [apply only_sends_axios_settle | intros r].
  apply only_sends_bind; [apply only_sends_set_accessToken | intros _].
  apply only_sends_bind; [apply only_sends_date_now | intros now].
  apply only_sends_bind; [apply only_sends_set_tokenExpiry | intros _].
  apply only_sends_ret.
Qed.

Lemma sends_getAccessToken_start (env : Env) (w : World) :
  sends P w (snd (Service.getAccessToken_start env w)).
Proof.
  assert (Hpost : forall w1, outbound w1 = outbound w ->
                             sends P w (snd (Service.post_token w1))).
  { intros w1 H1. exists [TokenRequest]. cbn. rewrite H1. auto. }
  unfold Service.getAccessToken_start.
  destruct (accessToken (tokenManager w)) as [t |]; [| apply Hpost; reflexivity].
  destruct (tokenExpiry (tokenManager w)) as [e |]; [| apply Hpost; reflexivity].
  destruct (negb (String.eqb t "") && negb (e =? 0)); [| apply Hpost; reflexivity].
  destruct (clock env (clockReads w) <? e);
    [apply sends_same; reflexivity | apply Hpost; reflexivity].
Qed.

Lemma only_sends_getAccessToken : only_sends P Service.getAccessToken.
Proof.
  intros env w. unfold Service.getAccessToken.
  pose proof (sends_getAccessToken_start env w) as Hstart.
  destruct (Service.getAccessToken_start env w) as [[t | k] w1]; cbn in Hstart;
    [exact Hstart |].
  eapply sends_trans; [exact Hstart | apply only_sends_getAccessToken_resume].
Qed.

Lemma only_sends_action_getAccessToken (params : Action.Params) :
  only_sends P (Action.getAccessToken params).
Proof.
  apply only_sends_try_catch; [| intros e; apply only_sends_throw].
  apply only_sends_bind; [apply only_sends_fetch; exact token_allowed | intros r].
  destruct (negb (is_2xx (status r))); [apply only_sends_throw | apply only_sends_ret].
Qed.

Lemma only_sends_require_ok (r : Response) (msg : string) :
  only_sends P (Action.require_ok r msg).
Proof.
  unfold Action.require_ok.
  destruct (negb (is_2xx (status r))); [apply only_sends_throw | apply only_sends_ret].
Qed.

Lemma only_sends_service_transformForMLE (cfg : Service.Config) (m : Metadata)
    (assetPath eventType : option string) :
  only_sends P (Service.transformForMLE cfg m assetPath eventType).
Proof.
  unfold Service.transformForMLE.
  repeat (apply only_sends_bind; [first [apply only_sends_lift | apply only_sends_date_now] |];
          intros ?).
  apply only_sends_ret.
Qed.

Lemma only_sends_action_transformForMLE (m : Metadata) (assetPath eventType : option string) :
  only_sends P (Action.transformForMLE m assetPath eventType).
Proof.
  unfold Action.transformForMLE.
  repeat (apply only_sends_bind; [first [apply only_sends_lift | apply only_sends_date_now] |];
          intros ?).
  apply only_sends_ret.
Qed.

End OnlySends.

(** Each client operation issues only the token request and its own
    assets-API request. *)
Lemma only_sends_service_perform (op : Operation) (d : NormalizedMetadata) :
  only_sends (serves op) (service_perform op d).
Proof.
  assert (Htoken : serves op TokenRequest) by (left; reflexivity).
  destruct op; cbn;
    (apply only_sends_try_catch; [| intros e; apply only_sends_ret]);
    (apply only_sends_bind; [apply only_sends_getAccessToken; exact Htoken | intros token]);
    (apply only_sends_bind; [apply only_sends_axios; right; reflexivity | intros r]);
    apply only_sends_ret.
Qed.

Lemma only_sends_action_perform (params : Action.Params) (op : Operation)
    (d : NormalizedMetadata) :
  only_sends (serves op) (action_perform params op d).
Proof.
  assert (Htoken : serves op TokenRequest) by (left; reflexivity).
  destruct op; cbn;
    (apply only_sends_try_catch; [| intros e; apply only_sends_ret]);
    (apply only_sends_bind;
       [apply only_sends_action_getAccessToken; exact Htoken | intros token]);
    (apply only_sends_bind; [apply only_sends_fetch; right; reflexivity | intros r]);
    (apply only_sends_bind; [apply only_sends_require_ok | intros _]);
    apply only_sends_ret.
Qed.

(** The client operations return a result; they never throw. *)
Lemma service_perform_returns (op : Operation) (d : NormalizedMetadata)
    (env : Env) (w : World) :
  exists r w', service_perform op d env w = (Ok r, w').
Proof.
  destruct op; cbn.
  - destruct (sendAssetMetadata_failure d env w) as (r & w' & H & _). eauto.
  - destruct (updateAssetMetadata_failure (assetId d) d env w) as (r & w' & H & _). eauto.
  - unfold Service.deleteAsset. rewrite run_try_catch.
    destruct (@mbind M _ _ _ _ _ env w) as [[r | e] w']; cbn; eauto.
Qed.

Lemma action_perform_returns (params : Action.Params) (op : Operation)
    (d : NormalizedMetadata) (env : Env) (w : World) :
  exists r w', action_perform params op d env w = (Ok r, w').
Proof.
  destruct op; cbn;
    [unfold Action.sendToMLE | unfold Action.updateMLE | unfold Action.deleteFromMLE];
    rewrite run_try_catch;
    destruct (@mbind M _ _ _ _ _ env w) as [[r | e] w']; cbn; eauto.
Qed.

(** The [if] chain of [processAssetEvent] is the selection of the
    specification. *)
Lemma service_dispatch_chain (et : string) (d : NormalizedMetadata) :
  (if includes "created" et || includes "published" et
   then Service.sendAssetMetadata d
   else if includes "updated" et || includes "modified" et
   then Service.updateAssetMetadata (assetId d) d
   else if includes "deleted" et || includes "removed" et
   then Service.deleteAsset (assetId d)
   else Service.sendAssetMetadata d)
  = service_perform (spec_operation et) d.
Proof.
  unfold spec_operation.
  destruct (includes "created" et || includes "published" et); [reflexivity |].
  destruct (includes "updated" et || includes "modified" et); [reflexivity |].
  destruct (includes "deleted" et || includes "removed" et); reflexivity.
Qed.

Lemma action_dispatch_chain (params : Action.Params) (et : string) (d : NormalizedMetadata) :
  (if includes "created" et || includes "published" et
   then Action.sendToMLE d params
   else if includes "updated" et || includes "modified" et
   then Action.updateMLE (assetId d) d params
   else if includes "deleted" et || includes "removed" et
   then Action.deleteFromMLE (assetId d) params
   else Action.sendToMLE d params)
  = action_perform params (spec_operation et) d.
Proof.
  unfold spec_operation.
  destruct (includes "created" et || includes "published" et); [reflexivity |].
  destruct (includes "updated" et || includes "modified" et); [reflexivity |].
  destruct (includes "deleted" et || includes "removed" et); reflexivity.
Qed.

(* ===================================================================== *)
(** * Dispatch selection *)
(* ===================================================================== *)

Lemma only_sends_bind_ok {A B : Type} (P : Request -> Prop) (a : A) (f : A -> M B) :
  only_sends P (f a) -> only_sends P (lift (Ok a) ≫= f).
Proof. intros H env w. apply H. Qed.

Lemma only_sends_processAssetEvent (cfg : Service.Config) (ev : Service.EventData)
    (et : string) :
  Service.ev_eventType ev = Some et ->
  only_sends (serves (spec_operation et)) (Service.processAssetEvent cfg ev).
Proof.
  intros Het. unfold Service.processAssetEvent. rewrite Het.
  apply only_sends_bind; [apply only_sends_lift | intros approved].
  destruct (negb approved); [apply only_sends_ret |].
  destruct (Service.ev_metadata ev) as [m |]; [| apply only_sends_throw].
  apply only_sends_bind; [apply only_sends_lift | intros aid].
  apply only_sends_bind; [| intros r; apply only_sends_ret].
  apply only_sends_try_catch; [| intros e; apply only_sends_ret].
  apply only_sends_bind; [apply only_sends_service_transformForMLE | intros d].
  cbn [Service.the_string]. apply only_sends_bind_ok.
  apply only_sends_bind; [| intros r; apply only_sends_ret].
  rewrite service_dispatch_chain. apply only_sends_service_perform.
Qed.

Lemma only_sends_processSynchronization (ev : Action.EventData) (params : Action.Params)
    (et : string) :
  Action.ev_eventType ev = Some et ->
  only_sends (serves (spec_operation et)) (Action.processSynchronization ev params).
Proof.
  intros Het. unfold Action.processSynchronization. rewrite Het.
  apply only_sends_bind; [apply only_sends_lift | intros aid].
  apply only_sends_try_catch; [| intros e; apply only_sends_ret].
  apply only_sends_bind; [apply only_sends_action_transformForMLE | intros d].
  cbn [Action.the_string]. apply only_sends_bind_ok.
  apply only_sends_bind; [| intros r; apply only_sends_ret].
  rewrite action_dispatch_chain. apply only_sends_action_perform.
Qed.

(** An approved event whose metadata transform is handed to the operation
    that the event type selects. *)
Lemma processAssetEvent_dispatch (cfg : Service.Config) (ev : Service.EventData)
    (et : string) (m : Metadata) (d : NormalizedMetadata) (env : Env) (w w1 : World) :
  Service.ev_eventType ev = Some et ->
  Service.ev_metadata ev = Some m ->
  Service.isAssetApproved (Some m) = Ok true ->
  Service.transformForMLE cfg m (Service.ev_assetPath ev) (Some et) env w = (Ok d, w1) ->
  exists r w2,
    service_perform (spec_operation et) d env w1 = (Ok r, w2)
    /\ Service.processAssetEvent cfg ev env w
       = (Ok (Service.Report (record_result (assetId d) r)), w2).
Proof.
  intros Het Hm Happ Htr.
  destruct (service_perform_returns (spec_operation et) d env w1) as (r & w2 & Hperform).
  exists r, w2. split; [exact Hperform |].
  destruct (service_transformForMLE_ok _ _ _ _ _ _ _ _ Htr) as (_ & Haid & _).
  unfold Service.processAssetEvent. rewrite Het, Hm, run_bind, run_lift, Happ.
  cbn [negb]. rewrite run_bind, run_lift, Haid, run_bind, run_try_catch, run_bind, Htr.
  rewrite run_bind, run_lift. cbn [Service.the_string].
  rewrite run_bind, service_dispatch_chain, Hperform. reflexivity.
Qed.

Lemma processSynchronization_dispatch (ev : Action.EventData) (params : Action.Params)
    (et : string) (d : NormalizedMetadata) (env : Env) (w w1 : World) :
  Action.ev_eventType ev = Some et ->
  Action.transformForMLE (Action.ev_metadata ev) (Action.ev_assetPath ev) (Some et) env w
  = (Ok d, w1) ->
  exists r w2,
    action_perform params (spec_operation et) d env w1 = (Ok r, w2)
    /\ Action.processSynchronization ev params env w
       = (Ok (record_result (assetId d) r), w2).
Proof.
  intros Het Htr.
  destruct (action_perform_returns params (spec_operation et) d env w1) as (r & w2 & Hperform).
  exists r, w2. split; [exact Hperform |].
  destruct (action_transformForMLE_ok _ _ _ _ _ _ _ Htr) as (_ & Haid & _).
  unfold Action.processSynchronization. rewrite Het, run_bind, run_lift, Haid.
  rewrite run_try_catch, run_bind, Htr.
  rewrite run_bind, run_lift. cbn [Action.the_string].
  rewrite run_bind, action_dispatch_chain, Hperform. reflexivity.
Qed.



(** C7: the event type selects the operation as the specification says.
    During [processAssetEvent] (service) and [processSynchronization] (action)
    no assets-API request other than the one of the selected operation is
    issued, and an approved event whose metadata transform is handed to
    exactly that operation, whose result becomes the report. *)
Theorem dispatch_follows_event_type
    (cfg : Service.Config) (ev : Service.EventData)
    (aev : Action.EventData) (params : Action.Params)
    (et : string) (env : Env) (w : World) :
  Service.ev_eventType ev = Some et ->
  Action.ev_eventType aev = Some et ->
  (sends (serves (spec_operation et)) w (snd (Service.processAssetEvent cfg ev env w))
   /\ forall m d w1,
        Service.ev_metadata ev = Some m ->
        Service.isAssetApproved (Some m) = Ok true ->
        Service.transformForMLE cfg m (Service.ev_assetPath ev) (Some et) env w = (Ok d, w1) ->
        exists r w2,
          service_perform (spec_operation et) d env w1 = (Ok r, w2)
          /\ Service.processAssetEvent cfg ev env w
             = (Ok (Service.Report (record_result (assetId d) r)), w2))
  /\
  (sends (serves (spec_operation et)) w (snd (Action.processSynchronization aev params env w))
   /\ forall d w1,
        Action.transformForMLE (Action.ev_metadata aev) (Action.ev_assetPath aev) (Some et)
                               env w = (Ok d, w1) ->
        exists r w2,
          action_perform params (spec_operation et) d env w1 = (Ok r, w2)
          /\ Action.processSynchronization aev params env w
             = (Ok (record_result (assetId d) r), w2)).
Proof.
  intros Hev Haev. split; split.
  - apply only_sends_processAssetEvent. exact Hev.
  - intros m d w1 Hm Happ Htr. eapply processAssetEvent_dispatch; eassumption.
  - apply only_sends_processSynchronization. exact Haev.
  - intros d w1 Htr. eapply processSynchronization_dispatch; eassumption.
Qed.

Lemma dispatch_follows_event_type_witness :
  spec_operation "com.adobe.aem.assets.updated" = Update
  /\ (sends (serves (spec_operation "com.adobe.aem.assets.updated")) Samples.world_empty
        (snd (Service.processAssetEvent Samples.config_open
                (Samples.event_of "com.adobe.aem.assets.updated" Samples.metadata_approved)
                Samples.env_ok Samples.world_empty))
      /\ exists d w1 r w2,
           Service.transformForMLE Samples.config_open Samples.metadata_approved
             (Some "/content/dam/p.jpg") (Some "com.adobe.aem.assets.updated")
             Samples.env_ok Samples.world_empty = (Ok d, w1)
           /\ service_perform (spec_operation "com.adobe.aem.assets.updated") d
                              Samples.env_ok w1 = (Ok r, w2)
           /\ Service.processAssetEvent Samples.config_open
                (Samples.event_of "com.adobe.aem.assets.updated" Samples.metadata_approved)
                Samples.env_ok Samples.world_empty
              = (Ok (Service.Report (record_result (assetId d) r)), w2))
  /\ (sends (serves (spec_operation "com.adobe.aem.assets.updated")) Samples.world_empty
        (snd (Action.processSynchronization
                (Samples.action_event_of "com.adobe.aem.assets.updated"
                                         Samples.metadata_approved)
                (Samples.params_of "com.adobe.aem.assets.updated" Samples.metadata_approved)
                Samples.env_ok Samples.world_empty))
      /\ exists d w1 r w2,
           Action.transformForMLE Samples.metadata_approved
             (Some "/content/dam/p.jpg") (Some "com.adobe.aem.assets.updated")
             Samples.env_ok Samples.world_empty = (Ok d, w1)
           /\ action_perform
                (Samples.params_of "com.adobe.aem.assets.updated" Samples.metadata_approved)
                (spec_operation "com.adobe.aem.assets.updated") d Samples.env_ok w1
              = (Ok r, w2)
           /\ Action.processSynchronization
                (Samples.action_event_of "com.adobe.aem.assets.updated"
                                         Samples.metadata_approved)
                (Samples.params_of "com.adobe.aem.assets.updated" Samples.metadata_approved)
                Samples.env_ok Samples.world_empty
              = (Ok (record_result (assetId d) r), w2)).
Proof.
  destruct (dispatch_follows_event_type Samples.config_open
              (Samples.event_of "com.adobe.aem.assets.updated" Samples.metadata_approved)
              (Samples.action_event_of "com.adobe.aem.assets.updated"
                                       Samples.metadata_approved)
              (Samples.params_of "com.adobe.aem.assets.updated" Samples.metadata_approved)
              "com.adobe.aem.assets.updated" Samples.env_ok Samples.world_empty
              eq_refl eq_refl)
    as ((Hsends & Hdispatch) & (Hasends & Hadispatch)).
  split; [reflexivity |]. split.
  - split; [exact Hsends |].
    destruct (Service.transformForMLE Samples.config_open Samples.metadata_approved
                (Some "/content/dam/p.jpg") (Some "com.adobe.aem.assets.updated")
                Samples.env_ok Samples.world_empty) as [[d | e] w1] eqn:Htr;
      [| vm_compute in Htr; discriminate].
    destruct (Hdispatch Samples.metadata_approved d w1 eq_refl) as (r & w2 & Hp & Hrun);
      [vm_compute; reflexivity | exact Htr |].
    exists d, w1, r, w2. auto.
  - split; [exact Hasends |].
    destruct (Action.transformForMLE Samples.metadata_approved
                (Some "/content/dam/p.jpg") (Some "com.adobe.aem.assets.updated")
                Samples.env_ok Samples.world_empty) as [[d | e] w1] eqn:Htr;
      [| vm_compute in Htr; discriminate].
    destruct (Hadispatch d w1 Htr) as (r & w2 & Hp & Hrun).
    exists d, w1, r, w2. auto.
Defined.

(** Scenario A: an approved [assets.updated] event is sent with PUT to the
    asset [u1] and completes; scenario E: a 500 from the API gives [failed]
    with a retryable error. *)
Example scenario_updated_completed :
  match Service.webhook Samples.config_open
          (Samples.request_of "com.adobe.aem.assets.updated" Samples.metadata_approved)
          Samples.env_ok Samples.world_empty with
  | (Ok (Service.ReplyProcessed _ (Service.Report rp)), w') =>
      rp_status rp = Completed
      /\ List.map api_operation (outbound w') = [None; Some Update]
      /\ match List.last (outbound w') TokenRequest with
         | AssetsPut id bearer _ => id = MStr "u1" /\ bearer = "tok"
         | _ => False
         end
  | _ => False
  end.
Proof. vm_compute. repeat split. Qed.

Example scenario_api_500_failed :
  match Service.webhook Samples.config_open
          (Samples.request_of "com.adobe.aem.assets.updated" Samples.metadata_approved)
          (Samples.env_api 500) Samples.world_empty with
  | (Ok (Service.ReplyProcessed _ (Service.Report rp)), w') =>
      rp_status rp = Failed /\ List.map ee_retryable (errors rp) = [Some true]
  | _ => False
  end.
Proof. vm_compute. repeat split. Qed.

(** The failing input of C1 at work: a page event with approved metadata is
    synchronised like an asset event. *)
Example page_updated_is_synchronised :
  match Service.webhook Samples.config_open
          (Samples.request_of "com.adobe.aem.page.updated" Samples.metadata_approved)
          Samples.env_ok Samples.world_empty with
  | (Ok (Service.ReplyProcessed _ (Service.Report rp)), w') =>
      rp_status rp = Completed
      /\ List.map api_operation (outbound w') = [None; Some Update]
  | _ => False
  end.
Proof. vm_compute. repeat split. Qed.

(** The failing input of C2 in the event processor: a delete that the API
    answers with 503 is recorded without a retryable flag, an update with
    the flag set. *)
Example removed_event_503_not_classified :
  match Service.processAssetEvent Samples.config_open
          (Samples.event_of "com.adobe.aem.assets.removed" Samples.metadata_approved)
          (Samples.env_api 503) Samples.world_empty with
  | (Ok (Service.Report rp), w') =>
      rp_status rp = Failed /\ List.map ee_retryable (errors rp) = [None]
  | _ => False
  end.
Proof. vm_compute. repeat split. Qed.

(** In the action a 404 on create is classified retryable. *)
Example action_404_retryable :
  match Action.processSynchronization
          (Samples.action_event_of "com.adobe.aem.assets.created" Samples.metadata_approved)
          (Samples.params_of "com.adobe.aem.assets.created" Samples.metadata_approved)
          (Samples.env_api 404) Samples.world_empty with
  | (Ok rp, w') =>
      rp_status rp = Failed /\ List.map ee_retryable (errors rp) = [Some true]
  | _ => False
  end.
Proof. vm_compute. repeat split. Qed.

(* ===================================================================== *)
(** * Strings, paths and the event filter *)
(* ===================================================================== *)

Import Props.

Lemma append_empty (s : string) : ("" ++ s)%string = s.
Proof. reflexivity. Qed.

Lemma append_String (c : ascii) (a b : string) :
  (String c a ++ b)%string = String c (a ++ b)%string.
Proof. reflexivity. Qed.

Lemma startsWith_true_iff (p s : string) :
  startsWith p s = true <-> exists b, s = (p ++ b)%string.
Proof.
  revert s. induction p as [| a p IH]; intros s; cbn [startsWith].
  - split; [intros _; exists s; reflexivity | reflexivity].
  - destruct s as [| b s].
    + split; [discriminate | intros (x & Hx); discriminate].
    + destruct (Ascii.eqb_spec a b) as [-> | Hne].
      * rewrite IH. split; intros (x & Hx); exists x;
          [rewrite Hx | rewrite append_String in Hx; inversion Hx]; reflexivity.
      * split; [discriminate |].
        intros (x & Hx). rewrite append_String in Hx. inversion Hx. congruence.
Qed.

Lemma includes_unfold (p s : string) :
  includes p s = startsWith p s || match s with
                                   | EmptyString => false
                                   | String _ s' => includes p s'
                                   end.
Proof. destruct s; reflexivity. Qed.

(** [s.includes(p)] holds exactly when [p] occurs somewhere in [s]. *)
Lemma includes_true_iff (p s : string) :
  includes p s = true <-> exists a b, s = (a ++ p ++ b)%string.
Proof.
  induction s as [| c s IH]; rewrite includes_unfold, orb_true_iff.
  - split.
    + intros [H | H]; [| discriminate]. apply startsWith_true_iff in H as (b & Hb).
      exists "", b. exact Hb.
    + intros (a & b & H). left. apply startsWith_true_iff.
      destruct a; [exists b; exact H | discriminate].
  - rewrite IH, startsWith_true_iff. split.
    + intros [(b & Hb) | (a & b & Hab)]; [exists "", b; exact Hb |].
      exists (String c a), b. rewrite append_String, Hab. reflexivity.
    + intros (a & b & H). destruct a as [| x a]; [left; exists b; exact H |].
      right. rewrite append_String in H. inversion H. eauto.
Qed.

Lemma split_not_nil (sep : ascii) (s : string) : split sep s <> [].
Proof.
  destruct s as [| c s]; cbn [split]; [discriminate |].
  destruct (Ascii.eqb c sep); [discriminate |]. destruct (split sep s); discriminate.
Qed.

(** Splitting at a separator splits the two sides. *)
Lemma split_app (sep : ascii) (a b : string) :
  split sep (a ++ String sep b)%string = split sep a ++ split sep b.
Proof.
  induction a as [| c a IH]; rewrite ?append_empty, ?append_String; cbn [split].
  - rewrite Ascii.eqb_refl. reflexivity.
  - rewrite IH. destruct (Ascii.eqb c sep); [reflexivity |].
    pose proof (split_not_nil sep a) as Hne.
    destruct (split sep a) as [| seg segs]; [contradiction | reflexivity].
Qed.

Lemma split_lacks (sep : ascii) (s : string) : lacks sep s = true -> split sep s = [s].
Proof.
  induction s as [| c s IH]; cbn [lacks split]; [reflexivity |].
  rewrite andb_true_iff, negb_true_iff. intros (Hc & Hs). rewrite Hc, IH by exact Hs.
  reflexivity.
Qed.

Lemma lacks_app (c : ascii) (a b : string) :
  lacks c (a ++ b)%string = lacks c a && lacks c b.
Proof.
  induction a as [| x a IH]; rewrite ?append_empty, ?append_String; cbn [lacks];
    [reflexivity |].
  rewrite IH, andb_assoc. reflexivity.
Qed.

Lemma no_slash_lacks (s : string) : no_slash s = lacks "/" s.
Proof. induction s as [| c s IH]; cbn [no_slash lacks]; [| rewrite IH]; reflexivity. Qed.

(** A string has no separator, or a last one. *)
Lemma last_separator (sep : ascii) (s : string) :
  lacks sep s = true \/
  exists a b, s = (a ++ String sep b)%string /\ lacks sep b = true.
Proof.
  induction s as [| c s IH]; [left; reflexivity |].
  destruct IH as [Hs | (a & b & -> & Hb)].
  - cbn [lacks]. destruct (Ascii.eqb_spec c sep) as [-> | Hne]; [| left; exact Hs].
    right. exists "", s. auto.
  - right. exists (String c a), b. auto.
Qed.

Lemma pop_split_app (sep : ascii) (a b : string) :
  lacks sep b = true -> pop (split sep (a ++ String sep b)%string) = b.
Proof.
  intros Hb. unfold pop. rewrite split_app, (split_lacks sep b Hb). apply List.last_last.
Qed.

(** Joining the pieces of a split with the separator gives the string back. *)
Lemma concat_split (sep : ascii) (s : string) :
  String.concat (String sep "") (split sep s) = s.
Proof.
  induction s as [| c s IH]; cbn [split]; [reflexivity |].
  pose proof (split_not_nil sep s) as Hne.
  destruct (Ascii.eqb_spec c sep) as [-> | Hc].
  - destruct (split sep s) as [| seg segs]; [contradiction |].
    cbn [String.concat]. cbn in IH |- *. rewrite IH. reflexivity.
  - destruct (split sep s) as [| seg segs]; [contradiction |].
    destruct segs as [| seg' segs]; cbn in IH |- *; rewrite <- IH; reflexivity.
Qed.

(** The last piece of a split does not contain the separator. *)
Lemma pop_split_lacks (sep : ascii) (s : string) :
  exists piece, pop (split sep s) = piece /\ lacks sep piece = true.
Proof.
  destruct (last_separator sep s) as [Hs | (a & b & -> & Hb)].
  - exists s. rewrite (split_lacks sep s Hs). auto.
  - exists b. rewrite pop_split_app by exact Hb. auto.
Qed.

(** X1: [shouldProcessEvent] accepts exactly the event types in which one
    of the words updated, completed, created, deleted, removed occurs,
    whatever stands before and after it. *)
Theorem shouldProcessEvent_iff_word_occurs (eventType : string) :
  Service.shouldProcessEvent eventType = true <->
  exists word before after,
    word ∈ filter_words /\ eventType = (before ++ word ++ after)%string.
Proof.
  rewrite shouldProcessEvent_substrings, !orb_true_iff, !includes_true_iff.
  unfold filter_words. split.
  - intros [[[[(a & b & H) | (a & b & H)] | (a & b & H)] | (a & b & H)] | (a & b & H)];
      eexists _, a, b; (split; [| exact H]); set_solver.
  - intros (word & a & b & Hw & ->).
    repeat (apply elem_of_cons in Hw as [-> | Hw]; [eauto 10 |]).
    inversion Hw.
Qed.

(** X2: the file name is what follows the last slash of the path, or the
    whole path when it has no slash; it never contains a slash. *)
Theorem extractFileNameFromPath_last_segment (p : string) :
  exists name, extractFileNameFromPath (Some p) = Ok name
               /\ lacks "/" name = true
               /\ ((p = name /\ lacks "/" p = true)
                   \/ exists dir, p = (dir ++ "/" ++ name)%string).
Proof.
  unfold extractFileNameFromPath.
  destruct (last_separator "/" p) as [Hp | (dir & name & -> & Hname)].
  - exists p. rewrite (split_lacks "/" p Hp). auto.
  - exists name. rewrite pop_split_app by exact Hname. eauto.
Qed.

Lemma strip_extension_lacks (s : string) : lacks "." s = true -> strip_extension s = s.
Proof. intros H. unfold strip_extension. rewrite (split_lacks "." s H). reflexivity. Qed.

Lemma strip_extension_app (base ext : string) :
  lacks "." ext = true -> lacks "/" ext = true ->
  strip_extension (base ++ String "." ext)%string
  = if String.eqb ext "" then (base ++ String "." ext)%string else base.
Proof.
  intros Hdot Hslash. unfold strip_extension.
  rewrite split_app, (split_lacks "." ext Hdot), List.rev_app_distr. cbn [List.rev List.app].
  pose proof (split_not_nil "." base) as Hne.
  destruct (List.rev (split "." base)) as [| seg segs] eqn:Hrev.
  { apply (f_equal (@List.rev string)) in Hrev. rewrite List.rev_involutive in Hrev.
    contradiction. }
  rewrite no_slash_lacks, Hslash, andb_true_r.
  destruct (String.eqb ext ""); [reflexivity |]. cbn [negb].
  change (List.rev segs ++ [seg]) with (List.rev (seg :: segs)).
  rewrite <- Hrev, List.rev_involutive. apply concat_split.
Qed.

(** X3: the asset id is the file name without its last extension: what
    stands before the last dot of the file name, provided something follows
    that dot; a file name without a dot, or ending in one, is kept whole. *)
Theorem extractAssetIdFromPath_strips_last_extension (p : string) :
  exists name id,
    extractFileNameFromPath (Some p) = Ok name
    /\ extractAssetIdFromPath (Some p) = Ok id
    /\ ((id = name /\ (lacks "." name = true \/ exists base, name = (base ++ ".")%string))
        \/ exists ext, name = (id ++ "." ++ ext)%string
                       /\ ext <> "" /\ lacks "." ext = true).
Proof.
  destruct (pop_split_lacks "/" p) as (name & Hpop & Hslash).
  exists name. unfold extractAssetIdFromPath, extractFileNameFromPath. rewrite Hpop.
  destruct (last_separator "." name) as [Hdot | (base & ext & -> & Hext)].
  - exists name. rewrite strip_extension_lacks by exact Hdot.
    split; [reflexivity |]. split; [reflexivity |]. left. auto.
  - rewrite lacks_app in Hslash. apply andb_true_iff in Hslash as (_ & Hslash).
    cbn in Hslash. rewrite strip_extension_app by assumption.
    destruct (String.eqb_spec ext "") as [-> | Hne].
    + eexists. split; [reflexivity |]. split; [reflexivity |]. left. eauto.
    + exists base. split; [reflexivity |]. split; [reflexivity |]. right. exists ext. auto.
Qed.

(* ===================================================================== *)
(** * The transformer's helpers *)
(* ===================================================================== *)

(** X4: a MIME type derived from the path is never missing, and its media
    type is image, video, document, text or other (never audio or unknown),
    "other" standing for every extension outside the table; only the
    extensions [constructor] and [__proto__], which the table inherits from
    [Object.prototype], make [getMediaType] throw. *)
Theorem path_mime_media_type (p : string) :
  exists mime, getMimeTypeFromPath (Some p) = Ok mime /\
    ((exists ext, mime = MimeInherited ext
                  /\ (ext = "constructor" \/ ext = "__proto__")
                  /\ getMediaType (Some mime) = Throw TypeError)
     \/ (exists s media, mime = MimeVal (MStr s)
                         /\ getMediaType (Some mime) = Ok media
                         /\ media ∈ ["image"; "video"; "document"; "text"; "other"]
                         /\ (media = "other" <-> s = "application/octet-stream"))).
Proof.
  unfold getMimeTypeFromPath. eexists. split; [reflexivity |].
  generalize (toLowerCase (pop (split "." p))). intros ext.
  unfold mimeTypes_get, mimeTypes. cbn [own_property].
  repeat (destruct (String.eqb _ ext);
          [right; eexists _, _; split; [reflexivity |]; split; [reflexivity |];
           split; [set_solver | split; discriminate] |]).
  destruct (String.eqb_spec ext "constructor") as [-> | Hc]; cbn [orb].
  { left. eexists. split; [reflexivity |]. auto. }
  destruct (String.eqb_spec ext "__proto__") as [-> | Hp].
  { left. eexists. split; [reflexivity |]. auto. }
  right. eexists _, _. split; [reflexivity |]. split; [reflexivity |].
  split; [set_solver | split; reflexivity].
Qed.

Lemma extractCustomMetadata_lookup (m : Metadata) (k : string) :
  extractCustomMetadata m !! k
  = if is_custom_key k && negb (String.eqb k "__proto__") then m !! k else None.
Proof.
  unfold extractCustomMetadata. revert k.
  apply (map_fold_weak_ind
           (fun (r m : Metadata) =>
              forall k, r !! k = if is_custom_key k && negb (String.eqb k "__proto__")
                                 then m !! k else None)).
  - intros k. rewrite !lookup_empty. destruct (_ && _); reflexivity.
  - intros i x m' r Hi IH k.
    destruct (decide (k = i)) as [-> | Hne].
    + rewrite lookup_insert_eq. unfold assign.
      destruct (is_custom_key i) eqn:Hc; cbn [andb].
      * destruct (String.eqb_spec i "__proto__") as [-> | Hp]; cbn [negb].
        -- rewrite IH. reflexivity.
        -- rewrite lookup_insert_eq. reflexivity.
      * rewrite IH, Hc. reflexivity.
    + rewrite lookup_insert_ne by congruence.
      assert (Hr : (if is_custom_key i then assign r i x else r) !! k = r !! k).
      { destruct (is_custom_key i); [| reflexivity]. unfold assign.
        destruct (String.eqb i "__proto__"); [reflexivity |].
        rewrite lookup_insert_ne by congruence. reflexivity. }
      rewrite Hr. apply IH.
Qed.

(** X5: the custom metadata are a part of the source metadata, copied
    verbatim: a key is kept exactly when it is not a standard field, does
    not start with [jcr:] or [rep:] and is not [__proto__] (assigning to that
    key of an object literal adds no property).  Fields that the transformer
    reads under other names ([dam:tags], [dam:category],
    [dam:approvalStatus], [dam:created], [dam:lastModified]) are therefore
    copied too, and extracting twice changes nothing. *)
Theorem extractCustomMetadata_keeps_non_standard (m : Metadata) :
  (extractCustomMetadata m ⊆ m)
  /\ (forall k v, extractCustomMetadata m !! k = Some v <->
                  m !! k = Some v /\ (k ∉ standardFields)
                  /\ startsWith "jcr:" k = false /\ startsWith "rep:" k = false
                  /\ k <> "__proto__")
  /\ extractCustomMetadata m !! "__proto__" = None
  /\ (forall k, k ∈ read_but_custom -> extractCustomMetadata m !! k = m !! k)
  /\ extractCustomMetadata (extractCustomMetadata m) = extractCustomMetadata m.
Proof.
  split; [| split; [| split; [| split]]].
  - apply map_subseteq_spec. intros k v. rewrite extractCustomMetadata_lookup.
    destruct (_ && _); [auto | discriminate].
  - intros k v. rewrite extractCustomMetadata_lookup. unfold is_custom_key.
    destruct (String.eqb_spec k "__proto__") as [Hp | Hp];
      destruct (startsWith "jcr:" k), (startsWith "rep:" k);
      (destruct (decide (k ∈ standardFields)) as [Hin | Hout];
       [rewrite bool_decide_eq_true_2 by exact Hin
       | rewrite bool_decide_eq_false_2 by exact Hout]);
      cbn [negb andb];
      (split; [intros H; try discriminate; auto | intros (H & Hk & H1 & H2 & H3)]);
      try discriminate; try contradiction; exact H.
  - rewrite extractCustomMetadata_lookup. reflexivity.
  - intros k Hk. rewrite extractCustomMetadata_lookup. unfold read_but_custom in Hk.
    repeat (apply elem_of_cons in Hk as [-> | Hk]; [reflexivity |]). inversion Hk.
  - apply map_eq. intros k. rewrite !extractCustomMetadata_lookup.
    destruct (_ && _); reflexivity.
Qed.

Lemma Set_add_all_fresh (l set : list Scalar) :
  NoDup (set ++ l) -> Set_add_all set l = set ++ l.
Proof.
  revert set. induction l as [| x l IH]; intros set Hnd; cbn [Set_add_all].
  - rewrite app_nil_r. reflexivity.
  - assert (Hx : x ∉ set).
    { apply NoDup_app in Hnd as (_ & Hdisj & _). intros Hin.
      apply (Hdisj x Hin). left. }
    rewrite bool_decide_eq_false_2 by exact Hx.
    rewrite IH; rewrite <- app_assoc; [reflexivity | exact Hnd].
Qed.

(** X6: removing duplicates changes a list exactly when it has some: a list
    without duplicates comes back unchanged, in the same order. *)
Theorem spread_Set_fixes_exactly_NoDup (l : list Scalar) :
  spread_Set l = l <-> NoDup l.
Proof.
  split.
  - intros H. rewrite <- H. apply spread_Set_NoDup.
  - intros H. unfold spread_Set. apply (Set_add_all_fresh l []). exact H.
Qed.

Lemma push_field_values (m : Metadata) (key : string) (acc : list Scalar) :
  push_field m key acc = acc ++ field_values m key.
Proof.
  unfold push_field, field_values.
  destruct (m !! key) as [v |]; [destruct (truthy v) |]; rewrite ?app_nil_r; reflexivity.
Qed.

(** X7: merging loses and invents nothing: a value is among the tags
    (categories, keywords) exactly when one of the source fields is truthy
    and holds it, as the scalar itself or as an element of the array. *)
Theorem extracted_lists_members (m : Metadata) (x : Scalar) :
  (x ∈ extractTags m <-> x ∈ field_values m "cq:tags" \/ x ∈ field_values m "dam:tags")
  /\ (x ∈ extractCategories m <->
      x ∈ field_values m "dc:subject" \/ x ∈ field_values m "dam:category")
  /\ (x ∈ extractKeywords m <-> x ∈ field_values m "dc:keywords").
Proof.
  unfold extractTags, extractCategories, extractKeywords.
  rewrite !spread_Set_elem_of, !push_field_values, !app_nil_l, !elem_of_app. tauto.
Qed.

(** X8: an asset that passes the approval gate only through the fourth
    status field, [jcr:content/metadata/dam:status], is transformed with
    [approvalStatus] "pending": the transformer reads only the first three. *)
Theorem approved_by_fourth_field_is_pending (m : Metadata) (s : string) :
  (forall f, f ∈ approvalFields3 -> not_approving (m !! f)) ->
  m !! "jcr:content/metadata/dam:status" = Some (MStr s) ->
  toLowerCase s = "approved" \/ toLowerCase s = "published" ->
  Service.isAssetApproved (Some m) = Ok true
  /\ Action.isAssetApproved m = Ok true
  /\ getApprovalStatus m = Ok "pending".
Proof.
  intros Hthree Hfourth Hs.
  assert (H3 : first_approved m approvalFields3 = Ok false)
    by (apply first_approved_false_iff; exact Hthree).
  assert (H4 : approval_test (m !! "jcr:content/metadata/dam:status") = Ok true).
  { rewrite Hfourth. cbn.
    destruct (String.eqb_spec s "") as [-> | _]; [destruct Hs; discriminate |]. cbn.
    destruct Hs as [-> | ->]; reflexivity. }
  assert (Hgate : first_approved m Service.approvalFields = Ok true).
  { unfold approvalFields3 in H3. unfold Service.approvalFields. cbn in H3 |- *.
    destruct (approval_test (m !! "dam:status")) as [[|] | e1]; try discriminate.
    destruct (approval_test (m !! "dam:approvalStatus")) as [[|] | e2]; try discriminate.
    destruct (approval_test (m !! "cq:workflowStatus")) as [[|] | e3]; try discriminate.
    rewrite H4. reflexivity. }
  split; [exact Hgate |]. split; [rewrite action_isAssetApproved_loop; exact Hgate |].
  unfold getApprovalStatus. rewrite H3. reflexivity.
Qed.

Lemma approved_by_fourth_field_is_pending_witness :
  Service.isAssetApproved
    (Some (<["jcr:content/metadata/dam:status" := MStr "Approved"]> Samples.metadata_draft))
  = Ok true
  /\ Action.isAssetApproved
       (<["jcr:content/metadata/dam:status" := MStr "Approved"]> Samples.metadata_draft)
     = Ok true
  /\ getApprovalStatus
       (<["jcr:content/metadata/dam:status" := MStr "Approved"]> Samples.metadata_draft)
     = Ok "pending".
Proof.
  apply (approved_by_fourth_field_is_pending
           (<["jcr:content/metadata/dam:status" := MStr "Approved"]> Samples.metadata_draft)
           "Approved").
  - intros f Hf. unfold approvalFields3 in Hf.
    apply elem_of_cons in Hf as [-> | Hf].
    { right. exists "draft". repeat split; discriminate. }
    apply elem_of_cons in Hf as [-> | Hf]; [exact I |].
    apply elem_of_cons in Hf as [-> | Hf]; [exact I |]. inversion Hf.
  - reflexivity.
  - left. reflexivity.
Defined.

(** X9: the two transformers agree: on the same metadata, path, event type
    and clock the action's [transformForMLE] throws exactly when the
    service's does, and else returns the service's record without
    [publicUrl], [apiVersion] and [customMetadata] and with the action's
    fixed asset URL. *)
Theorem transformers_agree (cfg : Service.Config) (m : Metadata)
    (assetPath eventType : option string) (env : Env) (w : World) :
  match Service.transformForMLE cfg m assetPath eventType env w with
  | (Ok d, w') =>
      Action.transformForMLE m assetPath eventType env w = (Ok (as_action_output d), w')
  | (Throw e, w') =>
      Action.transformForMLE m assetPath eventType env w = (Throw e, w')
  end.
Proof.
  unfold Service.transformForMLE, Action.transformForMLE. rewrite !run_bind, !run_lift.
  destruct (mimeType_of m assetPath) as [mime | e]; [| reflexivity].
  rewrite !run_bind, !run_lift.
  destruct (assetId_of m assetPath) as [aid | e]; [| reflexivity].
  rewrite !run_bind, !run_lift.
  destruct (getMediaType (Some mime)) as [media | e]; [| reflexivity].
  rewrite !run_bind, !run_lift.
  destruct (extractFileNameFromPath assetPath) as [file | e]; [| reflexivity].
  rewrite !run_bind, !run_lift.
  destruct (getApprovalStatus m) as [approval | e]; [| reflexivity].
  reflexivity.
Qed.

(* ===================================================================== *)
(** * The boundaries: the webhook and the action's [main] *)
(* ===================================================================== *)

(** X10: the webhook handler never lets an exception escape: whatever the
    configuration, request, network and clock, it answers with one of the
    four replies. *)
Theorem webhook_always_replies (cfg : Service.Config) (req : Service.WebhookRequest)
    (env : Env) (w : World) :
  exists reply w', Service.webhook cfg req env w = (Ok reply, w').
Proof.
  unfold Service.webhook. rewrite run_try_catch.
  destruct (@mbind M _ _ _ _ _ env w) as [[reply | e] w1]; [eauto |].
  rewrite run_bind. cbn. eauto.
Qed.

Lemma signature_gate_false_iff (cfg : Service.Config) (req : Service.WebhookRequest) :
  Service.signature_gate cfg req = Ok false <->
  exists secret,
    Service.non_empty (Service.aemWebhookSecret cfg) = Some secret
    /\ (Service.non_empty (Service.signatureHeader req) = None
        \/ exists signature,
             Service.non_empty (Service.signatureHeader req) = Some signature
             /\ List.length (Crypto.buffer_from_hex signature) = 32%nat
             /\ Crypto.buffer_from_hex signature
                <> Crypto.hmac_sha256 (Crypto.bytes_of_string secret)
                     (Crypto.bytes_of_string (Service.bodyJson req))).
Proof.
  unfold Service.signature_gate.
  destruct (Service.non_empty (Service.aemWebhookSecret cfg)) as [secret |].
  - destruct (Service.non_empty (Service.signatureHeader req)) as [signature |].
    + rewrite verifyWebhookSignature_cases.
      destruct (Nat.eqb_spec (List.length (Crypto.buffer_from_hex signature)) 32) as [Hl | Hl].
      * case_bool_decide as Heq; split.
        -- discriminate.
        -- intros (s & Hs & [H | (sig & Hsig & _ & Hne)]); [discriminate |].
           inversion Hs; inversion Hsig; subst. contradiction.
        -- intros _. exists secret. split; [reflexivity |]. right. exists signature. auto.
        -- reflexivity.
      * split; [discriminate |].
        intros (s & Hs & [H | (sig & Hsig & Hlen & _)]); [discriminate |].
        inversion Hsig; subst. contradiction.
    + split; [| reflexivity]. intros _. exists secret. auto.
  - split; [discriminate | intros (s & Hs & _); discriminate].
Qed.

(** X11: the webhook answers 401 exactly when a secret is configured and
    the signature header is missing or empty, or decodes to 32 bytes that are
    not the HMAC of the serialised body; nothing is read, sent or stored
    before that answer. *)
Theorem webhook_401_iff (cfg : Service.Config) (req : Service.WebhookRequest)
    (env : Env) (w : World) :
  (fst (Service.webhook cfg req env w) = Ok Service.Reply401 <->
   exists secret,
     Service.non_empty (Service.aemWebhookSecret cfg) = Some secret
     /\ (Service.non_empty (Service.signatureHeader req) = None
         \/ exists signature,
              Service.non_empty (Service.signatureHeader req) = Some signature
              /\ List.length (Crypto.buffer_from_hex signature) = 32%nat
              /\ Crypto.buffer_from_hex signature
                 <> Crypto.hmac_sha256 (Crypto.bytes_of_string secret)
                      (Crypto.bytes_of_string (Service.bodyJson req))))
  /\ (fst (Service.webhook cfg req env w) = Ok Service.Reply401 ->
      snd (Service.webhook cfg req env w) = w).
Proof.
  rewrite <- signature_gate_false_iff.
  unfold Service.webhook. rewrite run_try_catch, run_bind, run_lift.
  destruct (Service.signature_gate cfg req) as [[|] | e];
    cbn -[Service.processAssetEvent Service.shouldProcessEvent].
  - destruct (Service.non_empty (Service.event_type (Service.body req))) as [et |].
    + destruct (Service.shouldProcessEvent et); cbn -[Service.processAssetEvent].
      * rewrite run_bind.
        destruct (Service.processAssetEvent cfg (Service.body req) env w) as [[r | e] w'];
          cbn; (split; [split; intros H; discriminate | intros H; discriminate]).
      * split; [split; intros H; discriminate | intros H; discriminate].
    + cbn. split; [split; intros H; discriminate | intros H; discriminate].
  - split; [split; intros H; reflexivity | intros H; reflexivity].
  - split; [split; intros H; discriminate | intros H; discriminate].
Qed.

(** X12: called with a parameter object, the action's [main] lets no
    exception escape: however its requests are settled, it returns a
    response object.  Called with [undefined] or [null] it does throw: the
    logger is created before the [try], and reading [LOG_LEVEL] fails with a
    TypeError before the clock is read or anything is sent. *)
Theorem main_responds_unless_nullish (params : Action.Params) (env : Env) (w : World) :
  (exists response w', Action.main (Action.Object params) env w = (Ok response, w'))
  /\ Action.main Action.Undefined env w = (Throw TypeError, w)
  /\ Action.main Action.Null env w = (Throw TypeError, w).
Proof.
  split; [| split; reflexivity].
  unfold Action.main. cbv zeta. rewrite run_try_catch.
  match goal with
  | |- context [match ?body env w with _ => _ end] =>
      destruct (body env w) as [[response | e] w1]
  end; [eauto |].
  unfold Action.createErrorResponse. rewrite run_bind. cbn. eauto.
Qed.

Lemma is_set_non_empty (s : option string) :
  Action.is_set s = true <-> exists x, s = Some x /\ x <> "".
Proof.
  destruct s as [x |]; cbn.
  - destruct (String.eqb_spec x "") as [-> | Hx]; cbn.
    + split; [discriminate | intros (y & Hy & Hne); inversion Hy; congruence].
    + split; [eauto | reflexivity].
  - split; [discriminate | intros (y & Hy & _); discriminate].
Qed.

Lemma validateParams_accepts_iff (params : Action.Params) :
  Action.validateParams params = None <->
  Action.is_set (Action.MLE_API_URL params) = true
  /\ Action.is_set (Action.OAUTH_CLIENT_ID params) = true
  /\ Action.is_set (Action.OAUTH_CLIENT_SECRET params) = true
  /\ Action.is_set (Action.OAUTH_TOKEN_URL params) = true
  /\ exists d p, Action.p_data params = Some d /\ Action.payload d = Some p.
Proof.
  unfold Action.validateParams.
  destruct (Action.is_set (Action.MLE_API_URL params)); cbn [negb];
    [| split; [discriminate | intros (H & _); discriminate]].
  destruct (Action.is_set (Action.OAUTH_CLIENT_ID params)); cbn [negb];
    [| split; [discriminate | intros (_ & H & _); discriminate]].
  destruct (Action.is_set (Action.OAUTH_CLIENT_SECRET params)); cbn [negb];
    [| split; [discriminate | intros (_ & _ & H & _); discriminate]].
  destruct (Action.is_set (Action.OAUTH_TOKEN_URL params)); cbn [negb];
    [| split; [discriminate | intros (_ & _ & _ & H & _); discriminate]].
  destruct (Action.p_data params) as [d |];
    [| split; [discriminate | intros (_ & _ & _ & _ & d & p & H & _); discriminate]].
  destruct (Action.payload d) as [p |] eqn:Hpayload.
  - split; [| reflexivity]. intros _. repeat (split; [reflexivity |]). exists d, p. auto.
  - split; [discriminate |].
    intros (_ & _ & _ & _ & d' & p & Hd & Hp). inversion Hd; subst. congruence.
Qed.

(** X13: [validateParams] accepts exactly the invocations in which the four
    connection parameters are non-empty and the event carries a payload; any
    other invocation is answered 400, with one clock reading and no request. *)
Theorem main_rejects_invalid_params (params : Action.Params) (env : Env) (w : World) :
  (Action.validateParams params = None <->
   Action.is_set (Action.MLE_API_URL params) = true
   /\ Action.is_set (Action.OAUTH_CLIENT_ID params) = true
   /\ Action.is_set (Action.OAUTH_CLIENT_SECRET params) = true
   /\ Action.is_set (Action.OAUTH_TOKEN_URL params) = true
   /\ exists d p, Action.p_data params = Some d /\ Action.payload d = Some p)
  /\ (forall message,
        Action.validateParams params = Some message ->
        Action.main (Action.Object params) env w
        = (Ok (Action.ErrorResponse 400 (Action.Invalid message) (clock env (clockReads w))),
           tick w)).
Proof.
  split.
  - apply validateParams_accepts_iff.
  - intros message Hinvalid. unfold Action.main. cbv zeta. rewrite run_try_catch, Hinvalid.
    reflexivity.
Qed.

(** Once its asset id is known, [processSynchronization] returns a report
    of one of the two kinds; it does not throw. *)
Lemma processSynchronization_returns (ev : Action.EventData) (params : Action.Params)
    (aid : MetaValue) (env : Env) (w : World) :
  assetId_of (Action.ev_metadata ev) (Action.ev_assetPath ev) = Ok aid ->
  exists rp w', Action.processSynchronization ev params env w = (Ok rp, w')
                /\ ((exists r, rp = record_result aid r)
                    \/ exists e, rp = record_exception aid e).
Proof.
  intros Haid. unfold Action.processSynchronization.
  rewrite run_bind, run_lift, Haid, run_try_catch, run_bind.
  destruct (Action.transformForMLE _ _ _ env w) as [[d | e] w1]; [| cbn; eauto 6].
  rewrite run_bind, run_lift.
  destruct (Action.ev_eventType ev) as [et |]; cbn [Action.the_string]; [| cbn; eauto 6].
  rewrite run_bind, action_dispatch_chain.
  destruct (action_perform_returns params (spec_operation et) d env w1) as (r & w2 & ->).
  cbn. eauto 6.
Qed.

Lemma service_sync_block_returns (cfg : Service.Config) (ev : Service.EventData)
    (m : Metadata) (aid : MetaValue) (env : Env) (w : World) :
  Service.ev_metadata ev = Some m ->
  Service.isAssetApproved (Some m) = Ok true ->
  assetId_of m (Service.ev_assetPath ev) = Ok aid ->
  exists rp w', Service.processAssetEvent cfg ev env w = (Ok (Service.Report rp), w')
                /\ ((exists r, rp = record_result aid r)
                    \/ exists e, rp = record_exception aid e).
Proof.
  intros Hm Happ Haid. unfold Service.processAssetEvent.
  rewrite Hm, run_bind, run_lift, Happ. cbn [negb].
  rewrite run_bind, run_lift, Haid, run_bind, run_try_catch, run_bind.
  destruct (Service.transformForMLE _ _ _ _ env w) as [[d | e] w1]; [| cbn; eauto 6].
  rewrite run_bind, run_lift.
  destruct (Service.ev_eventType ev) as [et |]; cbn [Service.the_string]; [| cbn; eauto 6].
  rewrite run_bind, service_dispatch_chain.
  destruct (service_perform_returns (spec_operation et) d env w1) as (r & w2 & ->).
  cbn. eauto 6.
Qed.

Lemma record_result_shape (aid : MetaValue) (r : SyncResult) :
  report_shape (record_result aid r).
Proof.
  unfold report_shape, record_result. cbn. destruct (success r) eqn:Hs.
  - left. eauto.
  - right. left. eauto.
Qed.

Lemma record_exception_shape (aid : MetaValue) (e : Exn) :
  report_shape (record_exception aid e).
Proof. right. right. cbn. eauto. Qed.

(** X14: the action answers "completed" for every approved event whose
    asset id can be derived, whatever becomes of the synchronisation: the
    report inside may say completed, failed or error. *)
Theorem main_completed_whatever_the_report
    (params : Action.Params) (d : Action.EventEnvelope) (p : Action.Payload)
    (aid : MetaValue) (env : Env) (w : World) :
  Action.validateParams params = None ->
  Action.p_data params = Some d -> Action.payload d = Some p ->
  Action.isAssetApproved (Action.metadata_of p) = Ok true ->
  assetId_of (Action.metadata_of p) (js_or_str (Action.path p) (Action.pl_assetPath p))
  = Ok aid ->
  exists report ts w',
    Action.main (Action.Object params) env w
    = (Ok (Action.SuccessResponse "completed" "Metadata synchronized successfully" ts
                                  (Some report)), w')
    /\ rp_assetId report = aid /\ report_shape report.
Proof.
  intros Hvalid Hd Hp Happ Haid. unfold Action.main. cbv zeta. rewrite run_try_catch, Hvalid, run_bind.
  unfold Action.extractEventData. rewrite Hd, Hp, run_bind.
  destruct (Action.non_empty (Action.env_timestamp d)) as [ts |].
  - rewrite !run_ret, run_bind, run_lift. cbn [Action.ev_metadata]. rewrite Happ.
    cbn [negb]. rewrite run_bind.
    destruct (processSynchronization_returns
                (Action.mkEvent (js_or_str (Action.path p) (Action.pl_assetPath p))
                   (Action.metadata_of p) (Action.p_type params) (Action.Given ts))
                params aid env w Haid) as (rp & w' & -> & Hkind).
    cbn. eexists _, _, _. split; [reflexivity |].
    destruct Hkind as [(r & ->) | (e & ->)];
      (split; [reflexivity |]); [apply record_result_shape | apply record_exception_shape].
  - rewrite run_bind. unfold date_now at 1. cbv beta iota.
    rewrite !run_ret, run_bind, run_lift. cbn [Action.ev_metadata]. rewrite Happ.
    cbn [negb]. rewrite run_bind.
    destruct (processSynchronization_returns
                (Action.mkEvent (js_or_str (Action.path p) (Action.pl_assetPath p))
                   (Action.metadata_of p) (Action.p_type params)
                   (Action.Clock (clock env (clockReads w))))
                params aid env (tick w) Haid) as (rp & w' & -> & Hkind).
    cbn. eexists _, _, _. split; [reflexivity |].
    destruct Hkind as [(r & ->) | (e & ->)];
      (split; [reflexivity |]); [apply record_result_shape | apply record_exception_shape].
Qed.

Lemma main_completed_whatever_the_report_witness :
  exists report ts w',
    Action.main (Action.Object (Samples.params_of "com.adobe.aem.assets.updated"
                                                     Samples.metadata_approved))
                Samples.env_down Samples.world_empty
    = (Ok (Action.SuccessResponse "completed" "Metadata synchronized successfully" ts
                                  (Some report)), w')
    /\ rp_assetId report = MStr "u1" /\ report_shape report.
Proof.
  eapply (main_completed_whatever_the_report
            (Samples.params_of "com.adobe.aem.assets.updated" Samples.metadata_approved));
    reflexivity.
Defined.

(** With the network down the report inside that "completed" answer says
    failed. *)
Example main_completed_but_failed :
  match Action.main (Action.Object (Samples.params_of "com.adobe.aem.assets.updated"
                                                      Samples.metadata_approved))
                    Samples.env_down Samples.world_empty with
  | (Ok (Action.SuccessResponse status _ _ (Some report)), _) =>
      status = "completed" /\ rp_status report = Failed
  | _ => False
  end.
Proof. vm_compute. split; reflexivity. Qed.

(** X15: every report has one of three shapes: completed with no error and
    a successful result; failed with the unsuccessful result and exactly one
    error entry that repeats its error and retryable flag; or error with no
    result and exactly one entry marked retryable.  The status is never left
    at "processing". *)
Theorem reports_have_one_of_three_shapes
    (cfg : Service.Config) (ev : Service.EventData)
    (aev : Action.EventData) (params : Action.Params) (env : Env) (w : World) :
  match fst (Service.processAssetEvent cfg ev env w) with
  | Ok (Service.Report rp) => report_shape rp
  | _ => True
  end
  /\ match fst (Action.processSynchronization aev params env w) with
     | Ok rp => report_shape rp
     | Throw _ => True
     end.
Proof.
  split.
  - destruct (Service.processAssetEvent cfg ev env w) as [[[| rp] | e] w'] eqn:Hrun;
      cbn [fst]; try exact I.
    unfold Service.processAssetEvent in Hrun. rewrite run_bind, run_lift in Hrun.
    destruct (Service.isAssetApproved (Service.ev_metadata ev)) as [[|] | e] eqn:Happ;
      cbn [negb] in Hrun; try discriminate.
    destruct (Service.ev_metadata ev) as [m |] eqn:Hm; [| discriminate].
    rewrite run_bind, run_lift in Hrun.
    destruct (assetId_of m (Service.ev_assetPath ev)) as [aid | e] eqn:Haid; [| discriminate].
    destruct (service_sync_block_returns cfg ev m aid env w Hm Happ Haid)
      as (rp' & w'' & Hrun' & Hkind).
    unfold Service.processAssetEvent in Hrun'.
    rewrite Hm, run_bind, run_lift, Happ in Hrun'. cbn [negb] in Hrun'.
    rewrite run_bind, run_lift, Haid in Hrun'. rewrite Hrun' in Hrun.
    inversion Hrun; subst.
    destruct Hkind as [(r & ->) | (e & ->)];
      [apply record_result_shape | apply record_exception_shape].
  - destruct (assetId_of (Action.ev_metadata aev) (Action.ev_assetPath aev))
      as [aid | e] eqn:Haid.
    + destruct (processSynchronization_returns aev params aid env w Haid)
        as (rp & w' & -> & Hkind). cbn [fst].
      destruct Hkind as [(r & ->) | (e & ->)];
        [apply record_result_shape | apply record_exception_shape].
    + unfold Action.processSynchronization. rewrite run_bind, run_lift, Haid. exact I.
Qed.

(* ===================================================================== *)
(** * The requests of one event *)
(* ===================================================================== *)


Lemma getAccessToken_resume_outbound (o : HttpOutcome) (env : Env) (w : World) :
  outbound (snd (Service.getAccessToken_resume o env w)) = outbound w.
Proof.
  destruct o as [msg | r].
  - rewrite getAccessToken_resume_failure by exact I. reflexivity.
  - destruct (is_2xx (status r)) eqn:Hok.
    + rewrite getAccessToken_resume_success by exact Hok. reflexivity.
    + rewrite getAccessToken_resume_failure by exact Hok. reflexivity.
Qed.




Lemma getAccessToken_fails (env : Env) (w : World) :
  ~ Concurrent.fresh (tokenManager w) (clock env (clockReads w)) ->
  request_fails (respond env (List.length (outbound w)) TokenRequest) ->
  exists w', Service.getAccessToken env w = (Throw (Error "Authentication failed"), w')
             /\ tokenManager w' = tokenManager w
             /\ outbound w' = outbound w ++ [TokenRequest].
Proof.
  intros Hstale Hfail. unfold Service.getAccessToken.
  destruct (getAccessToken_start_stale env w Hstale) as (w1 & -> & Hw1).
  rewrite getAccessToken_resume_failure by exact Hfail.
  eexists. split; [reflexivity |]. destruct Hw1 as [-> | ->]; cbn; auto.
Qed.

(** X17: when no fresh token is cached and the token request fails, every
    operation of the service's client returns an unsuccessful result that
    carries the error "Authentication failed", flagged retryable by create and
    update; no assets-API request is made and the token cache is unchanged.
    The event is then reported as failed. *)
Theorem authentication_failure_is_a_failed_result
    (op : Operation) (d : NormalizedMetadata) (env : Env) (w : World) :
  ~ Concurrent.fresh (tokenManager w) (clock env (clockReads w)) ->
  request_fails (respond env (List.length (outbound w)) TokenRequest) ->
  exists r w',
    service_perform op d env w = (Ok r, w')
    /\ success r = false
    /\ error r = Some (ErrorDetails (assetId d) (Error "Authentication failed") None)
    /\ retryable r = match op with Remove => None | _ => Some true end
    /\ outbound w' = outbound w ++ [TokenRequest]
    /\ tokenManager w' = tokenManager w
    /\ rp_status (record_result (assetId d) r) = Failed.
Proof.
  intros Hstale Hfail.
  destruct (getAccessToken_fails env w Hstale Hfail) as (w' & Hrun & Htm & Hout).
  destruct op; cbn [service_perform];
    [unfold Service.sendAssetMetadata | unfold Service.updateAssetMetadata
     | unfold Service.deleteAsset];
    rewrite run_try_catch, run_bind, Hrun; cbn; eexists _, _;
    (split; [reflexivity |]); cbn; auto 10.
Qed.

Lemma authentication_failure_is_a_failed_result_witness :
  exists r w',
    service_perform Update sample_output Samples.env_unauthorized Samples.world_expired
    = (Ok r, w')
    /\ success r = false
    /\ error r = Some (ErrorDetails (MStr "u1") (Error "Authentication failed") None)
    /\ retryable r = Some true
    /\ outbound w' = [TokenRequest]
    /\ tokenManager w' = tokenManager Samples.world_expired
    /\ rp_status (record_result (MStr "u1") r) = Failed.
Proof.
  apply (authentication_failure_is_a_failed_result Update sample_output
           Samples.env_unauthorized Samples.world_expired).
  - intros (t & e & _ & _ & He & _ & Hlt). cbn in He, Hlt. inversion He. lia.
  - reflexivity.
Defined.

(** X18: the service's client reports success only when a token was
    obtained and the assets API answered the one request of the operation
    with a 2xx status. *)
Theorem success_means_2xx (op : Operation) (d : NormalizedMetadata)
    (env : Env) (w : World) (r : SyncResult) (w' : World) :
  service_perform op d env w = (Ok r, w') -> success r = true ->
  exists token w1 req response,
    Service.getAccessToken env w = (Ok token, w1)
    /\ api_operation req = Some op
    /\ respond env (List.length (outbound w1)) req = Responded response
    /\ is_2xx (status response) = true
    /\ w' = issue req w1.
Proof.
  intros Hrun Hsuccess.
  destruct (Service.getAccessToken env w) as [[token | e] w1] eqn:Htoken.
  - exists token, w1.
    destruct op; cbn [service_perform] in Hrun;
      [unfold Service.sendAssetMetadata in Hrun | unfold Service.updateAssetMetadata in Hrun
       | unfold Service.deleteAsset in Hrun];
      rewrite run_try_catch, run_bind, Htoken, run_bind in Hrun;
      unfold axios in Hrun; rewrite run_bind in Hrun; cbn [http] in Hrun;
      unfold axios_settle in Hrun;
      (destruct (respond env (List.length (outbound w1)) _) as [msg | response] eqn:Hresp;
       [cbn in Hrun; inversion Hrun; subst; discriminate |]);
      (destruct (is_2xx (status response)) eqn:Hok;
       [| cbn in Hrun; inversion Hrun; subst; discriminate]);
      cbn in Hrun; inversion Hrun; subst;
      eexists _, response; (split; [reflexivity |]);
      (split; [| split; [exact Hresp | auto]]); reflexivity.
  - exfalso.
    destruct op; cbn [service_perform] in Hrun;
      [unfold Service.sendAssetMetadata in Hrun | unfold Service.updateAssetMetadata in Hrun
       | unfold Service.deleteAsset in Hrun];
      rewrite run_try_catch, run_bind, Htoken in Hrun; cbn in Hrun;
      inversion Hrun; subst; discriminate.
Qed.

Lemma success_means_2xx_witness :
  exists r w' token w1 req response,
    service_perform Update sample_output Samples.env_ok Samples.world_empty = (Ok r, w')
    /\ success r = true
    /\ Service.getAccessToken Samples.env_ok Samples.world_empty = (Ok token, w1)
    /\ api_operation req = Some Update
    /\ respond Samples.env_ok (List.length (outbound w1)) req = Responded response
    /\ is_2xx (status response) = true
    /\ w' = issue req w1.
Proof.
  destruct (service_perform Update sample_output Samples.env_ok Samples.world_empty)
    as [[r | e] w'] eqn:Hrun; [| vm_compute in Hrun; discriminate].
  assert (Hsuccess : success r = true).
  { vm_compute in Hrun. inversion Hrun. reflexivity. }
  destruct (success_means_2xx Update sample_output Samples.env_ok Samples.world_empty
              r w' Hrun Hsuccess) as (token & w1 & req & response & H).
  exists r, w', token, w1, req, response. split; [reflexivity |]. split; [exact Hsuccess |].
  exact H.
Defined.

(* ===================================================================== *)
(** * The life of a cached token *)
(* ===================================================================== *)

(** A successful refresh, from the call to the stored token. *)
Lemma getAccessToken_refreshes (env : Env) (w : World) (r : Response) :
  ~ Concurrent.fresh (tokenManager w) (clock env (clockReads w)) ->
  respond env (List.length (outbound w)) TokenRequest = Responded r ->
  is_2xx (status r) = true ->
  exists k,
    (k = clockReads w \/ k = S (clockReads w))
    /\ Service.getAccessToken env w
       = (Ok (access_token (data r)),
          mkWorld (mkTokenManager (Some (access_token (data r)))
                     (Some (clock env k + expires_in (data r) * 1000 - 60000)))
                  (outbound w ++ [TokenRequest]) (S k)).
Proof.
  intros Hstale Hr Hok. unfold Service.getAccessToken.
  destruct (getAccessToken_start_stale env w Hstale) as (w1 & -> & Hw1).
  rewrite Hr, getAccessToken_resume_success by exact Hok.
  destruct Hw1 as [-> | ->]; eexists; (split; [| reflexivity]); auto.
Qed.

(** X19: after a successful refresh, the next call returns the stored token
    without any request, as long as the clock reads less than the stored
    expiry [now + expires_in * 1000 - 60000] (and token and expiry are not
    the falsy values [''] and [0]). *)
Theorem refreshed_token_is_reused (env : Env) (w : World) (r : Response) :
  ~ Concurrent.fresh (tokenManager w) (clock env (clockReads w)) ->
  respond env (List.length (outbound w)) TokenRequest = Responded r ->
  is_2xx (status r) = true ->
  access_token (data r) <> "" ->
  exists w1 expiry,
    Service.getAccessToken env w = (Ok (access_token (data r)), w1)
    /\ tokenExpiry (tokenManager w1) = Some expiry
    /\ (expiry <> 0 -> clock env (clockReads w1) < expiry ->
        Service.getAccessToken env w1 = (Ok (access_token (data r)), tick w1)
        /\ outbound (tick w1) = outbound w ++ [TokenRequest]).
Proof.
  intros Hstale Hr Hok Htok.
  destruct (getAccessToken_refreshes env w r Hstale Hr Hok) as (k & _ & Hrun).
  eexists _, _. split; [exact Hrun |]. split; [reflexivity |].
  intros Hne Hlt. split; [| reflexivity].
  unfold Service.getAccessToken.
  erewrite getAccessToken_start_fresh; [reflexivity | reflexivity |].
  eexists _, _. repeat split; try reflexivity; assumption.
Qed.

Lemma refreshed_token_is_reused_witness :
  exists w1 expiry,
    Service.getAccessToken Samples.env_ok Samples.world_expired = (Ok "tok", w1)
    /\ tokenExpiry (tokenManager w1) = Some expiry
    /\ Service.getAccessToken Samples.env_ok w1 = (Ok "tok", tick w1)
    /\ outbound (tick w1) = [TokenRequest].
Proof.
  destruct (refreshed_token_is_reused Samples.env_ok Samples.world_expired
              (mkResponse 200 Samples.token_data))
    as (w1 & expiry & Hrun & Hexp & Hnext).
  - intros (t & e & _ & _ & He & _ & Hlt). cbn in He, Hlt. inversion He. lia.
  - reflexivity.
  - reflexivity.
  - discriminate.
  - exists w1, expiry. split; [exact Hrun |]. split; [exact Hexp |].
    assert (Hw1 : w1 = snd (Service.getAccessToken Samples.env_ok Samples.world_expired))
      by (rewrite Hrun; reflexivity).
    vm_compute in Hw1. subst w1. cbn in Hexp. inversion Hexp. subst expiry.
    apply Hnext; [discriminate | reflexivity].
Defined.

(** X20: a token that the endpoint grants for 60 seconds or less, or an
    empty token, is stored but never served from the cache: with a clock that
    does not run backwards, the very next call posts a new token request. *)
Theorem short_lived_token_is_never_reused (env : Env) (w : World) (r : Response) :
  ~ Concurrent.fresh (tokenManager w) (clock env (clockReads w)) ->
  respond env (List.length (outbound w)) TokenRequest = Responded r ->
  is_2xx (status r) = true ->
  access_token (data r) = "" \/ (expires_in (data r) <= 60 /\ monotone env) ->
  exists w1 w2,
    Service.getAccessToken env w = (Ok (access_token (data r)), w1)
    /\ accessToken (tokenManager w1) = Some (access_token (data r))
    /\ Service.getAccessToken_start env w1
       = (Service.Awaiting (List.length (outbound w1)), w2)
    /\ outbound w2 = outbound w ++ [TokenRequest; TokenRequest].
Proof.
  intros Hstale Hr Hok Hshort.
  destruct (getAccessToken_refreshes env w r Hstale Hr Hok) as (k & _ & Hrun).
  match type of Hrun with _ = (_, ?x) => set (w1 := x) in * end.
  destruct (getAccessToken_start_stale env w1) as (w2 & Hstart & Hw2).
  - intros (t & e & Ht & Hne & He & _ & Hlt). cbn in Ht, He, Hlt.
    inversion Ht; inversion He; subst.
    destruct Hshort as [Hempty | (Hshort & Hmono)]; [contradiction |].
    pose proof (Hmono k (S k) (Nat.le_succ_diag_r k)). lia.
  - exists w1, (issue TokenRequest w2). split; [exact Hrun |]. split; [reflexivity |].
    split; [exact Hstart |].
    destruct Hw2 as [-> | ->]; cbn; rewrite <- app_assoc; reflexivity.
Qed.

Lemma short_lived_token_is_never_reused_witness :
  exists w1 w2,
    Service.getAccessToken
      (mkEnv (fun _ _ => Responded (mkResponse 200 (mkData "tok" 60 None None None None)))
             (fun k => 1000000 + Z.of_nat k))
      Samples.world_empty = (Ok "tok", w1)
    /\ accessToken (tokenManager w1) = Some "tok"
    /\ Service.getAccessToken_start
         (mkEnv (fun _ _ => Responded (mkResponse 200 (mkData "tok" 60 None None None None)))
                (fun k => 1000000 + Z.of_nat k)) w1
       = (Service.Awaiting (List.length (outbound w1)), w2)
    /\ outbound w2 = [TokenRequest; TokenRequest].
Proof.
  apply (short_lived_token_is_never_reused
           (mkEnv (fun _ _ => Responded (mkResponse 200 (mkData "tok" 60 None None None None)))
                  (fun k => 1000000 + Z.of_nat k))
           Samples.world_empty
           (mkResponse 200 (mkData "tok" 60 None None None None))).
  - intros (t & e & Ht & _). discriminate.
  - reflexivity.
  - reflexivity.
  - right. split; [cbn; lia |]. intros i j Hij. cbn. lia.
Defined.

Lemma getAccessToken_start_requests (env : Env) (w : World) :
  outbound (snd (Service.getAccessToken_start env w)) = outbound w
  \/ outbound (snd (Service.getAccessToken_start env w)) = outbound w ++ [TokenRequest].
Proof.
  unfold Service.getAccessToken_start, Service.post_token.
  destruct (accessToken (tokenManager w)) as [t |]; [| right; reflexivity].
  destruct (tokenExpiry (tokenManager w)) as [e |]; [| right; reflexivity].
  destruct (negb (String.eqb t "") && negb (e =? 0)); [| right; reflexivity].
  destruct (clock env (clockReads w) <? e); [left | right]; reflexivity.
Qed.

Lemma step_requests (env : Env) (l : Concurrent.Loop) (ev : Concurrent.Event) :
  (Concurrent.token_requests (Concurrent.world (Concurrent.step env l ev))
   <= Concurrent.token_requests (Concurrent.world l) + calls [ev])%nat
  /\ List.length (Concurrent.tasks (Concurrent.step env l ev))
     = (List.length (Concurrent.tasks l) + calls [ev])%nat.
Proof.
  destruct ev as [| i]; cbn [Concurrent.step].
  - pose proof (getAccessToken_start_requests env (Concurrent.world l)) as Hout.
    destruct (Service.getAccessToken_start env (Concurrent.world l)) as [[t | k] w'];
      cbn [snd] in Hout; cbn [Concurrent.world Concurrent.tasks];
      (split; [| rewrite length_app; reflexivity]);
      unfold Concurrent.token_requests;
      (destruct Hout as [-> | ->];
       [| rewrite List.filter_app, length_app]); cbn; lia.
  - destruct (Concurrent.tasks l !! i) as [[k | r] |] eqn:Hi; cbn; try lia.
    pose proof (getAccessToken_resume_outbound (respond env k TokenRequest) env
                  (Concurrent.world l)) as Hout.
    destruct (Service.getAccessToken_resume _ env (Concurrent.world l)) as [r w'].
    cbn [snd] in Hout. cbn. unfold Concurrent.token_requests.
    rewrite Hout, length_insert. lia.
Qed.

(** X21: in every interleaving of calls and settled responses, at most one
    token request is issued per call of [getAccessToken]; a settling response
    issues none, and every call is one task. *)
Theorem token_requests_bounded_by_calls (env : Env) (evs : list Concurrent.Event)
    (l : Concurrent.Loop) :
  (Concurrent.token_requests (Concurrent.world (Concurrent.run env l evs))
   <= Concurrent.token_requests (Concurrent.world l) + calls evs)%nat
  /\ List.length (Concurrent.tasks (Concurrent.run env l evs))
     = (List.length (Concurrent.tasks l) + calls evs)%nat.
Proof.
  revert l. induction evs as [| ev evs IH]; intros l.
  - cbn. lia.
  - change (Concurrent.run env l (ev :: evs))
      with (Concurrent.run env (Concurrent.step env l ev) evs).
    destruct (IH (Concurrent.step env l ev)) as (Hreq & Hlen).
    destruct (step_requests env l ev) as (Hreq1 & Hlen1).
    assert (Hcalls : calls (ev :: evs) = (calls [ev] + calls evs)%nat).
    { unfold calls. destruct ev; cbn; reflexivity. }
    rewrite Hcalls. lia.
Qed.

(* ===================================================================== *)
(** * What the signature check accepts *)
(* ===================================================================== *)

Lemma hexval_lower_ascii (c : ascii) :
  Crypto.hexval (lower_ascii c) = Crypto.hexval c.
Proof.
  destruct c as [[] [] [] [] [] [] [] []]; reflexivity.
Qed.

Lemma buffer_from_hex_toLowerCase (s : string) :
  Crypto.buffer_from_hex (toLowerCase s) = Crypto.buffer_from_hex s.
Proof.
  assert (H : forall s,
             Crypto.buffer_from_hex (toLowerCase s) = Crypto.buffer_from_hex s
             /\ forall c, Crypto.buffer_from_hex (toLowerCase (String c s))
                          = Crypto.buffer_from_hex (String c s)).
  { clear s. induction s as [| c' s (IH1 & IH2)].
    - split; [reflexivity | intros c; reflexivity].
    - split; [apply IH2 |]. intros c. cbn [toLowerCase Crypto.buffer_from_hex].
      rewrite !hexval_lower_ascii.
      destruct (Crypto.hexval c); [| reflexivity].
      destruct (Crypto.hexval c'); [| reflexivity].
      f_equal. exact IH1. }
  apply H.
Qed.

(** X22: the signature check ignores the letter case of the header: a
    header and its lower-case form are verified alike (same verdict, same
    exception). *)
Theorem verifyWebhookSignature_ignores_case (payload signature secret : string) :
  Service.verifyWebhookSignature payload (toLowerCase signature) secret
  = Service.verifyWebhookSignature payload signature secret.
Proof.
  rewrite !verifyWebhookSignature_cases, buffer_from_hex_toLowerCase. reflexivity.
Qed.

Lemma buffer_from_hex_app (bs : list Z) (rest : string) :
  Forall is_byte bs ->
  Crypto.buffer_from_hex (Crypto.to_hex bs ++ rest)%string
  = bs ++ Crypto.buffer_from_hex rest.
Proof.
  induction 1 as [| b bs Hb _ IH]; [reflexivity |].
  unfold is_byte in Hb. cbn [Crypto.to_hex]. rewrite !append_String.
  cbn [Crypto.buffer_from_hex]. rewrite !hexval_hexdigit.
  - rewrite IH. cbn [List.app]. f_equal. rewrite (Z.div_mod b 16) at 3 by lia. lia.
  - apply Z.mod_pos_bound. lia.
  - split; [apply Z.div_pos; lia | apply Z.div_lt_upper_bound; lia].
Qed.

(** X23: text after a valid signature is not looked at when it does not
    start with two hexadecimal digits: decoding stops there, so the valid
    signature followed by such text verifies. *)
Theorem verifyWebhookSignature_accepts_trailing_text (payload secret trailing : string) :
  Crypto.buffer_from_hex trailing = [] ->
  Service.verifyWebhookSignature payload
    (Crypto.to_hex (Crypto.hmac_sha256 (Crypto.bytes_of_string secret)
                                       (Crypto.bytes_of_string payload)) ++ trailing)%string
    secret
  = Ok true.
Proof.
  intros Htrailing. rewrite verifyWebhookSignature_cases.
  rewrite buffer_from_hex_app by apply hmac_sha256_bytes.
  rewrite Htrailing, app_nil_r, hmac_sha256_length. cbn [Nat.eqb].
  rewrite bool_decide_eq_true_2; reflexivity.
Qed.

Lemma verifyWebhookSignature_accepts_trailing_text_witness :
  Service.verifyWebhookSignature "{}"
    (Crypto.to_hex (Crypto.hmac_sha256 (Crypto.bytes_of_string "s3cret")
                                       (Crypto.bytes_of_string "{}")) ++ ", sha1=0")%string
    "s3cret"
  = Ok true.
Proof.
  apply (verifyWebhookSignature_accepts_trailing_text "{}" "s3cret" ", sha1=0").
  reflexivity.
Defined.

(* ===================================================================== *)
(** * The action's logger and the first status field *)
(* ===================================================================== *)

Lemma own_level_cases (level : string) :
  Logging.own_level Logging.levels level = Some 0 /\ level = "debug"
  \/ Logging.own_level Logging.levels level = Some 1
  \/ Logging.own_level Logging.levels level = Some 2
  \/ Logging.own_level Logging.levels level = Some 3
  \/ Logging.own_level Logging.levels level = None
     /\ level <> "debug" /\ level <> "info" /\ level <> "warn" /\ level <> "error".
Proof.
  unfold Logging.levels. cbn [Logging.own_level].
  destruct (String.eqb_spec "debug" level) as [<- | Hd]; [left; auto |].
  destruct (String.eqb_spec "info" level) as [<- | Hi]; [auto |].
  destruct (String.eqb_spec "warn" level) as [<- | Hw]; [auto |].
  destruct (String.eqb_spec "error" level) as [<- | He]; [auto 6 |].
  right. right. right. right. repeat split; congruence.
Qed.

(** X24: whatever level is configured, the action's logger never writes a
    debug message: level "debug" is 0, which [levels[level] || 1] replaces by
    1.  The methods are ordered by severity, and errors are written for every
    level except the names that the table inherits from [Object.prototype],
    for which nothing is written at all. *)
Theorem createLogger_never_debug (level : string) :
  Logging.writes_debug (Logging.createLogger level) = false
  /\ Logging.createLogger "debug" = Logging.createLogger "info"
  /\ (Logging.writes_info (Logging.createLogger level) = true ->
      Logging.writes_warn (Logging.createLogger level) = true)
  /\ (Logging.writes_warn (Logging.createLogger level) = true ->
      Logging.writes_error (Logging.createLogger level) = true)
  /\ (Logging.writes_error (Logging.createLogger level) = true <->
      level ∉ Logging.object_prototype_names).
Proof.
  assert (Hown : forall n, Logging.own_level Logging.levels level = Some n ->
                           level ∉ Logging.object_prototype_names).
  { intros n Hl Hin. unfold Logging.object_prototype_names in Hin.
    repeat (apply elem_of_cons in Hin as [-> | Hin]; [discriminate |]). inversion Hin. }
  unfold Logging.createLogger, Logging.currentLevel_of, Logging.levels_get.
  cbn [Logging.writes_debug Logging.writes_info Logging.writes_warn Logging.writes_error].
  split; [| split; [reflexivity |]].
  - destruct (own_level_cases level) as [(-> & _) | [-> | [-> | [-> | (-> & _)]]]];
      try reflexivity.
    case_bool_decide; reflexivity.
  - destruct (own_level_cases level)
      as [(Hl & _) | [Hl | [Hl | [Hl | (Hl & _)]]]]; rewrite Hl.
    + cbn. repeat split; eauto.
    + cbn. repeat split; eauto.
    + cbn. repeat split; eauto; discriminate.
    + cbn. repeat split; eauto; discriminate.
    + case_bool_decide as Hin; cbn; repeat split; auto; discriminate.
Qed.

(** X25: when the first status field, [dam:status], says "approved" or
    "published" in any letter case, the asset passes the gate of both
    variants and is transformed with [approvalStatus] "approved", whatever the
    other status fields hold. *)
Theorem first_status_field_decides (m : Metadata) (s : string) :
  m !! "dam:status" = Some (MStr s) ->
  toLowerCase s = "approved" \/ toLowerCase s = "published" ->
  Service.isAssetApproved (Some m) = Ok true
  /\ Action.isAssetApproved m = Ok true
  /\ getApprovalStatus m = Ok "approved".
Proof.
  intros Hm Hs.
  assert (H : approval_test (m !! "dam:status") = Ok true).
  { rewrite Hm. cbn.
    destruct (String.eqb_spec s "") as [-> | _]; [destruct Hs; discriminate |]. cbn.
    destruct Hs as [-> | ->]; reflexivity. }
  unfold Service.isAssetApproved, Action.isAssetApproved, getApprovalStatus,
    Service.approvalFields, Action.approvalFields, approvalFields3.
  cbn [first_approved Action.array_some]. rewrite H. auto.
Qed.

Lemma first_status_field_decides_witness :
  Service.isAssetApproved
    (Some (<["dam:status" := MStr "PUBLISHED"]> (<["cq:workflowStatus" := MNum 7]> ∅)))
  = Ok true
  /\ Action.isAssetApproved
       (<["dam:status" := MStr "PUBLISHED"]> (<["cq:workflowStatus" := MNum 7]> ∅))
     = Ok true
  /\ getApprovalStatus
       (<["dam:status" := MStr "PUBLISHED"]> (<["cq:workflowStatus" := MNum 7]> ∅))
     = Ok "approved".
Proof.
  apply (first_status_field_decides
           (<["dam:status" := MStr "PUBLISHED"]> (<["cq:workflowStatus" := MNum 7]> ∅))
           "PUBLISHED").
  - reflexivity.
  - right. reflexivity.
Defined.

(* ===================================================================== *)
(** * Further paths of the action and of the event processor *)
(* ===================================================================== *)



(** X27: the action skips an event whose metadata are not approved, among
    them every payload without metadata: it answers "skipped" with no data,
    sends nothing and leaves the token cache alone.  Unlike the service it
    does not look at the event type before. *)
Theorem main_skips_unapproved (params : Action.Params) (d : Action.EventEnvelope)
    (p : Action.Payload) (env : Env) (w : World) :
  Action.validateParams params = None ->
  Action.p_data params = Some d -> Action.payload d = Some p ->
  (forall f, f ∈ Action.approvalFields -> not_approving (Action.metadata_of p !! f)) ->
  exists ts w',
    Action.main (Action.Object params) env w
    = (Ok (Action.SuccessResponse "skipped" "Asset not approved for publication" ts None), w')
    /\ outbound w' = outbound w /\ tokenManager w' = tokenManager w.
Proof.
  intros Hvalid Hd Hp Hfields.
  assert (Happ : Action.isAssetApproved (Action.metadata_of p) = Ok false).
  { rewrite action_isAssetApproved_loop. apply first_approved_false_iff. exact Hfields. }
  unfold Action.main. cbv zeta. rewrite run_try_catch, Hvalid, run_bind.
  unfold Action.extractEventData. rewrite Hd, Hp, run_bind.
  destruct (Action.non_empty (Action.env_timestamp d)) as [ts |].
  - rewrite !run_ret, run_bind, run_lift. cbn [Action.ev_metadata]. rewrite Happ.
    cbn. eexists _, _. repeat split; reflexivity.
  - rewrite run_bind. unfold date_now at 1. cbv beta iota.
    rewrite !run_ret, run_bind, run_lift. cbn [Action.ev_metadata]. rewrite Happ.
    cbn. eexists _, _. repeat split; reflexivity.
Qed.

Lemma main_skips_unapproved_witness :
  exists ts w',
    Action.main
      (Action.Object
         (Action.mkParams (Some "https://mle/api") None (Some "id") (Some "secret")
            (Some "https://ims/token") (Some "com.adobe.aem.page.updated")
            (Some (Action.mkEnvelope None
                     (Some (Action.mkPayload (Some "/content/dam/p.jpg") None None None))))
            None))
      Samples.env_ok Samples.world_empty
    = (Ok (Action.SuccessResponse "skipped" "Asset not approved for publication" ts None), w')
    /\ outbound w' = outbound Samples.world_empty
    /\ tokenManager w' = tokenManager Samples.world_empty.
Proof.
  eapply (main_skips_unapproved
            (Action.mkParams (Some "https://mle/api") None (Some "id") (Some "secret")
               (Some "https://ims/token") (Some "com.adobe.aem.page.updated")
               (Some (Action.mkEnvelope None
                        (Some (Action.mkPayload (Some "/content/dam/p.jpg") None None None))))
               None)).
  - reflexivity.
  - reflexivity.
  - reflexivity.
  - intros f Hf. exact I.
Defined.

(** X28: a truthy [dc:format] that is not a string (a number, an array)
    makes the transformer throw; for an approved event the service catches
    it: the report has status error with one retryable entry, nothing is
    sent, and clock and token cache are untouched. *)
Theorem non_string_format_ends_in_error
    (cfg : Service.Config) (ev : Service.EventData) (m : Metadata)
    (v aid : MetaValue) (env : Env) (w : World) :
  Service.ev_metadata ev = Some m ->
  Service.isAssetApproved (Some m) = Ok true ->
  assetId_of m (Service.ev_assetPath ev) = Ok aid ->
  m !! "dc:format" = Some v -> truthy v = true -> is_string v = false ->
  Service.processAssetEvent cfg ev env w
  = (Ok (Service.Report (record_exception aid TypeError)), w).
Proof.
  intros Hm Happ Haid Hformat Htruthy Hstring.
  assert (Hmime : mimeType_of m (Service.ev_assetPath ev) = Ok (MimeVal v)).
  { unfold mimeType_of. rewrite Hformat, Htruthy. reflexivity. }
  assert (Hmedia : getMediaType (Some (MimeVal v)) = Throw TypeError).
  { cbn. rewrite Htruthy. cbn. destruct v as [[s | n] | xs]; [discriminate | |]; reflexivity. }
  assert (Htr : Service.transformForMLE cfg m (Service.ev_assetPath ev)
                  (Service.ev_eventType ev) env w = (Throw TypeError, w)).
  { unfold Service.transformForMLE. rewrite run_bind, run_lift, Hmime. cbv beta iota.
    rewrite run_bind, run_lift, Haid. cbv beta iota.
    rewrite run_bind, run_lift, Hmedia. reflexivity. }
  unfold Service.processAssetEvent.
  rewrite Hm, run_bind, run_lift, Happ. cbn [negb].
  rewrite run_bind, run_lift, Haid, run_bind, run_try_catch, run_bind, Htr. reflexivity.
Qed.

Lemma non_string_format_ends_in_error_witness :
  Service.processAssetEvent Samples.config_open
    (Samples.event_of "com.adobe.aem.assets.updated"
                      (<["dc:format" := MArr [SStr "image/png"]]> Samples.metadata_approved))
    Samples.env_ok Samples.world_empty
  = (Ok (Service.Report (record_exception (MStr "u1") TypeError)), Samples.world_empty).
Proof.
  apply (non_string_format_ends_in_error Samples.config_open
           (Samples.event_of "com.adobe.aem.assets.updated"
              (<["dc:format" := MArr [SStr "image/png"]]> Samples.metadata_approved))
           (<["dc:format" := MArr [SStr "image/png"]]> Samples.metadata_approved)
           (MArr [SStr "image/png"]) (MStr "u1")); reflexivity.
Defined.
